(** * 39SF040 EEPROM programmer: a shallow embedding of eeprom_programmer.c

    The firmware drives a parallel flash chip from a Pi Pico: the address
    goes out through a chain of three 74HC595 shift registers, the data byte
    through eight GPIO pins, and the three control lines /CE, /WE, /OE are
    GPIO pins as well.  The C functions are embedded as state-passing
    programs over a [world] that holds the GPIO output and direction
    registers, the shift-register chain, the flash chip and the log of every
    SDK call the firmware makes.

    Integers are [Z]: a [uint8_t] is kept in 0..255 by [Z.land _ 255], the
    [uint32_t] cursor wraps modulo 2^32 in [incr32]; the [int] error counter
    is not wrapped, and the statements about it are restricted to runs in
    which it cannot overflow. *)

From Stdlib Require Import ZArith List Lia Bool Ascii String Strings.Byte.
From stdpp Require Import base option list gmap.

Open Scope Z_scope.

(** ** Constants of the source *)

Definition DATA_PIN_NUMBER : Z := 2.
Definition LATCH_PIN_NUMBER : Z := 3.
Definition CLOCK_PIN_NUMBER : Z := 4.
Definition ADDRESS_LINES : Z := 24.
Definition MAX_EEPROM_ADDRESS_SPACE : Z := 524288.
Definition WRITE_ENABLE_PIN : Z := 28.
Definition OUTPUT_ENABLE_PIN : Z := 27.
Definition CHIP_ENABLE_PIN : Z := 26.
Definition D0_PIN : Z := 8.
Definition D1_PIN : Z := 9.
Definition D2_PIN : Z := 10.
Definition D3_PIN : Z := 11.
Definition D4_PIN : Z := 12.
Definition D5_PIN : Z := 13.
Definition D6_PIN : Z := 14.
Definition D7_PIN : Z := 15.
Definition ONBOARD_LED_PIN : Z := 25.
Definition BUFFER_SIZE : Z := 1024.
Definition LF : string := String "010"%char EmptyString.

(** ** The log: one entry per SDK / library call, in program order *)

Inductive event : Type :=
| Gpio_init (pin : Z)
| Gpio_set_dir (pin : Z) (out : bool)
| Gpio_pull_down (pin : Z)
| Gpio_put (pin : Z) (value : bool)
| Gpio_get (pin : Z) (value : bool)
| Gpio_get_dir (pin : Z) (out : bool)
| Nop
| Sleep_us (n : Z)
| Sleep_ms (n : Z)
| Oled (m1 m2 m3 m4 m5 : string)
| Printf (s : string)
| Report_mismatch (address expected actual : Z)
| Report_done (title : string) (address : Z) (errors : option Z)
| Sdk_call (name : string)
| F_read (requested : Z) (ok : bool) (got : Z).

(** ** The hardware around the Pico *)

(** Modelled from the spec: the flash chip is hardware.  Its command decoder
    (software data protection) follows the two command sequences of the
    spec: the three-cycle unlock, then either a byte program, which stores
    the byte at its address, or the second half of the chip-erase command,
    after which every cell reads 0xFF.  Any other cycle returns the decoder
    to idle. *)
Inductive cmd_state : Type :=
| Cmd_idle | Cmd_unlock1 | Cmd_unlock2 | Cmd_program
| Cmd_erase3 | Cmd_erase4 | Cmd_erase5.

Record chip : Type := mkChip {
  mem : gmap Z Z;            (* programmed cells; an absent cell is erased *)
  cmd : cmd_state;
  a_latch : Z;               (* address latched when the write strobe fell *)
  cycles : list (Z * Z)      (* every write cycle the chip has seen *)
}.

Record world : Type := mkWorld {
  gpio_out : Z;              (* GPIO output register, bit p = pin p *)
  gpio_oe : Z;               (* GPIO output-enable register (direction) *)
  shift_reg : Z;             (* 24-bit chain of the 74HC595 *)
  addr_bus : Z;              (* its latched parallel outputs *)
  flash : chip;
  log : list event
}.

Definition mem_read (m : gmap Z Z) (a : Z) : Z := default 255 (m !! a).

Definition chip_cycle (c : chip) (a d : Z) : chip :=
  let c' := mkChip (mem c) Cmd_idle (a_latch c) (cycles c ++ [(a, d)]) in
  let goto s := mkChip (mem c) s (a_latch c) (cycles c ++ [(a, d)]) in
  match cmd c with
  | Cmd_idle => if (a =? 0x5555) && (d =? 0xAA) then goto Cmd_unlock1 else c'
  | Cmd_unlock1 => if (a =? 0x2AAA) && (d =? 0x55) then goto Cmd_unlock2 else c'
  | Cmd_unlock2 =>
      if (a =? 0x5555) && (d =? 0xA0) then goto Cmd_program
      else if (a =? 0x5555) && (d =? 0x80) then goto Cmd_erase3 else c'
  | Cmd_program =>
      mkChip (<[a := d]> (mem c)) Cmd_idle (a_latch c) (cycles c ++ [(a, d)])
  | Cmd_erase3 => if (a =? 0x5555) && (d =? 0xAA) then goto Cmd_erase4 else c'
  | Cmd_erase4 => if (a =? 0x2AAA) && (d =? 0x55) then goto Cmd_erase5 else c'
  | Cmd_erase5 =>
      if (a =? 0x5555) && (d =? 0x10)
      then mkChip ∅ Cmd_idle (a_latch c) (cycles c ++ [(a, d)]) else c'
  end.

(** Level on the pad of pin [p]: what the Pico drives when the pin is an
    output, low (pulled down, not driven) when it is an input. *)
Definition pad (out oe p : Z) : bool := Z.testbit oe p && Z.testbit out p.

(** Modelled from the spec: the serial-in/parallel-out shift-register
    chain.  One clock pulse moves the 24-bit chain by one place; a bit enters
    at the top, so that after 24 pulses the bit sent first sits at output 0,
    which is wired to A0. *)
Definition shift_in (b : bool) (sr : Z) : Z :=
  Z.lor (Z.shiftr (Z.land sr (Z.ones 24)) 1) (if b then Z.shiftl 1 23 else 0).

Definition bit_at (b : bool) (i : Z) : Z := if b then Z.shiftl 1 i else 0.

(** Byte on the eight data pads D7..D0. *)
Definition data_bus (out oe : Z) : Z :=
  fold_right (fun i acc => Z.lor (bit_at (pad out oe (D0_PIN + i)) i) acc) 0
             [0; 1; 2; 3; 4; 5; 6; 7].

(** The write strobe is active when /CE and /WE are low and /OE is high. *)
Definition strobe (out oe : Z) : bool :=
  negb (pad out oe CHIP_ENABLE_PIN) && negb (pad out oe WRITE_ENABLE_PIN)
  && pad out oe OUTPUT_ENABLE_PIN.

(** The chip drives the data lines when /CE and /OE are low, /WE high. *)
Definition chip_drives (out oe : Z) : bool :=
  negb (pad out oe CHIP_ENABLE_PIN) && negb (pad out oe OUTPUT_ENABLE_PIN)
  && pad out oe WRITE_ENABLE_PIN.

Definition chip_address (ab : Z) : Z := Z.land ab (Z.ones 19).

(** The chip latches the address when the write strobe becomes active and
    takes the data byte, completing the write cycle, when it ends. *)
Definition chip_react (c : chip) (s s' : bool) (ab data : Z) : chip :=
  match s, s' with
  | false, true => mkChip (mem c) (cmd c) (chip_address ab) (cycles c)
  | true, false => chip_cycle c (a_latch c) data
  | _, _ => c
  end.

(** Modelled from the spec: the reaction of the hardware when the pad levels
    change from ([gpio_out w], [gpio_oe w]) to ([out'], [oe']).  A rising
    clock shifts the data level in, a rising latch copies the chain to its
    outputs, and the chip follows its write strobe. *)
Definition hw_update (w : world) (out' oe' : Z) (e : event) : world :=
  let rising p := negb (pad (gpio_out w) (gpio_oe w) p) && pad out' oe' p in
  let sr' := if rising CLOCK_PIN_NUMBER
             then shift_in (pad out' oe' DATA_PIN_NUMBER) (shift_reg w)
             else shift_reg w in
  let ab' := if rising LATCH_PIN_NUMBER then shift_reg w else addr_bus w in
  let c' := chip_react (flash w) (strobe (gpio_out w) (gpio_oe w))
                       (strobe out' oe') ab' (data_bus out' oe') in
  mkWorld out' oe' sr' ab' c' (log w ++ [e]).

(** ** The state monad of the firmware *)

Definition M (A : Type) : Type := world -> A * world.
Definition ret {A} (x : A) : M A := fun w => (x, w).
Definition bind {A B} (m : M A) (k : A -> M B) : M B :=
  fun w => let (x, w') := m w in k x w'.
Notation "x <- m ;; k" := (bind m (fun x => k))
  (at level 100, m at next level, right associativity).
Notation "m ;; k" := (bind m (fun _ => k))
  (at level 100, right associativity).
Definition exec {A} (m : M A) (w : world) : world := snd (m w).
Definition emit (e : event) : M unit :=
  fun w => (tt, mkWorld (gpio_out w) (gpio_oe w) (shift_reg w) (addr_bus w)
                        (flash w) (log w ++ [e])).

(** ** SDK primitives

    Modelled from the spec: the pin driver ([gpio_put], [gpio_set_dir],
    [gpio_get], the delays) and the status sink ([oledDisplayMessages],
    [printf]) are the Pico SDK and the display library.  Each call is logged;
    the pin calls update the two GPIO registers and let the hardware
    react. *)

Definition set_bit (r p : Z) (v : bool) : Z :=
  if v then Z.setbit r p else Z.clearbit r p.

Definition gpio_put (pin : Z) (value : bool) : M unit := fun w =>
  (tt, hw_update w (set_bit (gpio_out w) pin value) (gpio_oe w)
                 (Gpio_put pin value)).
Definition gpio_set_dir (pin : Z) (out : bool) : M unit := fun w =>
  (tt, hw_update w (gpio_out w) (set_bit (gpio_oe w) pin out)
                 (Gpio_set_dir pin out)).
Definition gpio_init (pin : Z) : M unit := fun w =>
  (tt, hw_update w (set_bit (gpio_out w) pin false)
                 (set_bit (gpio_oe w) pin false) (Gpio_init pin)).
Definition gpio_get_dir (pin : Z) : M bool := fun w =>
  let d := Z.testbit (gpio_oe w) pin in
  (d, exec (emit (Gpio_get_dir pin d)) w).
Definition gpio_pull_down (pin : Z) : M unit := emit (Gpio_pull_down pin).

(** Level read on a pin: its own output when it is an output; on an input
    data pin the bit the chip drives, if it drives; low otherwise. *)
Definition pin_level (w : world) (pin : Z) : bool :=
  if Z.testbit (gpio_oe w) pin then Z.testbit (gpio_out w) pin
  else if chip_drives (gpio_out w) (gpio_oe w)
          && (D0_PIN <=? pin) && (pin <=? D7_PIN)
       then Z.testbit (mem_read (mem (flash w)) (chip_address (addr_bus w)))
                      (pin - D0_PIN)
       else false.
Definition gpio_get (pin : Z) : M bool := fun w =>
  let v := pin_level w pin in (v, exec (emit (Gpio_get pin v)) w).

Definition nop : M unit := emit Nop.
Definition sleep_us (n : Z) : M unit := emit (Sleep_us n).
Definition sleep_ms (n : Z) : M unit := emit (Sleep_ms n).
Definition oledDisplayMessages (m1 m2 m3 m4 m5 : string) : M unit :=
  emit (Oled m1 m2 m3 m4 m5).
Definition printf (s : string) : M unit := emit (Printf s).

(** ** shiftAddress *)

Fixpoint shift_loop (n : nat) (addr : Z) : M unit :=
  match n with
  | O => ret tt
  | S n' =>
      let one := negb (Z.land addr 1 =? 0) in
      let addr := Z.shiftr addr 1 in
      (if one then gpio_put DATA_PIN_NUMBER true
       else gpio_put DATA_PIN_NUMBER false) ;;
      nop ;;
      gpio_put CLOCK_PIN_NUMBER true ;;
      nop ;;
      gpio_put CLOCK_PIN_NUMBER false ;;
      nop ;;
      shift_loop n' addr
  end.

Definition shiftAddress (addr : Z) : M unit :=
  gpio_put LATCH_PIN_NUMBER false ;;
  gpio_put DATA_PIN_NUMBER false ;;
  gpio_put CLOCK_PIN_NUMBER false ;;
  shift_loop (Z.to_nat ADDRESS_LINES) addr ;;
  gpio_put LATCH_PIN_NUMBER true ;;
  nop ;;
  gpio_put LATCH_PIN_NUMBER false ;;
  nop.

(** ** Data pins and bus modes *)

Definition data_pins : list Z :=
  [D0_PIN; D1_PIN; D2_PIN; D3_PIN; D4_PIN; D5_PIN; D6_PIN; D7_PIN].

Fixpoint setDataPins_loop (pins : list Z) (byteOfData : Z) : M unit :=
  match pins with
  | [] => ret tt
  | p :: rest =>
      let isOne := negb (Z.land byteOfData 1 =? 0) in
      let byteOfData := Z.shiftr byteOfData 1 in
      gpio_put p isOne ;;
      setDataPins_loop rest byteOfData
  end.

Definition setDataPins (byteOfData : Z) : M unit :=
  setDataPins_loop data_pins byteOfData.

Fixpoint setReadMode_loop (pins : list Z) : M unit :=
  match pins with
  | [] => ret tt
  | p :: rest =>
      d <- gpio_get_dir p ;;
      (if d then (gpio_put p false ;; sleep_ms 1) else ret tt) ;;
      gpio_set_dir p false ;;
      gpio_pull_down p ;;
      sleep_ms 1 ;;
      setReadMode_loop rest
  end.

Definition setReadMode : M unit :=
  setReadMode_loop data_pins ;;
  gpio_put WRITE_ENABLE_PIN true ;;
  gpio_put OUTPUT_ENABLE_PIN false ;;
  gpio_put CHIP_ENABLE_PIN false ;;
  sleep_ms 1.

Fixpoint setWriteMode_loop (pins : list Z) : M unit :=
  match pins with
  | [] => ret tt
  | p :: rest =>
      gpio_set_dir p true ;;
      gpio_put p false ;;
      setWriteMode_loop rest
  end.

Definition setWriteMode : M unit :=
  setWriteMode_loop data_pins ;;
  gpio_put OUTPUT_ENABLE_PIN true ;;
  gpio_put CHIP_ENABLE_PIN true ;;
  gpio_put WRITE_ENABLE_PIN true ;;
  sleep_ms 1.

(** ** One bus write cycle, one bus read *)

Definition write (address data : Z) : M unit :=
  gpio_put OUTPUT_ENABLE_PIN true ;;
  gpio_put WRITE_ENABLE_PIN true ;;
  gpio_put CHIP_ENABLE_PIN false ;;
  nop ;;
  shiftAddress address ;;
  setDataPins data ;;
  nop ;;
  gpio_put WRITE_ENABLE_PIN false ;;
  sleep_us 1 ;;
  gpio_put WRITE_ENABLE_PIN true ;;
  sleep_us 1 ;;
  gpio_put CHIP_ENABLE_PIN true ;;
  sleep_us 25.

Fixpoint readByte_loop (pins : list Z) (output : Z) : M Z :=
  match pins with
  | [] => ret output
  | p :: rest =>
      currentBitState <- gpio_get p ;;
      let currentBit := if currentBitState then 1 else 0 in
      readByte_loop rest (Z.land (Z.lor (Z.shiftl output 1) currentBit) 255)
  end.

Definition EEPROM_readByte (address : Z) : M Z :=
  shiftAddress address ;;
  nop ;;
  readByte_loop (rev data_pins) 0.

(** The text put on the display and the serial port is kept as the three
    numbers it is formatted from ([Report_mismatch]); likewise the closing
    message of a run ([Report_done]). *)
Definition handleByteMismatch (address expectedData actualData : Z) : M unit :=
  emit (Report_mismatch address expectedData actualData) ;;
  sleep_ms 2000.

(** ** Command sequences *)

Definition EEPROM_writeByte (address data : Z) : M unit :=
  write 0x5555 0xAA ;;
  write 0x2AAA 0x55 ;;
  write 0x5555 0xA0 ;;
  write address data.

Definition EEPROM_chipErase : M unit :=
  oledDisplayMessages "Erasing" "EEPROM" "now..." "" "" ;;
  setWriteMode ;;
  write 0x5555 0xAA ;;
  write 0x2AAA 0x55 ;;
  write 0x5555 0x80 ;;
  write 0x5555 0xAA ;;
  write 0x2AAA 0x55 ;;
  write 0x5555 0x10 ;;
  printf (String.append "Chip erase complete!" LF) ;;
  oledDisplayMessages "EEPROM" "erase" "complete!" "Waiting" "1 second." ;;
  sleep_ms 1000.

(** ** The source file on the SD card

    Modelled from the spec: the source stream.  [f_read] belongs to the FatFs
    library: it copies up to [btr] bytes from the read pointer on, advances
    the pointer, and reports how many bytes it copied; a medium fault makes
    it return an error code.  [fgood = Some k] says that [k] more calls
    succeed before the medium faults, [None] that none ever does. *)

Record FIL : Type := mkFIL {
  fdata : list byte;
  fptr : nat;
  fgood : option nat
}.

Definition open_file (data : list byte) : FIL := mkFIL data 0 None.

Definition f_read (fil : FIL) (btr : Z) : bool * list byte * FIL :=
  match fgood fil with
  | Some O => (false, [], fil)
  | g =>
      let buffer := take (Z.to_nat btr) (drop (fptr fil) (fdata fil)) in
      (true, buffer,
       mkFIL (fdata fil) (fptr fil + length buffer)%nat (Nat.pred <$> g))
  end.

(** [char] is unsigned on the Pico (ARM EABI): a buffer element is its
    value in 0..255. *)
Definition byte_val (b : byte) : Z := Z.of_N (Byte.to_N b).

Definition incr32 (address : Z) : Z := (address + 1) mod 2 ^ 32.

(** ** Program, verify, erase-verify *)

Fixpoint write_chunk (buffer : list byte) (address : Z) : M Z :=
  match buffer with
  | [] => ret address
  | b :: rest =>
      EEPROM_writeByte address (byte_val b) ;;
      write_chunk rest (incr32 address)
  end.

Fixpoint write_file_loop (fuel : nat) (fil : FIL) (address : Z)
  : M (option Z) :=
  match fuel with
  | O => ret None
  | S fuel' =>
      let '(ok, buffer, fil') := f_read fil BUFFER_SIZE in
      let numBytesRead := Z.of_nat (length buffer) in
      emit (F_read BUFFER_SIZE ok numBytesRead) ;;
      if ok then
        address <- write_chunk buffer address ;;
        if numBytesRead <? BUFFER_SIZE then ret (Some address)
        else write_file_loop fuel' fil' address
      else ret (Some address)
  end.

Definition EEPROM_WriteCurrentFile (fil : FIL) : M (option Z) :=
  oledDisplayMessages "Writing File" "to EEPROM" "now..." "" "" ;;
  setWriteMode ;;
  r <- write_file_loop (S (length (fdata fil))) fil 0 ;;
  match r with
  | Some address =>
      emit (Report_done "Done writing EEPROM!" address None) ;;
      sleep_ms 5000 ;;
      ret (Some address)
  | None => ret None
  end.

Definition check_byte (address expected errors : Z) : M Z :=
  currentByte <- EEPROM_readByte address ;;
  if negb (currentByte =? expected)
  then handleByteMismatch address expected currentByte ;; ret (errors + 1)
  else ret errors.

Fixpoint verify_chunk (buffer : list byte) (address errors : Z) : M (Z * Z) :=
  match buffer with
  | [] => ret (address, errors)
  | b :: rest =>
      errors <- check_byte address (byte_val b) errors ;;
      verify_chunk rest (incr32 address) errors
  end.

Fixpoint verify_file_loop (fuel : nat) (fil : FIL) (address errors : Z)
  : M (option (Z * Z)) :=
  match fuel with
  | O => ret None
  | S fuel' =>
      let '(ok, buffer, fil') := f_read fil BUFFER_SIZE in
      let numBytesRead := Z.of_nat (length buffer) in
      emit (F_read BUFFER_SIZE ok numBytesRead) ;;
      if ok then
        r <- verify_chunk buffer address errors ;;
        if numBytesRead <? BUFFER_SIZE then ret (Some r)
        else verify_file_loop fuel' fil' (fst r) (snd r)
      else ret (Some (address, errors))
  end.

Definition EEPROM_ReadAndVerify (fil : FIL) : M (option (Z * Z)) :=
  oledDisplayMessages "Reading file" "from EEPROM" "now..." "" "" ;;
  setReadMode ;;
  r <- verify_file_loop (S (length (fdata fil))) fil 0 0 ;;
  match r with
  | Some (address, errors) =>
      emit (Report_done "Done reading EEPROM!" address (Some errors)) ;;
      ret r
  | None => ret None
  end.

Fixpoint verifyErased_loop (n : nat) (address errors : Z) : M (Z * Z) :=
  match n with
  | O => ret (address, errors)
  | S n' =>
      errors <- check_byte address 255 errors ;;
      verifyErased_loop n' (incr32 address) errors
  end.

Definition EEPROM_VerifyErased : M (Z * Z) :=
  oledDisplayMessages "Verifying" "EEPROM is" "erased now..." "" "" ;;
  setReadMode ;;
  r <- verifyErased_loop (Z.to_nat MAX_EEPROM_ADDRESS_SPACE) 0 0 ;;
  emit (Report_done "Done reading EEPROM!" (fst r) (Some (snd r))) ;;
  ret r.

(** ** setup and the state at power-on *)

Definition setup : M unit :=
  emit (Sdk_call "stdio_init_all") ;;
  gpio_init ONBOARD_LED_PIN ;;
  gpio_set_dir ONBOARD_LED_PIN true ;;
  gpio_init LATCH_PIN_NUMBER ;;
  gpio_set_dir LATCH_PIN_NUMBER true ;;
  gpio_init DATA_PIN_NUMBER ;;
  gpio_set_dir DATA_PIN_NUMBER true ;;
  gpio_init CLOCK_PIN_NUMBER ;;
  gpio_set_dir CLOCK_PIN_NUMBER true ;;
  emit (Sdk_call "oled_init") ;;
  gpio_init CHIP_ENABLE_PIN ;;
  gpio_set_dir CHIP_ENABLE_PIN true ;;
  gpio_init WRITE_ENABLE_PIN ;;
  gpio_set_dir WRITE_ENABLE_PIN true ;;
  gpio_init OUTPUT_ENABLE_PIN ;;
  gpio_set_dir OUTPUT_ENABLE_PIN true ;;
  gpio_put WRITE_ENABLE_PIN true ;;
  gpio_put OUTPUT_ENABLE_PIN true ;;
  gpio_put CHIP_ENABLE_PIN false ;;
  gpio_init D0_PIN ;;
  gpio_init D1_PIN ;;
  gpio_init D2_PIN ;;
  gpio_init D3_PIN ;;
  gpio_init D4_PIN ;;
  gpio_init D5_PIN ;;
  gpio_init D6_PIN ;;
  gpio_init D7_PIN.

Definition power_on (m : gmap Z Z) : world :=
  mkWorld 0 0 0 0 (mkChip m Cmd_idle 0 []) [].

Definition ready (m : gmap Z Z) : world := exec setup (power_on m).

(** ** Error signal and SD card wrappers *)

Definition handleErr : M unit :=
  printf "Caught error, blinking onboard LED to indicate error." ;;
  gpio_put ONBOARD_LED_PIN true ;;
  sleep_ms 500 ;;
  gpio_put ONBOARD_LED_PIN false ;;
  sleep_ms 500 ;;
  gpio_put ONBOARD_LED_PIN true ;;
  sleep_ms 500 ;;
  gpio_put ONBOARD_LED_PIN false ;;
  sleep_ms 500 ;;
  gpio_put ONBOARD_LED_PIN true ;;
  sleep_ms 500 ;;
  gpio_put ONBOARD_LED_PIN false ;;
  sleep_ms 500.

(** Result codes of the FatFs library. *)
Inductive FRESULT : Type :=
| FR_OK | FR_DISK_ERR | FR_INT_ERR | FR_NOT_READY | FR_NO_FILE | FR_NO_PATH
| FR_INVALID_NAME | FR_DENIED | FR_EXIST | FR_INVALID_OBJECT
| FR_WRITE_PROTECTED | FR_INVALID_DRIVE | FR_NOT_ENABLED | FR_NO_FILESYSTEM
| FR_MKFS_ABORTED | FR_TIMEOUT | FR_LOCKED | FR_NOT_ENOUGH_CORE
| FR_TOO_MANY_OPEN_FILES | FR_INVALID_PARAMETER.

Definition is_FR_OK (fr : FRESULT) : bool :=
  match fr with FR_OK => true | _ => false end.

(** Modelled from the spec: the mass-storage collaborator.  The card answers
    the driver and FatFs calls of the wrappers: whether the driver starts,
    what mounting returns, what opening a file by name returns together
    with the bytes of the file, and what closing returns. *)
Record sd_card : Type := mkCard {
  card_init : bool;
  card_mount : FRESULT;
  card_open : string -> FRESULT * list byte;
  card_close : FRESULT
}.

(** A file object that was never opened with success: FatFs invalidates the
    object when [f_open] fails, and every later [f_read] on it returns an
    error code. *)
Definition invalid_file : FIL := mkFIL [] 0 (Some O).

Definition f_open (card : sd_card) (fileName : string) : FRESULT * FIL :=
  let (fr, data) := card_open card fileName in
  (fr, if is_FR_OK fr then open_file data else invalid_file).

Definition SD_init (card : sd_card) : M bool :=
  emit (Sdk_call "sd_init_driver") ;;
  let result := card_init card in
  sleep_ms 10 ;;
  if negb result then
    printf (String.append "SD Error! Could not init SD card." LF) ;;
    oledDisplayMessages "SD Error!" "Could not" "init SD card." "" "" ;;
    handleErr ;;
    ret false
  else
    printf (String.append "SD Card init successful." LF) ;;
    ret true.

Definition SD_mount (card : sd_card) : M bool :=
  emit (Sdk_call "f_mount") ;;
  let fr := card_mount card in
  sleep_ms 10 ;;
  if negb (is_FR_OK fr) then
    printf (String.append "SD Error! Could not mount SD card." LF) ;;
    oledDisplayMessages "SD Error!" "Could not" "mount SD card." "" "" ;;
    handleErr ;;
    ret false
  else
    printf (String.append "SD Card mount successful." LF) ;;
    ret true.

Definition SD_openFile (card : sd_card) (fileName : string)
  : M (bool * FIL) :=
  emit (Sdk_call "f_open") ;;
  let (fr, fp) := f_open card fileName in
  sleep_ms 10 ;;
  if negb (is_FR_OK fr) then
    oledDisplayMessages "SD Error!" "Could not" "open file." "" "" ;;
    printf (String.append "SD Error! Could not open file!" LF) ;;
    handleErr ;;
    ret (false, fp)
  else
    printf (String.append "SD Card openFile successful." LF) ;;
    ret (true, fp).

Definition SD_closeFile (card : sd_card) : M bool :=
  emit (Sdk_call "f_close") ;;
  let fr := card_close card in
  if negb (is_FR_OK fr) then
    printf (String.append "SD Error! Could not close file!" LF) ;;
    oledDisplayMessages "SD Error!" "Could not" "close file." "" "" ;;
    handleErr ;;
    ret false
  else
    printf (String.append "Successfully closed file on SD card." LF) ;;
    ret true.

Definition SD_unmount : M unit := emit (Sdk_call "f_unmount").

(** ** The whole routine: erase, check, program, verify *)

Definition sd_routine (card : sd_card) (fileName : string) : M unit :=
  printf (String.append "Beginning SD Card EEPROM routine!" LF) ;;
  SD_init card ;;
  SD_mount card ;;
  o1 <- SD_openFile card fileName ;;
  let fil1 := snd o1 in
  oledDisplayMessages "Performing" "Chip Erase" "" "" "" ;;
  EEPROM_chipErase ;;
  oledDisplayMessages "Chip Erase" "Done!" "" "" "" ;;
  sleep_ms 1000 ;;
  oledDisplayMessages "Verifying" "EEPROM" "is" "fully" "erased..." ;;
  sleep_ms 200 ;;
  EEPROM_VerifyErased ;;
  oledDisplayMessages "EEPROM" "is" "fully" "erased!" "" ;;
  sleep_ms 1000 ;;
  oledDisplayMessages "Writing data" "from SD card" "to EEPROM..." "" "" ;;
  EEPROM_WriteCurrentFile fil1 ;;
  oledDisplayMessages "Done" " writing EEPROM!" "" "" "" ;;
  sleep_ms 1000 ;;
  oledDisplayMessages "Verifying" "EEPROM now..." "" "" "" ;;
  sleep_ms 1000 ;;
  SD_closeFile card ;;
  o2 <- SD_openFile card fileName ;;
  let fil2 := snd o2 in
  EEPROM_ReadAndVerify fil2 ;;
  sleep_ms 60000 ;;
  sleep_ms 100 ;;
  SD_closeFile card ;;
  sleep_ms 100 ;;
  SD_unmount ;;
  sleep_ms 100.

(** ** main: setup, then the command loop on the serial port *)

Definition ROM_FILE : string := "marioduck.nes".

(** The serial input is given as the characters that [getchar] returns, in
    order.  [getchar] waits for a character: when none is left the loop
    stays in that call, and the result is [None]; [Some 0] is the exit code
    returned after the command [q]. *)
Fixpoint main_loop (card : sd_card) (keys : list ascii) : M (option Z) :=
  oledDisplayMessages "Use serial port" "r - read ROM" "w - write ROM"
                      "e - erase ROM" "v - verify erased" ;;
  emit (Sdk_call "getchar") ;;
  match keys with
  | [] => ret None
  | k :: rest =>
      (if Ascii.eqb k "r" then
         o <- SD_openFile card ROM_FILE ;;
         EEPROM_ReadAndVerify (snd o) ;;
         SD_closeFile card ;;
         sleep_ms 3000
       else ret tt) ;;
      (if Ascii.eqb k "w" then
         o <- SD_openFile card ROM_FILE ;;
         EEPROM_WriteCurrentFile (snd o) ;;
         SD_closeFile card ;;
         sleep_ms 3000
       else ret tt) ;;
      (if Ascii.eqb k "e" then
         EEPROM_chipErase ;;
         sleep_ms 3000
       else ret tt) ;;
      (if Ascii.eqb k "v" then
         EEPROM_VerifyErased ;;
         sleep_ms 3000
       else ret tt) ;;
      if Ascii.eqb k "q" then
        SD_unmount ;;
        ret (Some 0)
      else
        sleep_ms 1 ;;
        main_loop card rest
  end.

Definition main (card : sd_card) (keys : list ascii) : M (option Z) :=
  setup ;;
  sleep_ms 1000 ;;
  SD_init card ;;
  sleep_ms 1000 ;;
  SD_mount card ;;
  sleep_ms 2000 ;;
  main_loop card keys.

(** * Descriptions used in the statements *)

(** ** What [shiftAddress] sends *)

Definition pulse (b : bool) : list event :=
  [Gpio_put DATA_PIN_NUMBER b; Nop; Gpio_put CLOCK_PIN_NUMBER true; Nop;
   Gpio_put CLOCK_PIN_NUMBER false; Nop].

Definition latch_pulse : list event :=
  [Gpio_put LATCH_PIN_NUMBER true; Nop; Gpio_put LATCH_PIN_NUMBER false; Nop].

Definition frame_start : list event :=
  [Gpio_put LATCH_PIN_NUMBER false; Gpio_put DATA_PIN_NUMBER false;
   Gpio_put CLOCK_PIN_NUMBER false].

(** The frame that carries the bits [bits], first bit first. *)
Definition serial_frame (bits : list bool) : list event :=
  frame_start ++ flat_map pulse bits ++ latch_pulse.

(** Bits 0 .. n-1 of [addr], least significant first. *)
Definition addr_bits (n : nat) (addr : Z) : list bool :=
  map (fun i => Z.testbit addr (Z.of_nat i)) (seq 0 n).

(** ** What [shiftAddress] does to the shift-register chain *)

Fixpoint shift_loop_out (n : nat) (addr out : Z) : Z :=
  match n with
  | O => out
  | S n' =>
      shift_loop_out n' (Z.shiftr addr 1)
        (set_bit (set_bit (set_bit out DATA_PIN_NUMBER (Z.testbit addr 0))
                          CLOCK_PIN_NUMBER true) CLOCK_PIN_NUMBER false)
  end.

Fixpoint shift_loop_sr (n : nat) (addr : Z) (de : bool) (sr : Z) : Z :=
  match n with
  | O => sr
  | S n' =>
      shift_loop_sr n' (Z.shiftr addr 1) de
                    (shift_in (de && Z.testbit addr 0) sr)
  end.

Definition shiftAddress_out (addr out : Z) : Z :=
  set_bit
    (set_bit
       (shift_loop_out (Z.to_nat ADDRESS_LINES) addr
          (set_bit (set_bit (set_bit out LATCH_PIN_NUMBER false)
                            DATA_PIN_NUMBER false) CLOCK_PIN_NUMBER false))
       LATCH_PIN_NUMBER true)
    LATCH_PIN_NUMBER false.

(** The chain after a frame: the low 24 bits of the address, provided the
    clock pin drives the chain (and zero if the data pin does not). *)
Definition shifted_value (oe addr sr : Z) : Z :=
  if Z.testbit oe CLOCK_PIN_NUMBER
  then Z.land (if Z.testbit oe DATA_PIN_NUMBER then addr else 0) (Z.ones 24)
  else sr.

(** ** The data pins *)

Fixpoint setDataPins_out (pins : list Z) (byteOfData out : Z) : Z :=
  match pins with
  | [] => out
  | p :: rest =>
      setDataPins_out rest (Z.shiftr byteOfData 1)
                      (set_bit out p (Z.testbit byteOfData 0))
  end.

Fixpoint setDataPins_events (pins : list Z) (byteOfData : Z) : list event :=
  match pins with
  | [] => []
  | p :: rest =>
      Gpio_put p (Z.testbit byteOfData 0)
      :: setDataPins_events rest (Z.shiftr byteOfData 1)
  end.

Definition is_data_pin (p : Z) : bool := (D0_PIN <=? p) && (p <=? D7_PIN).

(** ** One write cycle *)

Definition bus_pins : list Z :=
  [DATA_PIN_NUMBER; LATCH_PIN_NUMBER; CLOCK_PIN_NUMBER;
   CHIP_ENABLE_PIN; OUTPUT_ENABLE_PIN; WRITE_ENABLE_PIN].

Definition outputs (oe : Z) (pins : list Z) : bool :=
  forallb (Z.testbit oe) pins.

(** The bus pins are outputs (as [setup] leaves them), the data pins are
    outputs and /WE is high (as [setWriteMode] and [write] leave them). *)
Definition write_ready (w : world) : bool :=
  outputs (gpio_oe w) bus_pins && outputs (gpio_oe w) data_pins
  && Z.testbit (gpio_out w) WRITE_ENABLE_PIN.

Definition write_out (address data out : Z) : Z :=
  set_bit
    (set_bit
       (set_bit
          (setDataPins_out data_pins data
             (shiftAddress_out address
                (set_bit (set_bit (set_bit out OUTPUT_ENABLE_PIN true)
                                  WRITE_ENABLE_PIN true)
                         CHIP_ENABLE_PIN false)))
          WRITE_ENABLE_PIN false)
       WRITE_ENABLE_PIN true)
    CHIP_ENABLE_PIN true.

Definition write_events (address data : Z) : list event :=
  [Gpio_put OUTPUT_ENABLE_PIN true; Gpio_put WRITE_ENABLE_PIN true;
   Gpio_put CHIP_ENABLE_PIN false; Nop]
  ++ serial_frame (addr_bits (Z.to_nat ADDRESS_LINES) address)
  ++ setDataPins_events data_pins data
  ++ [Nop; Gpio_put WRITE_ENABLE_PIN false; Sleep_us 1;
      Gpio_put WRITE_ENABLE_PIN true; Sleep_us 1;
      Gpio_put CHIP_ENABLE_PIN true; Sleep_us 25].

(** A whole write cycle as the chip sees it: address latched, then the
    data byte taken. *)
Definition bus_write (c : chip) (a d : Z) : chip :=
  chip_cycle (mkChip (mem c) (cmd c) a (cycles c)) a d.

(** ** Switching the bus mode *)

Fixpoint mode_oe (pins : list Z) (oe : Z) (v : bool) : Z :=
  match pins with
  | [] => oe
  | p :: rest => mode_oe rest (set_bit oe p v) v
  end.

Fixpoint wm_out (pins : list Z) (out : Z) : Z :=
  match pins with
  | [] => out
  | p :: rest => wm_out rest (set_bit out p false)
  end.

Fixpoint wm_events (pins : list Z) : list event :=
  match pins with
  | [] => []
  | p :: rest => Gpio_set_dir p true :: Gpio_put p false :: wm_events rest
  end.

Fixpoint rm_out (pins : list Z) (out oe : Z) : Z :=
  match pins with
  | [] => out
  | p :: rest =>
      rm_out rest (if Z.testbit oe p then set_bit out p false else out)
             (set_bit oe p false)
  end.

Fixpoint rm_events (pins : list Z) (oe : Z) : list event :=
  match pins with
  | [] => []
  | p :: rest =>
      Gpio_get_dir p (Z.testbit oe p)
      :: (if Z.testbit oe p then [Gpio_put p false; Sleep_ms 1] else [])
      ++ [Gpio_set_dir p false; Gpio_pull_down p; Sleep_ms 1]
      ++ rm_events rest (set_bit oe p false)
  end.

(** The bus pins are outputs and /WE is high: what [setup] establishes and
    every operation of the firmware keeps. *)
Definition bus_ready (w : world) : bool :=
  outputs (gpio_oe w) bus_pins && Z.testbit (gpio_out w) WRITE_ENABLE_PIN.

Definition setWriteMode_out (out : Z) : Z :=
  set_bit (set_bit (set_bit (wm_out data_pins out) OUTPUT_ENABLE_PIN true)
                   CHIP_ENABLE_PIN true) WRITE_ENABLE_PIN true.

Definition setWriteMode_events : list event :=
  wm_events data_pins
  ++ [Gpio_put OUTPUT_ENABLE_PIN true; Gpio_put CHIP_ENABLE_PIN true;
      Gpio_put WRITE_ENABLE_PIN true; Sleep_ms 1].

Definition inputs (oe : Z) (pins : list Z) : bool :=
  forallb (fun p => negb (Z.testbit oe p)) pins.

(** Read mode: data pins are inputs, /WE high, /OE and /CE low. *)
Definition read_ready (w : world) : bool :=
  outputs (gpio_oe w) bus_pins && inputs (gpio_oe w) data_pins
  && Z.testbit (gpio_out w) WRITE_ENABLE_PIN
  && negb (Z.testbit (gpio_out w) OUTPUT_ENABLE_PIN)
  && negb (Z.testbit (gpio_out w) CHIP_ENABLE_PIN).

Definition setReadMode_out (out oe : Z) : Z :=
  set_bit (set_bit (set_bit (rm_out data_pins out oe) WRITE_ENABLE_PIN true)
                   OUTPUT_ENABLE_PIN false) CHIP_ENABLE_PIN false.

Definition setReadMode_events (oe : Z) : list event :=
  rm_events data_pins oe
  ++ [Gpio_put WRITE_ENABLE_PIN true; Gpio_put OUTPUT_ENABLE_PIN false;
      Gpio_put CHIP_ENABLE_PIN false; Sleep_ms 1].

(** ** One bus read *)

Definition read_step (w : world) (output p : Z) : Z :=
  Z.land (Z.lor (Z.shiftl output 1) (if pin_level w p then 1 else 0)) 255.

Definition with_log (w : world) (l : list event) : world :=
  mkWorld (gpio_out w) (gpio_oe w) (shift_reg w) (addr_bus w) (flash w) l.

(** The byte the chip holds at the address the bus carries for [address]. *)
Definition chip_byte (c : chip) (address : Z) : Z :=
  mem_read (mem c) (chip_address (Z.land address (Z.ones 24))).

Definition readByte_events (address v : Z) : list event :=
  serial_frame (addr_bits (Z.to_nat ADDRESS_LINES) address)
  ++ [Nop]
  ++ map (fun p => Gpio_get p (Z.testbit v (p - D0_PIN))) (rev data_pins).

(** ** The unlocked byte write *)

Definition unlock_program : list (Z * Z) :=
  [(0x5555, 0xAA); (0x2AAA, 0x55); (0x5555, 0xA0)].

Definition writeByte_events (address data : Z) : list event :=
  write_events 0x5555 0xAA ++ write_events 0x2AAA 0x55
  ++ write_events 0x5555 0xA0 ++ write_events address data.

Definition writeByte_out (address data out : Z) : Z :=
  write_out address data
    (write_out 0x5555 0xA0 (write_out 0x2AAA 0x55 (write_out 0x5555 0xAA out))).

Definition writeByte_chip (c : chip) (a d : Z) : chip :=
  bus_write
    (bus_write (bus_write (bus_write c 0x5555 0xAA) 0x2AAA 0x55) 0x5555 0xA0)
    a d.

(** ** Counting pulses in a frame *)

Definition is_clock_rise (e : event) : bool :=
  match e with
  | Gpio_put p true => p =? CLOCK_PIN_NUMBER
  | _ => false
  end.

Definition is_latch_rise (e : event) : bool :=
  match e with
  | Gpio_put p true => p =? LATCH_PIN_NUMBER
  | _ => false
  end.

Definition clock_pulses (l : list event) : nat :=
  length (List.filter is_clock_rise l).

Definition latch_pulses (l : list event) : nat :=
  length (List.filter is_latch_rise l).

(** ** Chip erase *)

Definition erase_sequence : list (Z * Z) :=
  [(0x5555, 0xAA); (0x2AAA, 0x55); (0x5555, 0x80);
   (0x5555, 0xAA); (0x2AAA, 0x55); (0x5555, 0x10)].

(** Worst-case chip-erase time of the device in milliseconds, as the comment
    at the final [sleep_ms] of [EEPROM_chipErase] quotes it. *)
Definition chip_erase_time_ms : Z := 100.

Definition chipErase_chip (c : chip) : chip :=
  bus_write
    (bus_write
       (bus_write
          (bus_write (bus_write (bus_write c 0x5555 0xAA) 0x2AAA 0x55)
                     0x5555 0x80)
          0x5555 0xAA)
       0x2AAA 0x55)
    0x5555 0x10.

Definition chipErase_events : list event :=
  [Oled "Erasing" "EEPROM" "now..." "" ""]
  ++ setWriteMode_events
  ++ flat_map (fun p => write_events (fst p) (snd p)) erase_sequence
  ++ [Printf (String.append "Chip erase complete!" LF);
      Oled "EEPROM" "erase" "complete!" "Waiting" "1 second.";
      Sleep_ms 1000].

(** ** Comparing chip bytes with expected bytes *)

(** The byte read on the eight data lines for [address]. *)
Definition read_back (c : chip) (address : Z) : Z :=
  Z.land (chip_byte c address) 255.

Definition differs (c : chip) (address expected : Z) : bool :=
  negb (read_back c address =? expected).

Definition check_events (c : chip) (address expected : Z) : list event :=
  readByte_events address (chip_byte c address)
  ++ (if differs c address expected
      then [Report_mismatch address expected (read_back c address);
            Sleep_ms 2000]
      else []).

(** The two comparison loops of the source, [verify_chunk] over a buffer and
    [verifyErased_loop] against 0xFF, walk a list of expected bytes. *)
Fixpoint scan (expected : list Z) (address errors : Z) : M (Z * Z) :=
  match expected with
  | [] => ret (address, errors)
  | e :: rest =>
      errors <- check_byte address e errors ;;
      scan rest (incr32 address) errors
  end.

(** The (address, expected, actual) triples of the positions that differ. *)
Fixpoint mismatches (c : chip) (expected : list Z) (address : Z)
  : list (Z * Z * Z) :=
  match expected with
  | [] => []
  | e :: rest =>
      (if differs c address e then [(address, e, read_back c address)]
       else [])
      ++ mismatches c rest (incr32 address)
  end.

Fixpoint scan_events (c : chip) (expected : list Z) (address : Z)
  : list event :=
  match expected with
  | [] => []
  | e :: rest =>
      check_events c address e ++ scan_events c rest (incr32 address)
  end.

Definition addr_after (n : nat) (address : Z) : Z := Nat.iter n incr32 address.

(** The number of cells of the chip that do not read back as 0xFF. *)
Definition not_erased (c : chip) : Z :=
  Z.of_nat (length (List.filter (fun a => differs c a 255)
                                (seqZ 0 MAX_EEPROM_ADDRESS_SPACE))).

(** ** Observations on the log *)

Definition is_request (e : event) : bool :=
  match e with F_read _ _ _ => true | _ => false end.

Definition is_report (e : event) : bool :=
  match e with Report_mismatch _ _ _ => true | _ => false end.

(** The chunk requests made to the file, in order. *)
Definition requests (l : list event) : list event := List.filter is_request l.

(** The mismatch reports, in order. *)
Definition reports (l : list event) : list event := List.filter is_report l.

Definition report_of (t : Z * Z * Z) : event :=
  Report_mismatch (fst (fst t)) (snd (fst t)) (snd t).

(** Everything but a chunk request or a mismatch report. *)
Definition is_pin_event (e : event) : bool :=
  match e with
  | F_read _ _ _ | Report_mismatch _ _ _ => false
  | _ => true
  end.

(** ** Reading the file chunk by chunk *)

Definition chunk_size : nat := Z.to_nat BUFFER_SIZE.

(** What is left of the file from the read pointer on. *)
Definition remaining (fil : FIL) : list byte := drop (fptr fil) (fdata fil).

(** The requests a loop makes on a healthy file with [n] bytes left: one per
    full chunk, then one that comes back short. *)
Definition chunk_requests (n : nat) : list event :=
  replicate (n / chunk_size) (F_read BUFFER_SIZE true BUFFER_SIZE)
  ++ [F_read BUFFER_SIZE true (Z.of_nat (n mod chunk_size))].

(** ** Verifying against a file *)

(** The positions [i], [i+1], ... of [data] whose chip byte differs from the
    file byte, each with its (address, expected, actual) triple. *)
Fixpoint differing (c : chip) (i : nat) (data : list byte)
  : list (Z * Z * Z) :=
  match data with
  | [] => []
  | b :: rest =>
      (if differs c (Z.of_nat i) (byte_val b)
       then [(Z.of_nat i, byte_val b, read_back c (Z.of_nat i))] else [])
      ++ differing c (S i) rest
  end.

Definition scenario_source : list byte := [x00; xff; x3c; x3c; x01].

(** The chip after programming [scenario_source], with the byte at address 2
    corrupted to 0x3D. *)
Definition scenario_corrupted : gmap Z Z :=
  <[0 := 0x00]> (<[1 := 0xFF]> (<[2 := 0x3D]> (<[3 := 0x3C]>
    (<[4 := 0x01]> ∅)))).

(** ** Programming from a file *)

(** The chip after the unlocked writes of a buffer from [address] on. *)
Fixpoint program_chip (c : chip) (buffer : list byte) (address : Z) : chip :=
  match buffer with
  | [] => c
  | b :: rest =>
      program_chip
        (writeByte_chip c (chip_address (Z.land address (Z.ones 24)))
                        (byte_val b))
        rest (incr32 address)
  end.

(** The address the shift registers hold after these writes. *)
Fixpoint program_bus (ab : Z) (buffer : list byte) (address : Z) : Z :=
  match buffer with
  | [] => ab
  | b :: rest => program_bus (Z.land address (Z.ones 24)) rest (incr32 address)
  end.

Fixpoint program_events (buffer : list byte) (address : Z) : list event :=
  match buffer with
  | [] => []
  | b :: rest =>
      writeByte_events address (byte_val b)
      ++ program_events rest (incr32 address)
  end.

(** ** Program, then verify *)

Fixpoint program_mem (m : gmap Z Z) (buffer : list byte) (address : Z)
  : gmap Z Z :=
  match buffer with
  | [] => m
  | b :: rest =>
      program_mem
        (<[chip_address (Z.land address (Z.ones 24)) := byte_val b]> m)
        rest (incr32 address)
  end.

(** ** The cursor beyond the last address *)

(** The write cycles of the unlocked writes of [data], byte [i] going to the
    chip address [i mod 2^19]. *)
Fixpoint written (i : nat) (data : list byte) : list (Z * Z) :=
  match data with
  | [] => []
  | b :: rest =>
      unlock_program ++ [(Z.of_nat i mod 2 ^ 19, byte_val b)]
      ++ written (S i) rest
  end.

(** ** Operations that stay off the bus *)

(** [m] leaves the chip, the shift registers, the pin directions and every
    pin but the on-board LED as they are. *)
Definition off_bus {A} (m : M A) : Prop :=
  forall w : world,
    flash (exec m w) = flash w
    /\ shift_reg (exec m w) = shift_reg w
    /\ addr_bus (exec m w) = addr_bus w
    /\ gpio_oe (exec m w) = gpio_oe w
    /\ (forall q, q <> ONBOARD_LED_PIN ->
                  Z.testbit (gpio_out (exec m w)) q = Z.testbit (gpio_out w) q).

Definition is_led_rise (e : event) : bool :=
  match e with
  | Gpio_put p true => p =? ONBOARD_LED_PIN
  | _ => false
  end.

(** How often the on-board LED was switched on. *)
Definition led_blinks (l : list event) : nat :=
  length (List.filter is_led_rise l).

Definition handleErr_events : list event :=
  [Printf "Caught error, blinking onboard LED to indicate error.";
   Gpio_put ONBOARD_LED_PIN true; Sleep_ms 500;
   Gpio_put ONBOARD_LED_PIN false; Sleep_ms 500;
   Gpio_put ONBOARD_LED_PIN true; Sleep_ms 500;
   Gpio_put ONBOARD_LED_PIN false; Sleep_ms 500;
   Gpio_put ONBOARD_LED_PIN true; Sleep_ms 500;
   Gpio_put ONBOARD_LED_PIN false; Sleep_ms 500].

(** ** A medium that faults during the run *)

(** The file [data] on a medium whose [k+1]-th read faults. *)
Definition faulty_file (data : list byte) (k : nat) : FIL :=
  mkFIL data 0 (Some k).

(** ** The whole routine *)

(** The bus is configured with /WE high and the chip is [c]. *)
Definition bus_with (w : world) (c : chip) : Prop :=
  bus_ready w = true /\ flash w = c.

(** Two cards for the examples: one that holds the scenario file under every
    name, one that holds no file. *)
Definition scenario_card : sd_card :=
  mkCard true FR_OK (fun _ => (FR_OK, scenario_source)) FR_OK.

Definition empty_card : sd_card :=
  mkCard true FR_OK (fun _ => (FR_NO_FILE, [])) FR_INVALID_OBJECT.


(** ** The command loop *)

(** What one command does to the chip: [w] programs the file when the card
    opens it, [e] erases, every other character leaves the chip alone. *)
Definition key_chip (card : sd_card) (c : chip) (k : ascii) : chip :=
  if Ascii.eqb k "w" then
    if is_FR_OK (fst (card_open card ROM_FILE))
    then program_chip c (snd (card_open card ROM_FILE)) 0
    else c
  else if Ascii.eqb k "e" then chipErase_chip c
  else c.

(** The chip after the commands [keys], read up to the first [q]. *)
Fixpoint session_chip (card : sd_card) (keys : list ascii) (c : chip) : chip :=
  match keys with
  | [] => c
  | k :: rest =>
      if Ascii.eqb k "q" then c
      else session_chip card rest (key_chip card c k)
  end.

(** The commands up to and including the first [q]. *)
Fixpoint until_quit (keys : list ascii) : list ascii :=
  match keys with
  | [] => []
  | k :: rest => if Ascii.eqb k "q" then [k] else k :: until_quit rest
  end.

Definition alters_chip (k : ascii) : bool :=
  Ascii.eqb k "w" || Ascii.eqb k "e".

Definition is_quit (k : ascii) : bool := Ascii.eqb k "q".

Definition read_only (keys : list ascii) : bool :=
  forallb (fun k => negb (alters_chip k)) keys.

(** ** What the routine reports *)

(** [m] reports no mismatch, whatever the state it starts in. *)
Definition silent {A} (m : M A) : Prop :=
  forall w : world, reports (log (exec m w)) = reports (log w).

(** The bus is configured, the chip is [c] and the mismatches reported so
    far are [r]. *)
Definition bus_quiet (w : world) (c : chip) (r : list event) : Prop :=
  bus_with w c /\ reports (log w) = r.

(** * Proofs *)

Lemma bind_run {A B} (m : M A) (k : A -> M B) (w : world) :
  bind m k w = k (fst (m w)) (snd (m w)).
Proof. unfold bind. destruct (m w); reflexivity. Qed.

Lemma bind_exec {A B} (m : M A) (k : A -> M B) (w : world) :
  bind m k w = k (fst (m w)) (exec m w).
Proof. apply bind_run. Qed.

Lemma exec_bind {A B} (m : M A) (k : A -> M B) (w : world) :
  exec (bind m k) w = exec (k (fst (m w))) (exec m w).
Proof. unfold exec. rewrite bind_run. reflexivity. Qed.

Lemma fst_bind {A B} (m : M A) (k : A -> M B) (w : world) :
  fst (bind m k w) = fst (k (fst (m w)) (exec m w)).
Proof. unfold exec. rewrite bind_run. reflexivity. Qed.

Lemma testbit_set_bit (r p q : Z) (v : bool) :
  0 <= p -> Z.testbit (set_bit r p v) q = if q =? p then v else Z.testbit r q.
Proof.
  intros Hp. unfold set_bit. destruct v.
  - rewrite Z.setbit_eqb by assumption. rewrite (Z.eqb_sym q p).
    destruct (p =? q); reflexivity.
  - rewrite Z.clearbit_eqb. rewrite (Z.eqb_sym q p).
    destruct (p =? q); simpl; [apply andb_false_r | apply andb_true_r].
Qed.

Lemma pad_set_out (out oe p q : Z) (v : bool) :
  0 <= p ->
  pad (set_bit out p v) oe q
  = if q =? p then Z.testbit oe p && v else pad out oe q.
Proof.
  intros Hp. unfold pad. rewrite testbit_set_bit by assumption.
  destruct (Z.eqb_spec q p); subst; reflexivity.
Qed.

Lemma pad_set_oe (out oe p q : Z) (v : bool) :
  0 <= p ->
  pad out (set_bit oe p v) q
  = if q =? p then v && Z.testbit out p else pad out oe q.
Proof.
  intros Hp. unfold pad. rewrite testbit_set_bit by assumption.
  destruct (Z.eqb_spec q p); subst; reflexivity.
Qed.

Lemma lsb_test (a : Z) : negb (Z.land a 1 =? 0) = Z.testbit a 0.
Proof.
  change 1 with (Z.ones 1). rewrite Z.land_ones by lia.
  change (2 ^ 1) with 2. rewrite <- Z.bit0_mod.
  destruct (Z.testbit a 0); reflexivity.
Qed.

Lemma put_bool (p : Z) (b : bool) :
  (if b then gpio_put p true else gpio_put p false) = gpio_put p b.
Proof. destruct b; reflexivity. Qed.

(** ** What [shiftAddress] sends *)

Lemma addr_bits_S (n : nat) (addr : Z) :
  addr_bits (S n) addr = Z.testbit addr 0 :: addr_bits n (Z.shiftr addr 1).
Proof.
  unfold addr_bits. simpl. f_equal. rewrite <- seq_shift, map_map.
  apply map_ext. intros i. rewrite Z.shiftr_spec by lia.
  f_equal. lia.
Qed.

Lemma log_emit (e : event) (w : world) : log (exec (emit e) w) = log w ++ [e].
Proof. reflexivity. Qed.

Lemma log_gpio_put (p : Z) (v : bool) (w : world) :
  log (exec (gpio_put p v) w) = log w ++ [Gpio_put p v].
Proof. reflexivity. Qed.

Lemma shift_loop_log (n : nat) : forall (addr : Z) (w : world),
  log (exec (shift_loop n addr) w)
  = log w ++ flat_map pulse (addr_bits n addr).
Proof.
  induction n as [|n IH]; intros addr w.
  - simpl. symmetry. apply app_nil_r.
  - rewrite addr_bits_S. cbn [shift_loop flat_map].
    rewrite lsb_test, put_bool.
    rewrite !exec_bind, IH; cbn; rewrite <- !app_assoc; reflexivity.
Qed.

Lemma shiftAddress_log (addr : Z) (w : world) :
  log (exec (shiftAddress addr) w)
  = log w ++ serial_frame (addr_bits (Z.to_nat ADDRESS_LINES) addr).
Proof.
  unfold shiftAddress, serial_frame, nop.
  rewrite !exec_bind, log_emit, log_gpio_put, log_emit, log_gpio_put.
  rewrite shift_loop_log, !log_gpio_put.
  rewrite <- !app_assoc. reflexivity.
Qed.

(** ** What [shiftAddress] does to the shift-register chain *)

Ltac pin_neq := apply Z.eqb_neq; congruence.

(** The chip only reacts to the control pins. *)
Lemma strobe_set_out (out oe p : Z) (v : bool) :
  0 <= p ->
  p <> CHIP_ENABLE_PIN -> p <> OUTPUT_ENABLE_PIN -> p <> WRITE_ENABLE_PIN ->
  strobe (set_bit out p v) oe = strobe out oe.
Proof.
  intros Hp H26 H27 H28. unfold strobe.
  rewrite !pad_set_out by assumption.
  replace (CHIP_ENABLE_PIN =? p) with false by (symmetry; pin_neq).
  replace (OUTPUT_ENABLE_PIN =? p) with false by (symmetry; pin_neq).
  replace (WRITE_ENABLE_PIN =? p) with false by (symmetry; pin_neq).
  reflexivity.
Qed.

Lemma chip_quiet (c : chip) (s s' : bool) (ab data : Z) :
  s' = s -> chip_react c s s' ab data = c.
Proof. intros ->. destruct s; reflexivity. Qed.

Lemma put_plain_pin (w : world) (p : Z) (v : bool) :
  0 <= p -> p <> LATCH_PIN_NUMBER -> p <> CLOCK_PIN_NUMBER ->
  p <> CHIP_ENABLE_PIN -> p <> OUTPUT_ENABLE_PIN -> p <> WRITE_ENABLE_PIN ->
  exec (gpio_put p v) w
  = mkWorld (set_bit (gpio_out w) p v) (gpio_oe w) (shift_reg w) (addr_bus w)
            (flash w) (log w ++ [Gpio_put p v]).
Proof.
  intros Hp H3 H4 H26 H27 H28.
  unfold exec, gpio_put, hw_update; simpl.
  rewrite chip_quiet by (apply strobe_set_out; assumption).
  rewrite !pad_set_out by assumption.
  replace (LATCH_PIN_NUMBER =? p) with false by (symmetry; pin_neq).
  replace (CLOCK_PIN_NUMBER =? p) with false by (symmetry; pin_neq).
  rewrite !andb_negb_l. reflexivity.
Qed.

Lemma put_clock (w : world) (v : bool) :
  exec (gpio_put CLOCK_PIN_NUMBER v) w
  = mkWorld (set_bit (gpio_out w) CLOCK_PIN_NUMBER v) (gpio_oe w)
      (if negb (pad (gpio_out w) (gpio_oe w) CLOCK_PIN_NUMBER)
          && (Z.testbit (gpio_oe w) CLOCK_PIN_NUMBER && v)
       then shift_in (pad (gpio_out w) (gpio_oe w) DATA_PIN_NUMBER)
                     (shift_reg w)
       else shift_reg w)
      (addr_bus w) (flash w) (log w ++ [Gpio_put CLOCK_PIN_NUMBER v]).
Proof.
  unfold exec, gpio_put, hw_update; simpl.
  rewrite chip_quiet by (apply strobe_set_out; discriminate).
  rewrite !pad_set_out by discriminate.
  cbn [Z.eqb CLOCK_PIN_NUMBER DATA_PIN_NUMBER LATCH_PIN_NUMBER Pos.eqb].
  rewrite !andb_negb_l. reflexivity.
Qed.

Lemma put_latch (w : world) (v : bool) :
  exec (gpio_put LATCH_PIN_NUMBER v) w
  = mkWorld (set_bit (gpio_out w) LATCH_PIN_NUMBER v) (gpio_oe w)
      (shift_reg w)
      (if negb (pad (gpio_out w) (gpio_oe w) LATCH_PIN_NUMBER)
          && (Z.testbit (gpio_oe w) LATCH_PIN_NUMBER && v)
       then shift_reg w else addr_bus w)
      (flash w) (log w ++ [Gpio_put LATCH_PIN_NUMBER v]).
Proof.
  unfold exec, gpio_put, hw_update; simpl.
  rewrite chip_quiet by (apply strobe_set_out; discriminate).
  rewrite !pad_set_out by discriminate.
  cbn [Z.eqb CLOCK_PIN_NUMBER DATA_PIN_NUMBER LATCH_PIN_NUMBER Pos.eqb].
  rewrite !andb_negb_l. reflexivity.
Qed.

Lemma put_data (w : world) (v : bool) :
  exec (gpio_put DATA_PIN_NUMBER v) w
  = mkWorld (set_bit (gpio_out w) DATA_PIN_NUMBER v) (gpio_oe w)
            (shift_reg w) (addr_bus w) (flash w)
            (log w ++ [Gpio_put DATA_PIN_NUMBER v]).
Proof. apply put_plain_pin; discriminate. Qed.

Lemma exec_emit (e : event) (w : world) :
  exec (emit e) w
  = mkWorld (gpio_out w) (gpio_oe w) (shift_reg w) (addr_bus w) (flash w)
            (log w ++ [e]).
Proof. reflexivity. Qed.

Lemma shift_loop_exec (n : nat) : forall (addr : Z) (w : world),
  pad (gpio_out w) (gpio_oe w) CLOCK_PIN_NUMBER = false ->
  exec (shift_loop n addr) w
  = mkWorld (shift_loop_out n addr (gpio_out w)) (gpio_oe w)
      (if Z.testbit (gpio_oe w) CLOCK_PIN_NUMBER
       then shift_loop_sr n addr (Z.testbit (gpio_oe w) DATA_PIN_NUMBER)
                          (shift_reg w)
       else shift_reg w)
      (addr_bus w) (flash w) (log w ++ flat_map pulse (addr_bits n addr)).
Proof.
  induction n as [|n IH]; intros addr w Hclk.
  - destruct w as [out oe sr ab c l]. unfold exec, addr_bits.
    cbn [shift_loop ret snd seq map flat_map shift_loop_out shift_loop_sr
         gpio_out gpio_oe shift_reg addr_bus flash log].
    rewrite app_nil_r.
    destruct (Z.testbit oe CLOCK_PIN_NUMBER); reflexivity.
  - rewrite addr_bits_S. cbn [shift_loop shift_loop_out shift_loop_sr flat_map].
    rewrite lsb_test, put_bool. unfold nop.
    rewrite !exec_bind, put_data, exec_emit. cbn [gpio_out gpio_oe shift_reg
      addr_bus flash log fst].
    rewrite put_clock, exec_emit. cbn [gpio_out gpio_oe shift_reg
      addr_bus flash log fst].
    rewrite put_clock, exec_emit. cbn [gpio_out gpio_oe shift_reg
      addr_bus flash log fst].
    rewrite IH; cbn [gpio_out gpio_oe shift_reg addr_bus flash log].
    2:{ rewrite pad_set_out by (unfold CLOCK_PIN_NUMBER; lia).
        rewrite Z.eqb_refl. apply andb_false_r. }
    rewrite !pad_set_out by (unfold CLOCK_PIN_NUMBER, DATA_PIN_NUMBER; lia).
    rewrite Hclk, !Z.eqb_refl.
    change (CLOCK_PIN_NUMBER =? DATA_PIN_NUMBER) with false.
    change (DATA_PIN_NUMBER =? CLOCK_PIN_NUMBER) with false.
    cbn [negb andb]. rewrite !andb_true_r, !andb_false_r.
    cbn [negb andb]. unfold pulse. cbn [app]. rewrite <- !app_assoc. cbn [app].
    f_equal. destruct (Z.testbit (gpio_oe w) CLOCK_PIN_NUMBER); reflexivity.
Qed.

Ltac bool_close :=
  cbn [andb orb negb];
  rewrite ?andb_true_r, ?andb_false_r, ?orb_false_r, ?orb_true_r;
  cbn [andb orb negb]; try reflexivity.

Lemma shift_in_spec (b : bool) (sr k : Z) :
  Z.testbit (shift_in b sr) k
  = if k =? 23 then b else (0 <=? k) && (k <? 23) && Z.testbit sr (k + 1).
Proof.
  unfold shift_in. rewrite Z.lor_spec.
  destruct (Z.ltb_spec k 0) as [Hneg|Hk].
  - rewrite !Z.testbit_neg_r by assumption.
    destruct (Z.eqb_spec k 23); [lia|].
    destruct (Z.leb_spec 0 k); [lia|]. reflexivity.
  - rewrite Z.shiftr_spec, Z.land_spec by assumption.
    assert (Hb : Z.testbit (if b then Z.shiftl 1 23 else 0) k
                 = (k =? 23) && b).
    { destruct b.
      - rewrite Z.shiftl_1_l, Z.pow2_bits_eqb by lia.
        rewrite Z.eqb_sym. symmetry. apply andb_true_r.
      - rewrite Z.bits_0. symmetry. apply andb_false_r. }
    rewrite Hb.
    destruct (Z.eqb_spec k 23) as [->|Hne].
    + rewrite Z.ones_spec_high by lia. bool_close.
    + destruct (Z.leb_spec 0 k); [|lia].
      destruct (Z.ltb_spec k 23).
      * rewrite Z.ones_spec_low by lia. bool_close.
      * rewrite Z.ones_spec_high by lia. bool_close.
Qed.

Ltac cmp_cases :=
  repeat match goal with
    | |- context [?a <=? ?b] => destruct (Z.leb_spec a b)
    | |- context [?a <? ?b] => destruct (Z.ltb_spec a b)
    | |- context [?a =? ?b] => destruct (Z.eqb_spec a b)
    end;
  cbn [andb orb negb]; try lia.

(** After [n] pulses the top [n] places of the chain hold bits 0..n-1 of
    the address, the rest is what was there before, moved down. *)
Lemma shift_loop_sr_spec (n : nat) : forall (addr : Z) (de : bool) (sr k : Z),
  (n <= 24)%nat -> 0 <= k < 24 ->
  Z.testbit (shift_loop_sr n addr de sr) k
  = if 24 - Z.of_nat n <=? k
    then de && Z.testbit addr (k - (24 - Z.of_nat n))
    else Z.testbit sr (k + Z.of_nat n).
Proof.
  induction n as [|n IH]; intros addr de sr k Hn Hk.
  - cbn [shift_loop_sr]. change (Z.of_nat 0) with 0.
    rewrite Z.add_0_r. cmp_cases. reflexivity.
  - cbn [shift_loop_sr]. rewrite IH by lia. rewrite shift_in_spec.
    rewrite Nat2Z.inj_succ. cmp_cases.
    + f_equal. rewrite Z.shiftr_spec by lia. f_equal. lia.
    + f_equal. f_equal. lia.
    + f_equal. lia.
Qed.

Lemma shift_loop_sr_high (n : nat) : forall (addr : Z) (de : bool) (sr k : Z),
  24 <= k ->
  (forall j, 24 <= j -> Z.testbit sr j = false) ->
  Z.testbit (shift_loop_sr n addr de sr) k = false.
Proof.
  induction n as [|n IH]; intros addr de sr k Hk Hsr.
  - apply Hsr, Hk.
  - cbn [shift_loop_sr]. apply IH; [assumption|].
    intros j Hj. rewrite shift_in_spec. cmp_cases.
Qed.

Lemma shift_loop_sr_S (n : nat) (addr : Z) (de : bool) (sr : Z) :
  shift_loop_sr (S n) addr de sr
  = shift_loop_sr n (Z.shiftr addr 1) de (shift_in (de && Z.testbit addr 0) sr).
Proof. reflexivity. Qed.

Lemma shift_loop_sr_full (addr : Z) (de : bool) (sr : Z) :
  shift_loop_sr 24 addr de sr = Z.land (if de then addr else 0) (Z.ones 24).
Proof.
  apply Z.bits_inj'. intros k Hk. rewrite Z.land_spec.
  destruct (Z.ltb_spec k 24).
  - rewrite shift_loop_sr_spec by lia.
    change (24 - Z.of_nat 24) with 0. rewrite Z.sub_0_r.
    rewrite Z.ones_spec_low by lia.
    cmp_cases. destruct de; bool_close. symmetry. apply Z.bits_0.
  - rewrite Z.ones_spec_high by lia. rewrite andb_false_r.
    rewrite (shift_loop_sr_S 23).
    apply shift_loop_sr_high; [assumption|].
    intros j Hj. rewrite shift_in_spec. cmp_cases.
Qed.

Lemma shift_loop_out_other (n : nat) : forall (addr out q : Z),
  q <> DATA_PIN_NUMBER -> q <> CLOCK_PIN_NUMBER ->
  Z.testbit (shift_loop_out n addr out) q = Z.testbit out q.
Proof.
  induction n as [|n IH]; intros addr out q H2 H4; [reflexivity|].
  cbn [shift_loop_out]. rewrite IH by assumption.
  rewrite !testbit_set_bit by discriminate.
  replace (q =? CLOCK_PIN_NUMBER) with false by (symmetry; pin_neq).
  replace (q =? DATA_PIN_NUMBER) with false by (symmetry; pin_neq).
  reflexivity.
Qed.

Lemma shiftAddress_out_other (addr out q : Z) :
  q <> DATA_PIN_NUMBER -> q <> LATCH_PIN_NUMBER -> q <> CLOCK_PIN_NUMBER ->
  Z.testbit (shiftAddress_out addr out) q = Z.testbit out q.
Proof.
  intros H2 H3 H4. unfold shiftAddress_out.
  rewrite !testbit_set_bit by discriminate.
  replace (q =? LATCH_PIN_NUMBER) with false by (symmetry; pin_neq).
  rewrite shift_loop_out_other by assumption.
  rewrite !testbit_set_bit by discriminate.
  replace (q =? LATCH_PIN_NUMBER) with false by (symmetry; pin_neq).
  replace (q =? CLOCK_PIN_NUMBER) with false by (symmetry; pin_neq).
  replace (q =? DATA_PIN_NUMBER) with false by (symmetry; pin_neq).
  reflexivity.
Qed.

Ltac proj := cbn [gpio_out gpio_oe shift_reg addr_bus flash log fst snd].

Lemma shiftAddress_exec (addr : Z) (w : world) :
  exec (shiftAddress addr) w
  = mkWorld (shiftAddress_out addr (gpio_out w)) (gpio_oe w)
      (shifted_value (gpio_oe w) addr (shift_reg w))
      (if Z.testbit (gpio_oe w) LATCH_PIN_NUMBER
       then shifted_value (gpio_oe w) addr (shift_reg w) else addr_bus w)
      (flash w)
      (log w ++ serial_frame (addr_bits (Z.to_nat ADDRESS_LINES) addr)).
Proof.
  unfold shiftAddress, nop.
  rewrite !exec_bind, put_latch, put_data. proj.
  rewrite put_clock. proj.
  rewrite shift_loop_exec; proj.
  2:{ rewrite pad_set_out by discriminate. rewrite Z.eqb_refl.
      apply andb_false_r. }
  rewrite put_latch, exec_emit. proj. rewrite put_latch, exec_emit. proj.
  assert (Hl : forall out, pad (shift_loop_out (Z.to_nat ADDRESS_LINES) addr
               (set_bit (set_bit (set_bit out LATCH_PIN_NUMBER false)
                  DATA_PIN_NUMBER false) CLOCK_PIN_NUMBER false))
               (gpio_oe w) LATCH_PIN_NUMBER = false).
  { intros out. unfold pad. rewrite shift_loop_out_other by discriminate.
    rewrite !testbit_set_bit by discriminate.
    change (LATCH_PIN_NUMBER =? CLOCK_PIN_NUMBER) with false.
    change (LATCH_PIN_NUMBER =? DATA_PIN_NUMBER) with false.
    rewrite Z.eqb_refl. apply andb_false_r. }
  rewrite Hl. rewrite !pad_set_out by discriminate. rewrite !Z.eqb_refl.
  unfold shiftAddress_out, shifted_value, serial_frame, frame_start,
    latch_pulse.
  change (Z.to_nat ADDRESS_LINES) with 24%nat.
  rewrite shift_loop_sr_full.
  rewrite <- !app_assoc. cbn [app].
  f_equal.
  - destruct (Z.testbit (gpio_oe w) CLOCK_PIN_NUMBER); bool_close.
  - destruct (Z.testbit (gpio_oe w) LATCH_PIN_NUMBER),
      (Z.testbit (gpio_oe w) CLOCK_PIN_NUMBER); bool_close.
Qed.

(** ** The data pins *)

Lemma data_pin_plain (p : Z) :
  is_data_pin p = true ->
  0 <= p /\ p <> LATCH_PIN_NUMBER /\ p <> CLOCK_PIN_NUMBER
  /\ p <> CHIP_ENABLE_PIN /\ p <> OUTPUT_ENABLE_PIN /\ p <> WRITE_ENABLE_PIN.
Proof.
  unfold is_data_pin, D0_PIN, D7_PIN, LATCH_PIN_NUMBER, CLOCK_PIN_NUMBER,
    CHIP_ENABLE_PIN, OUTPUT_ENABLE_PIN, WRITE_ENABLE_PIN.
  intros H. apply andb_true_iff in H. destruct H as [H1 H2].
  apply Z.leb_le in H1, H2. lia.
Qed.

Lemma put_data_pin (w : world) (p : Z) (v : bool) :
  is_data_pin p = true ->
  exec (gpio_put p v) w
  = mkWorld (set_bit (gpio_out w) p v) (gpio_oe w) (shift_reg w) (addr_bus w)
            (flash w) (log w ++ [Gpio_put p v]).
Proof.
  intros H. apply data_pin_plain in H. apply put_plain_pin; tauto.
Qed.

Lemma setDataPins_loop_exec (pins : list Z) :
  forallb is_data_pin pins = true ->
  forall (b : Z) (w : world),
  exec (setDataPins_loop pins b) w
  = mkWorld (setDataPins_out pins b (gpio_out w)) (gpio_oe w) (shift_reg w)
            (addr_bus w) (flash w) (log w ++ setDataPins_events pins b).
Proof.
  induction pins as [|p rest IH]; intros Hp b w.
  - destruct w. unfold exec. cbn. rewrite app_nil_r. reflexivity.
  - cbn [forallb] in Hp. apply andb_true_iff in Hp. destruct Hp as [Hp Hr].
    cbn [setDataPins_loop setDataPins_out setDataPins_events].
    rewrite lsb_test, exec_bind, put_data_pin by assumption.
    rewrite IH by assumption. proj.
    rewrite <- app_assoc. reflexivity.
Qed.

Lemma setDataPins_exec (b : Z) (w : world) :
  exec (setDataPins b) w
  = mkWorld (setDataPins_out data_pins b (gpio_out w)) (gpio_oe w)
            (shift_reg w) (addr_bus w) (flash w)
            (log w ++ setDataPins_events data_pins b).
Proof. apply setDataPins_loop_exec. reflexivity. Qed.

Ltac cmp_prune :=
  repeat (match goal with
          | |- context [?a <=? ?b] => destruct (Z.leb_spec a b)
          | |- context [?a <? ?b] => destruct (Z.ltb_spec a b)
          | |- context [?a =? ?b] => destruct (Z.eqb_spec a b)
          end; try lia);
  cbn [andb orb negb].

Lemma setDataPins_out_spec (b out q : Z) :
  Z.testbit (setDataPins_out data_pins b out) q
  = if is_data_pin q then Z.testbit b (q - D0_PIN) else Z.testbit out q.
Proof.
  unfold data_pins, is_data_pin. cbn [setDataPins_out].
  rewrite !testbit_set_bit by discriminate.
  rewrite !Z.shiftr_spec by lia.
  unfold D0_PIN, D1_PIN, D2_PIN, D3_PIN, D4_PIN, D5_PIN, D6_PIN, D7_PIN.
  cmp_prune; try reflexivity; f_equal; lia.
Qed.

Lemma bit_at_spec (b : bool) (i k : Z) :
  0 <= i -> Z.testbit (bit_at b i) k = b && (k =? i).
Proof.
  intros Hi. unfold bit_at. destruct b; cbn [andb].
  - rewrite Z.shiftl_1_l. rewrite Z.pow2_bits_eqb by assumption.
    apply Z.eqb_sym.
  - apply Z.bits_0.
Qed.

Lemma data_bus_spec (out oe k : Z) :
  Z.testbit (data_bus out oe) k
  = (0 <=? k) && (k <? 8) && pad out oe (D0_PIN + k).
Proof.
  unfold data_bus. cbn [fold_right].
  rewrite !Z.lor_spec, !bit_at_spec, Z.bits_0 by lia.
  cmp_prune; subst; bool_close.
Qed.

(** ** One write cycle *)

Lemma put_ctrl (w : world) (p : Z) (v : bool) :
  0 <= p -> p <> LATCH_PIN_NUMBER -> p <> CLOCK_PIN_NUMBER ->
  exec (gpio_put p v) w
  = mkWorld (set_bit (gpio_out w) p v) (gpio_oe w) (shift_reg w) (addr_bus w)
      (chip_react (flash w) (strobe (gpio_out w) (gpio_oe w))
                  (strobe (set_bit (gpio_out w) p v) (gpio_oe w))
                  (addr_bus w)
                  (data_bus (set_bit (gpio_out w) p v) (gpio_oe w)))
      (log w ++ [Gpio_put p v]).
Proof.
  intros Hp H3 H4. unfold exec, gpio_put, hw_update; simpl.
  rewrite !pad_set_out by assumption.
  replace (LATCH_PIN_NUMBER =? p) with false by (symmetry; pin_neq).
  replace (CLOCK_PIN_NUMBER =? p) with false by (symmetry; pin_neq).
  rewrite !andb_negb_l. reflexivity.
Qed.

Lemma outputs_data (oe k : Z) :
  outputs oe data_pins = true -> 0 <= k < 8 ->
  Z.testbit oe (D0_PIN + k) = true.
Proof.
  unfold outputs, data_pins. cbn [forallb]. rewrite !andb_true_iff.
  intros (H0 & H1 & H2 & H3 & H4 & H5 & H6 & H7 & _) Hk.
  assert (Hc : k = 0 \/ k = 1 \/ k = 2 \/ k = 3 \/ k = 4 \/ k = 5 \/ k = 6
               \/ k = 7) by lia.
  destruct Hc as [->|[->|[->|[->|[->|[->|[->| ->]]]]]]]; assumption.
Qed.

Lemma data_bus_drive (d out oe : Z) :
  outputs oe data_pins = true ->
  data_bus (setDataPins_out data_pins d out) oe = Z.land d 255.
Proof.
  intros Hoe. apply Z.bits_inj'. intros k Hk.
  rewrite data_bus_spec. change 255 with (Z.ones 8). rewrite Z.land_spec.
  destruct (Z.ltb_spec k 8).
  - unfold pad. rewrite outputs_data by (assumption || lia).
    rewrite setDataPins_out_spec. unfold is_data_pin, D0_PIN, D7_PIN.
    rewrite Z.ones_spec_low by lia.
    cmp_prune. bool_close. f_equal. lia.
  - rewrite Z.ones_spec_high by lia. cmp_prune.
Qed.

Lemma data_bus_set_other (out oe q : Z) (v : bool) :
  0 <= q -> is_data_pin q = false ->
  data_bus (set_bit out q v) oe = data_bus out oe.
Proof.
  intros Hq Hnd. apply Z.bits_inj'. intros k Hk.
  rewrite !data_bus_spec. destruct (Z.ltb_spec k 8); [|bool_close].
  rewrite pad_set_out by assumption.
  destruct (Z.eqb_spec (D0_PIN + k) q) as [<-|]; [|reflexivity].
  unfold is_data_pin, D0_PIN, D7_PIN in Hnd.
  apply andb_false_iff in Hnd.
  destruct Hnd as [Hnd|Hnd]; [apply Z.leb_gt in Hnd|apply Z.leb_gt in Hnd];
    lia.
Qed.

Lemma setDataPins_log (b : Z) (w : world) :
  log (exec (setDataPins b) w) = log w ++ setDataPins_events data_pins b.
Proof. rewrite setDataPins_exec. reflexivity. Qed.

Create Rewrite HintDb logs.
#[local] Hint Rewrite log_emit log_gpio_put shiftAddress_log setDataPins_log
  : logs.

Lemma write_log (address data : Z) (w : world) :
  log (exec (write address data) w) = log w ++ write_events address data.
Proof.
  unfold write, write_events, nop, sleep_us.
  rewrite !exec_bind. autorewrite with logs.
  rewrite <- !app_assoc. reflexivity.
Qed.

Lemma strobe_we_high (out oe : Z) :
  Z.testbit oe WRITE_ENABLE_PIN = true ->
  Z.testbit out WRITE_ENABLE_PIN = true ->
  strobe out oe = false.
Proof.
  intros Hoe Hout. unfold strobe, pad. rewrite Hoe, Hout. bool_close.
Qed.

Lemma strobe_active (out oe : Z) :
  Z.testbit oe CHIP_ENABLE_PIN = true ->
  Z.testbit oe OUTPUT_ENABLE_PIN = true ->
  Z.testbit out CHIP_ENABLE_PIN = false ->
  Z.testbit out WRITE_ENABLE_PIN = false ->
  Z.testbit out OUTPUT_ENABLE_PIN = true ->
  strobe out oe = true.
Proof.
  intros Hc Ho H26 H28 H27. unfold strobe, pad.
  rewrite Hc, Ho, H26, H28, H27. bool_close.
Qed.

Lemma ctrl_after_data (address data out q : Z) :
  is_data_pin q = false ->
  q <> DATA_PIN_NUMBER -> q <> LATCH_PIN_NUMBER -> q <> CLOCK_PIN_NUMBER ->
  Z.testbit (setDataPins_out data_pins data (shiftAddress_out address out)) q
  = Z.testbit out q.
Proof.
  intros Hd H2 H3 H4. rewrite setDataPins_out_spec, Hd.
  apply shiftAddress_out_other; assumption.
Qed.

Lemma write_ready_elim (w : world) :
  write_ready w = true ->
  outputs (gpio_oe w) bus_pins = true
  /\ outputs (gpio_oe w) data_pins = true
  /\ Z.testbit (gpio_out w) WRITE_ENABLE_PIN = true.
Proof.
  unfold write_ready. rewrite !andb_true_iff. tauto.
Qed.

Lemma bus_pins_elim (oe : Z) :
  outputs oe bus_pins = true ->
  Z.testbit oe DATA_PIN_NUMBER = true /\ Z.testbit oe LATCH_PIN_NUMBER = true
  /\ Z.testbit oe CLOCK_PIN_NUMBER = true
  /\ Z.testbit oe CHIP_ENABLE_PIN = true
  /\ Z.testbit oe OUTPUT_ENABLE_PIN = true
  /\ Z.testbit oe WRITE_ENABLE_PIN = true.
Proof.
  unfold outputs, bus_pins. cbn [forallb]. rewrite !andb_true_iff. tauto.
Qed.

Ltac step L := rewrite exec_bind; rewrite L; proj.
Ltac ctrl_put :=
  rewrite exec_bind; rewrite put_ctrl by discriminate; proj.

(** The state a write cycle leaves: the address on the bus, the three
    control lines high, and the chip one write cycle further. *)
Lemma write_exec (address data : Z) (w : world) :
  write_ready w = true ->
  exec (write address data) w
  = mkWorld (write_out address data (gpio_out w)) (gpio_oe w)
      (Z.land address (Z.ones 24)) (Z.land address (Z.ones 24))
      (bus_write (flash w) (chip_address (Z.land address (Z.ones 24)))
                 (Z.land data 255))
      (log w ++ write_events address data).
Proof.
  intros Hr. apply write_ready_elim in Hr. destruct Hr as (Hb & Hd & Hwe).
  apply bus_pins_elim in Hb.
  destruct Hb as (Ho2 & Ho3 & Ho4 & Ho26 & Ho27 & Ho28).
  destruct w as [out oe sr ab c l]. proj. cbn [gpio_out gpio_oe] in *.
  unfold write, nop, sleep_us.
  ctrl_put.
  rewrite (strobe_we_high out) by assumption.
  rewrite strobe_we_high
    by (try assumption; rewrite testbit_set_bit by discriminate; exact Hwe).
  ctrl_put.
  rewrite !(strobe_we_high _ oe)
    by (try assumption; rewrite ?testbit_set_bit by discriminate;
        first [exact Hwe | reflexivity]).
  ctrl_put.
  rewrite !(strobe_we_high _ oe)
    by (try assumption; rewrite ?testbit_set_bit by discriminate;
        reflexivity).
  step exec_emit. step shiftAddress_exec. step setDataPins_exec.
  step exec_emit. unfold shifted_value. rewrite Ho2, Ho3, Ho4.
  cbn [chip_react].
  set (out3 := set_bit (set_bit (set_bit out OUTPUT_ENABLE_PIN true)
                          WRITE_ENABLE_PIN true) CHIP_ENABLE_PIN false).
  set (out5 := setDataPins_out data_pins data (shiftAddress_out address out3)).
  assert (H26 : Z.testbit out5 CHIP_ENABLE_PIN = false).
  { unfold out5. rewrite ctrl_after_data by (reflexivity || discriminate).
    unfold out3. rewrite !testbit_set_bit by discriminate. reflexivity. }
  assert (H27 : Z.testbit out5 OUTPUT_ENABLE_PIN = true).
  { unfold out5. rewrite ctrl_after_data by (reflexivity || discriminate).
    unfold out3. rewrite !testbit_set_bit by discriminate. reflexivity. }
  assert (H28 : Z.testbit out5 WRITE_ENABLE_PIN = true).
  { unfold out5. rewrite ctrl_after_data by (reflexivity || discriminate).
    unfold out3. rewrite !testbit_set_bit by discriminate. reflexivity. }
  ctrl_put.
  rewrite (strobe_we_high out5) by assumption.
  rewrite strobe_active
    by (try assumption; rewrite testbit_set_bit by discriminate;
        first [exact H26 | exact H27 | reflexivity]).
  cbn [chip_react].
  step exec_emit. ctrl_put.
  rewrite strobe_active
    by (try assumption; rewrite testbit_set_bit by discriminate;
        first [exact H26 | exact H27 | reflexivity]).
  rewrite strobe_we_high
    by (try assumption; rewrite testbit_set_bit by discriminate; reflexivity).
  cbn [chip_react a_latch].
  step exec_emit. ctrl_put.
  rewrite !(strobe_we_high _ oe)
    by (try assumption; rewrite ?testbit_set_bit by discriminate;
        reflexivity).
  cbn [chip_react]. rewrite exec_emit. proj.
  rewrite !data_bus_set_other by (reflexivity || discriminate).
  unfold out5 at 2. rewrite data_bus_drive by assumption.
  unfold write_out, write_events. rewrite <- !app_assoc. f_equal.
Qed.

Lemma write_out_we (address data out : Z) :
  Z.testbit (write_out address data out) WRITE_ENABLE_PIN = true.
Proof.
  unfold write_out. rewrite !testbit_set_bit by discriminate. reflexivity.
Qed.

Lemma write_keeps_ready (address data : Z) (w : world) :
  write_ready w = true -> write_ready (exec (write address data) w) = true.
Proof.
  intros Hr. rewrite write_exec by assumption.
  unfold write_ready in *. proj. rewrite write_out_we.
  apply andb_true_iff in Hr. destruct Hr as [Hr _]. rewrite Hr. reflexivity.
Qed.

(** ** Switching the bus mode *)

Lemma set_dir_data_pin (w : world) (p : Z) (v : bool) :
  is_data_pin p = true ->
  exec (gpio_set_dir p v) w
  = mkWorld (gpio_out w) (set_bit (gpio_oe w) p v) (shift_reg w) (addr_bus w)
            (flash w) (log w ++ [Gpio_set_dir p v]).
Proof.
  intros H. apply data_pin_plain in H.
  destruct H as (Hp & H3 & H4 & H26 & H27 & H28).
  unfold exec, gpio_set_dir, hw_update; simpl.
  rewrite chip_quiet.
  2:{ unfold strobe. rewrite !pad_set_oe by assumption.
      replace (CHIP_ENABLE_PIN =? p) with false by (symmetry; pin_neq).
      replace (OUTPUT_ENABLE_PIN =? p) with false by (symmetry; pin_neq).
      replace (WRITE_ENABLE_PIN =? p) with false by (symmetry; pin_neq).
      reflexivity. }
  rewrite !pad_set_oe by assumption.
  replace (LATCH_PIN_NUMBER =? p) with false by (symmetry; pin_neq).
  replace (CLOCK_PIN_NUMBER =? p) with false by (symmetry; pin_neq).
  rewrite !andb_negb_l. reflexivity.
Qed.

Lemma setWriteMode_loop_exec (pins : list Z) :
  forallb is_data_pin pins = true ->
  forall w : world,
  exec (setWriteMode_loop pins) w
  = mkWorld (wm_out pins (gpio_out w)) (mode_oe pins (gpio_oe w) true)
            (shift_reg w) (addr_bus w) (flash w) (log w ++ wm_events pins).
Proof.
  induction pins as [|p rest IH]; intros Hp w.
  - destruct w. unfold exec. cbn. rewrite app_nil_r. reflexivity.
  - cbn [forallb] in Hp. apply andb_true_iff in Hp. destruct Hp as [Hp Hr].
    cbn [setWriteMode_loop wm_out mode_oe wm_events].
    step set_dir_data_pin; [|assumption].
    step put_data_pin; [|assumption].
    rewrite IH by assumption. proj. rewrite <- !app_assoc. reflexivity.
Qed.

Lemma exec_ret {A} (x : A) (w : world) : exec (ret x) w = w.
Proof. reflexivity. Qed.

Lemma fst_get_dir (p : Z) (w : world) :
  fst (gpio_get_dir p w) = Z.testbit (gpio_oe w) p.
Proof. reflexivity. Qed.

Lemma exec_get_dir (p : Z) (w : world) :
  exec (gpio_get_dir p) w
  = mkWorld (gpio_out w) (gpio_oe w) (shift_reg w) (addr_bus w) (flash w)
            (log w ++ [Gpio_get_dir p (Z.testbit (gpio_oe w) p)]).
Proof. reflexivity. Qed.

Lemma setReadMode_loop_exec (pins : list Z) :
  forallb is_data_pin pins = true ->
  forall w : world,
  exec (setReadMode_loop pins) w
  = mkWorld (rm_out pins (gpio_out w) (gpio_oe w))
            (mode_oe pins (gpio_oe w) false)
            (shift_reg w) (addr_bus w) (flash w)
            (log w ++ rm_events pins (gpio_oe w)).
Proof.
  induction pins as [|p rest IH]; intros Hp w.
  - destruct w. unfold exec. cbn. rewrite app_nil_r. reflexivity.
  - cbn [forallb] in Hp. apply andb_true_iff in Hp. destruct Hp as [Hp Hr].
    cbn [setReadMode_loop rm_out mode_oe rm_events].
    rewrite exec_bind, fst_get_dir, exec_get_dir.
    unfold gpio_pull_down, sleep_ms.
    destruct (Z.testbit (gpio_oe w) p) eqn:Hdir.
    + rewrite !exec_bind.
      rewrite put_data_pin by assumption. proj.
      rewrite exec_emit. proj.
      rewrite set_dir_data_pin by assumption. proj.
      rewrite !exec_emit. proj.
      rewrite IH by assumption. proj.
      rewrite <- !app_assoc. reflexivity.
    + rewrite !exec_bind, exec_ret.
      rewrite set_dir_data_pin by assumption. proj.
      rewrite !exec_emit. proj.
      rewrite IH by assumption. proj.
      rewrite <- !app_assoc. reflexivity.
Qed.

Lemma mode_oe_spec (oe q : Z) (v : bool) :
  Z.testbit (mode_oe data_pins oe v) q
  = if is_data_pin q then v else Z.testbit oe q.
Proof.
  unfold data_pins, is_data_pin. cbn [mode_oe].
  rewrite !testbit_set_bit by discriminate.
  unfold D0_PIN, D1_PIN, D2_PIN, D3_PIN, D4_PIN, D5_PIN, D6_PIN, D7_PIN.
  cmp_prune; reflexivity.
Qed.

Lemma wm_out_other (pins : list Z) (q : Z) :
  forallb is_data_pin pins = true -> is_data_pin q = false ->
  forall out, Z.testbit (wm_out pins out) q = Z.testbit out q.
Proof.
  intros Hp Hq. induction pins as [|p rest IH]; intros out; [reflexivity|].
  cbn [forallb] in Hp. apply andb_true_iff in Hp. destruct Hp as [Hp Hr].
  cbn [wm_out]. rewrite IH by assumption.
  rewrite testbit_set_bit by (apply data_pin_plain in Hp; tauto).
  destruct (Z.eqb_spec q p); [congruence | reflexivity].
Qed.

Lemma rm_out_other (pins : list Z) (q : Z) :
  forallb is_data_pin pins = true -> is_data_pin q = false ->
  forall out oe, Z.testbit (rm_out pins out oe) q = Z.testbit out q.
Proof.
  intros Hp Hq. induction pins as [|p rest IH]; intros out oe; [reflexivity|].
  cbn [forallb] in Hp. apply andb_true_iff in Hp. destruct Hp as [Hp Hr].
  cbn [rm_out]. rewrite IH by assumption.
  destruct (Z.testbit oe p); [|reflexivity].
  rewrite testbit_set_bit by (apply data_pin_plain in Hp; tauto).
  destruct (Z.eqb_spec q p); [congruence | reflexivity].
Qed.

Lemma outputs_bus_mode (oe : Z) (v : bool) :
  outputs (mode_oe data_pins oe v) bus_pins = outputs oe bus_pins.
Proof.
  unfold outputs, bus_pins. cbn [forallb]. rewrite !mode_oe_spec.
  reflexivity.
Qed.

Lemma outputs_data_write_mode (oe : Z) :
  outputs (mode_oe data_pins oe true) data_pins = true.
Proof.
  unfold outputs, data_pins at 2. cbn [forallb]. rewrite !mode_oe_spec.
  reflexivity.
Qed.

Lemma setWriteMode_exec (w : world) :
  bus_ready w = true ->
  exec setWriteMode w
  = mkWorld (setWriteMode_out (gpio_out w)) (mode_oe data_pins (gpio_oe w) true)
            (shift_reg w) (addr_bus w) (flash w)
            (log w ++ setWriteMode_events).
Proof.
  intros Hr. unfold bus_ready in Hr. apply andb_true_iff in Hr.
  destruct Hr as [Hb Hwe].
  assert (Ho28 : Z.testbit (mode_oe data_pins (gpio_oe w) true)
                           WRITE_ENABLE_PIN = true).
  { rewrite mode_oe_spec. apply bus_pins_elim in Hb. cbn. tauto. }
  assert (H28 : Z.testbit (wm_out data_pins (gpio_out w)) WRITE_ENABLE_PIN
                = true).
  { rewrite wm_out_other by reflexivity. exact Hwe. }
  unfold setWriteMode, sleep_ms.
  step setWriteMode_loop_exec; [|reflexivity].
  ctrl_put.
  rewrite !(strobe_we_high _ (mode_oe data_pins (gpio_oe w) true))
    by (try assumption; rewrite ?testbit_set_bit by discriminate;
        first [exact H28 | reflexivity]).
  ctrl_put.
  rewrite !(strobe_we_high _ (mode_oe data_pins (gpio_oe w) true))
    by (try assumption; rewrite ?testbit_set_bit by discriminate;
        first [exact H28 | reflexivity]).
  ctrl_put.
  rewrite !(strobe_we_high _ (mode_oe data_pins (gpio_oe w) true))
    by (try assumption; rewrite ?testbit_set_bit by discriminate;
        first [exact H28 | reflexivity]).
  cbn [chip_react]. rewrite exec_emit. proj.
  unfold setWriteMode_out, setWriteMode_events.
  rewrite <- !app_assoc. reflexivity.
Qed.

Lemma setWriteMode_ready (w : world) :
  bus_ready w = true -> write_ready (exec setWriteMode w) = true.
Proof.
  intros Hr. rewrite setWriteMode_exec by assumption.
  unfold write_ready. proj.
  rewrite outputs_bus_mode, outputs_data_write_mode.
  unfold bus_ready in Hr. apply andb_true_iff in Hr. destruct Hr as [-> _].
  unfold setWriteMode_out. rewrite testbit_set_bit by discriminate.
  reflexivity.
Qed.

Lemma write_ready_bus_ready (w : world) :
  write_ready w = true -> bus_ready w = true.
Proof.
  intros H. apply write_ready_elim in H. destruct H as (Hb & _ & Hwe).
  unfold bus_ready. rewrite Hb, Hwe. reflexivity.
Qed.

Lemma setReadMode_exec (w : world) :
  bus_ready w = true ->
  exec setReadMode w
  = mkWorld (setReadMode_out (gpio_out w) (gpio_oe w))
            (mode_oe data_pins (gpio_oe w) false)
            (shift_reg w) (addr_bus w) (flash w)
            (log w ++ setReadMode_events (gpio_oe w)).
Proof.
  intros Hr. unfold bus_ready in Hr. apply andb_true_iff in Hr.
  destruct Hr as [Hb Hwe].
  assert (Ho28 : Z.testbit (mode_oe data_pins (gpio_oe w) false)
                           WRITE_ENABLE_PIN = true).
  { rewrite mode_oe_spec. apply bus_pins_elim in Hb. cbn. tauto. }
  assert (H28 : Z.testbit (rm_out data_pins (gpio_out w) (gpio_oe w))
                          WRITE_ENABLE_PIN = true).
  { rewrite rm_out_other by reflexivity. exact Hwe. }
  unfold setReadMode, sleep_ms.
  step setReadMode_loop_exec; [|reflexivity].
  ctrl_put.
  rewrite !(strobe_we_high _ (mode_oe data_pins (gpio_oe w) false))
    by (try assumption; rewrite ?testbit_set_bit by discriminate;
        first [exact H28 | reflexivity]).
  ctrl_put.
  rewrite !(strobe_we_high _ (mode_oe data_pins (gpio_oe w) false))
    by (try assumption; rewrite ?testbit_set_bit by discriminate;
        first [exact H28 | reflexivity]).
  ctrl_put.
  rewrite !(strobe_we_high _ (mode_oe data_pins (gpio_oe w) false))
    by (try assumption; rewrite ?testbit_set_bit by discriminate;
        first [exact H28 | reflexivity]).
  cbn [chip_react]. rewrite exec_emit. proj.
  unfold setReadMode_out, setReadMode_events.
  rewrite <- !app_assoc. reflexivity.
Qed.

Lemma inputs_data_read_mode (oe : Z) :
  inputs (mode_oe data_pins oe false) data_pins = true.
Proof.
  unfold inputs, data_pins at 2. cbn [forallb]. rewrite !mode_oe_spec.
  reflexivity.
Qed.

Lemma setReadMode_ready (w : world) :
  bus_ready w = true -> read_ready (exec setReadMode w) = true.
Proof.
  intros Hr. rewrite setReadMode_exec by assumption.
  unfold read_ready. proj.
  rewrite outputs_bus_mode, inputs_data_read_mode.
  unfold bus_ready in Hr. apply andb_true_iff in Hr. destruct Hr as [-> _].
  unfold setReadMode_out. rewrite !testbit_set_bit by discriminate.
  reflexivity.
Qed.

Lemma read_ready_bus_ready (w : world) :
  read_ready w = true -> bus_ready w = true.
Proof.
  unfold read_ready, bus_ready. rewrite !andb_true_iff.
  intros ((((Hb & _) & Hwe) & _) & _). split; assumption.
Qed.

(** ** One bus read *)

Lemma pin_level_with_log (w : world) (l : list event) (p : Z) :
  pin_level (with_log w l) p = pin_level w p.
Proof. reflexivity. Qed.

Lemma readByte_loop_run (pins : list Z) : forall (output : Z) (w : world),
  readByte_loop pins output w
  = (fold_left (read_step w) pins output,
     with_log w (log w ++ map (fun p => Gpio_get p (pin_level w p)) pins)).
Proof.
  induction pins as [|p rest IH]; intros output w.
  - destruct w. unfold with_log. cbn. rewrite app_nil_r. reflexivity.
  - cbn [readByte_loop]. rewrite bind_run.
    change (fst (gpio_get p w)) with (pin_level w p).
    change (snd (gpio_get p w))
      with (with_log w (log w ++ [Gpio_get p (pin_level w p)])).
    rewrite IH. cbn [fold_left map]. unfold with_log. proj.
    rewrite <- app_assoc. reflexivity.
Qed.

Lemma read_step_bit (o k : Z) (b : bool) :
  Z.testbit (Z.land (Z.lor (Z.shiftl o 1) (if b then 1 else 0)) 255) k
  = (0 <=? k) && (k <? 8) && (if k =? 0 then b else Z.testbit o (k - 1)).
Proof.
  destruct (Z.ltb_spec k 0) as [Hneg|Hk].
  - rewrite Z.testbit_neg_r by assumption. cmp_prune; reflexivity.
  - rewrite Z.land_spec, Z.lor_spec, Z.shiftl_spec by assumption.
    change 255 with (Z.ones 8).
    assert (Hb : Z.testbit (if b then 1 else 0) k = (k =? 0) && b).
    { destruct b.
      - change 1 with (2 ^ 0). rewrite Z.pow2_bits_eqb by lia.
        rewrite Z.eqb_sym. bool_close.
      - rewrite Z.bits_0. bool_close. }
    rewrite Hb.
    destruct (Z.eqb_spec k 0) as [->|Hne].
    + rewrite Z.testbit_neg_r by lia. rewrite Z.ones_spec_low by lia.
      cmp_prune; bool_close.
    + destruct (Z.ltb_spec k 8).
      * rewrite Z.ones_spec_low by lia. cmp_prune; bool_close.
      * rewrite Z.ones_spec_high by lia. cmp_prune; bool_close.
Qed.

Lemma read_fold_value (w : world) (v : Z) :
  (forall p, is_data_pin p = true ->
             pin_level w p = Z.testbit v (p - D0_PIN)) ->
  fold_left (read_step w) (rev data_pins) 0 = Z.land v 255.
Proof.
  intros Hlvl. change (rev data_pins)
    with [D7_PIN; D6_PIN; D5_PIN; D4_PIN; D3_PIN; D2_PIN; D1_PIN; D0_PIN].
  cbn [fold_left]. unfold read_step.
  rewrite !Hlvl by reflexivity.
  apply Z.bits_inj'. intros k Hk.
  rewrite !read_step_bit, Z.bits_0.
  change 255 with (Z.ones 8). rewrite Z.land_spec.
  unfold D0_PIN, D1_PIN, D2_PIN, D3_PIN, D4_PIN, D5_PIN, D6_PIN, D7_PIN.
  destruct (Z.ltb_spec k 8).
  - rewrite Z.ones_spec_low by lia.
    cmp_prune; bool_close; f_equal; lia.
  - rewrite Z.ones_spec_high by lia. cmp_prune; bool_close.
Qed.

Lemma inputs_data (oe p : Z) :
  inputs oe data_pins = true -> is_data_pin p = true ->
  Z.testbit oe p = false.
Proof.
  unfold inputs, data_pins, is_data_pin. cbn [forallb].
  rewrite !andb_true_iff, !negb_true_iff.
  intros (H0 & H1 & H2 & H3 & H4 & H5 & H6 & H7 & _) [Hl Hu].
  apply Z.leb_le in Hl, Hu.
  unfold D0_PIN, D1_PIN, D2_PIN, D3_PIN, D4_PIN, D5_PIN, D6_PIN, D7_PIN in *.
  assert (Hc : p = 8 \/ p = 9 \/ p = 10 \/ p = 11 \/ p = 12 \/ p = 13
               \/ p = 14 \/ p = 15) by lia.
  destruct Hc as [->|[->|[->|[->|[->|[->|[->| ->]]]]]]]; assumption.
Qed.

Lemma read_ready_elim (w : world) :
  read_ready w = true ->
  outputs (gpio_oe w) bus_pins = true /\ inputs (gpio_oe w) data_pins = true
  /\ Z.testbit (gpio_out w) WRITE_ENABLE_PIN = true
  /\ Z.testbit (gpio_out w) OUTPUT_ENABLE_PIN = false
  /\ Z.testbit (gpio_out w) CHIP_ENABLE_PIN = false.
Proof.
  unfold read_ready. rewrite !andb_true_iff, !negb_true_iff. tauto.
Qed.

(** In read mode the chip answers on the data pins with the byte stored at
    the address on the bus. *)
Lemma pin_level_read (w : world) (p : Z) :
  read_ready w = true -> is_data_pin p = true ->
  pin_level w p
  = Z.testbit (mem_read (mem (flash w)) (chip_address (addr_bus w)))
              (p - D0_PIN).
Proof.
  intros Hr Hp. apply read_ready_elim in Hr.
  destruct Hr as (Hb & Hi & H28 & H27 & H26). apply bus_pins_elim in Hb.
  destruct Hb as (_ & _ & _ & Ho26 & Ho27 & Ho28).
  unfold pin_level. rewrite (inputs_data _ _ Hi Hp).
  unfold chip_drives, pad. rewrite Ho26, Ho27, Ho28, H26, H27, H28.
  cbn [andb negb]. unfold is_data_pin in Hp. rewrite Hp. reflexivity.
Qed.

Lemma read_ready_after_shift (address : Z) (w : world) (l : list event) :
  read_ready w = true ->
  read_ready (mkWorld (shiftAddress_out address (gpio_out w)) (gpio_oe w)
                (Z.land address (Z.ones 24)) (Z.land address (Z.ones 24))
                (flash w) l) = true.
Proof.
  intros Hr. unfold read_ready in *. proj.
  rewrite !shiftAddress_out_other by discriminate. exact Hr.
Qed.

Lemma readByte_run (address : Z) (w : world) :
  read_ready w = true ->
  EEPROM_readByte address w
  = (Z.land (chip_byte (flash w) address) 255,
     mkWorld (shiftAddress_out address (gpio_out w)) (gpio_oe w)
       (Z.land address (Z.ones 24)) (Z.land address (Z.ones 24)) (flash w)
       (log w ++ readByte_events address (chip_byte (flash w) address))).
Proof.
  intros Hr. unfold EEPROM_readByte, nop.
  rewrite bind_run. fold (exec (shiftAddress address) w).
  rewrite shiftAddress_exec. rewrite bind_run.
  change (snd (emit Nop ?x)) with (exec (emit Nop) x).
  rewrite exec_emit. proj.
  pose proof (read_ready_elim w Hr) as (Hb & _).
  apply bus_pins_elim in Hb. destruct Hb as (Ho2 & Ho3 & Ho4 & _).
  unfold shifted_value. rewrite Ho2, Ho3, Ho4.
  rewrite readByte_loop_run. unfold with_log. proj.
  set (w2 := mkWorld _ _ _ _ _ _).
  assert (Hr2 : read_ready w2 = true)
    by (apply read_ready_after_shift; assumption).
  f_equal.
  - apply read_fold_value. intros p Hp.
    rewrite pin_level_read by assumption. reflexivity.
  - f_equal. unfold readByte_events. rewrite <- !app_assoc.
    do 3 f_equal. apply map_ext_in. intros p Hp.
    rewrite pin_level_read; [reflexivity | assumption |].
    revert Hp. change (rev data_pins)
      with [D7_PIN; D6_PIN; D5_PIN; D4_PIN; D3_PIN; D2_PIN; D1_PIN; D0_PIN].
    cbn [In]. intuition (subst; reflexivity).
Qed.

Lemma readByte_value (address : Z) (w : world) :
  read_ready w = true ->
  fst (EEPROM_readByte address w) = Z.land (chip_byte (flash w) address) 255.
Proof. intros Hr. rewrite readByte_run by assumption. reflexivity. Qed.

Lemma readByte_keeps_ready (address : Z) (w : world) :
  read_ready w = true ->
  read_ready (exec (EEPROM_readByte address) w) = true.
Proof.
  intros Hr. unfold exec. rewrite readByte_run by assumption. cbn [snd].
  apply read_ready_after_shift. assumption.
Qed.

Lemma readByte_flash (address : Z) (w : world) :
  read_ready w = true ->
  flash (exec (EEPROM_readByte address) w) = flash w.
Proof.
  intros Hr. unfold exec. rewrite readByte_run by assumption. reflexivity.
Qed.

(** ** The unlocked byte write *)

Lemma writeByte_log (address data : Z) (w : world) :
  log (exec (EEPROM_writeByte address data) w)
  = log w ++ writeByte_events address data.
Proof.
  unfold EEPROM_writeByte, writeByte_events.
  rewrite !exec_bind, !write_log, <- !app_assoc. reflexivity.
Qed.

Lemma writeByte_exec (address data : Z) (w : world) :
  write_ready w = true ->
  exec (EEPROM_writeByte address data) w
  = mkWorld (writeByte_out address data (gpio_out w)) (gpio_oe w)
      (Z.land address (Z.ones 24)) (Z.land address (Z.ones 24))
      (writeByte_chip (flash w) (chip_address (Z.land address (Z.ones 24)))
                      (Z.land data 255))
      (log w ++ writeByte_events address data).
Proof.
  intros Hr. unfold EEPROM_writeByte.
  pose proof (write_keeps_ready 0x5555 0xAA w Hr) as Hr1.
  pose proof (write_keeps_ready 0x2AAA 0x55 _ Hr1) as Hr2.
  pose proof (write_keeps_ready 0x5555 0xA0 _ Hr2) as Hr3.
  rewrite !exec_bind. rewrite (write_exec address data) by exact Hr3.
  rewrite (write_exec 0x5555 0xA0) by exact Hr2.
  rewrite (write_exec 0x2AAA 0x55) by exact Hr1.
  rewrite (write_exec 0x5555 0xAA) by exact Hr.
  proj. unfold writeByte_out, writeByte_chip, writeByte_events.
  rewrite <- !app_assoc. reflexivity.
Qed.

Lemma writeByte_keeps_ready (address data : Z) (w : world) :
  write_ready w = true ->
  write_ready (exec (EEPROM_writeByte address data) w) = true.
Proof.
  intros Hr. unfold EEPROM_writeByte. rewrite !exec_bind.
  do 4 apply write_keeps_ready. exact Hr.
Qed.

Lemma cycles_chip_cycle (c : chip) (a d : Z) :
  cycles (chip_cycle c a d) = cycles c ++ [(a, d)].
Proof.
  unfold chip_cycle.
  destruct (cmd c); repeat match goal with
                           | |- context [if ?b then _ else _] => destruct b
                           end; reflexivity.
Qed.

Lemma cycles_bus_write (c : chip) (a d : Z) :
  cycles (bus_write c a d) = cycles c ++ [(a, d)].
Proof. unfold bus_write. rewrite cycles_chip_cycle. reflexivity. Qed.

Lemma writeByte_chip_cycles (c : chip) (a d : Z) :
  cycles (writeByte_chip c a d) = cycles c ++ unlock_program ++ [(a, d)].
Proof.
  unfold writeByte_chip. rewrite !cycles_bus_write, <- !app_assoc.
  reflexivity.
Qed.

(** From an idle command decoder the sequence programs the cell. *)
Lemma writeByte_chip_idle (c : chip) (a d : Z) :
  cmd c = Cmd_idle ->
  mem (writeByte_chip c a d) = <[a := d]> (mem c)
  /\ cmd (writeByte_chip c a d) = Cmd_idle.
Proof.
  intros Hc. destruct c as [m s al cy]. cbn [cmd] in Hc. subst s.
  split; reflexivity.
Qed.

Lemma chip_address_small (a : Z) :
  0 <= a < 2 ^ 19 -> chip_address (Z.land a (Z.ones 24)) = a.
Proof.
  intros Ha. unfold chip_address. rewrite !Z.land_ones by lia.
  change (2 ^ 19) with 524288 in *. change (2 ^ 24) with 16777216.
  rewrite (Z.mod_small a 16777216) by lia. apply Z.mod_small. lia.
Qed.

Lemma land_255_small (d : Z) : 0 <= d < 256 -> Z.land d 255 = d.
Proof.
  intros Hd. change 255 with (Z.ones 8). rewrite Z.land_ones by lia.
  apply Z.mod_small. change (2 ^ 8) with 256. lia.
Qed.

Lemma setReadMode_flash (w : world) :
  bus_ready w = true -> flash (exec setReadMode w) = flash w.
Proof. intros Hr. rewrite setReadMode_exec by assumption. reflexivity. Qed.

Lemma mem_read_insert (m : gmap Z Z) (a d : Z) :
  mem_read (<[a := d]> m) a = d.
Proof. unfold mem_read. rewrite lookup_insert_eq. reflexivity. Qed.

Lemma mem_read_insert_ne (m : gmap Z Z) (a a' d : Z) :
  a <> a' -> mem_read (<[a := d]> m) a' = mem_read m a'.
Proof.
  intros Hne. unfold mem_read. rewrite lookup_insert_ne by assumption.
  reflexivity.
Qed.

(** C1: in write mode with the chip's command decoder idle, the unlocked
    byte write of [b] to an address [a] below 2^19, followed by the switch to
    read mode and a read of [a], returns exactly [b]. *)
Theorem C1_write_then_read (w : world) (a b : Z) :
  write_ready w = true -> cmd (flash w) = Cmd_idle ->
  0 <= a < 2 ^ 19 -> 0 <= b <= 255 ->
  fst (EEPROM_readByte a (exec setReadMode (exec (EEPROM_writeByte a b) w)))
  = b.
Proof.
  intros Hr Hidle Ha Hb.
  pose proof (writeByte_keeps_ready a b w Hr) as Hr1.
  apply write_ready_bus_ready in Hr1.
  rewrite readByte_value by (apply setReadMode_ready; exact Hr1).
  rewrite setReadMode_flash by exact Hr1.
  rewrite writeByte_exec by exact Hr. proj.
  unfold chip_byte.
  destruct (writeByte_chip_idle (flash w)
              (chip_address (Z.land a (Z.ones 24))) (Z.land b 255) Hidle)
    as [Hm _].
  rewrite Hm, mem_read_insert.
  rewrite !(land_255_small b) by lia. reflexivity.
Qed.

Lemma C1_witness :
  write_ready (exec setWriteMode (ready ∅)) = true
  /\ fst (EEPROM_readByte 0x12345
            (exec setReadMode
               (exec (EEPROM_writeByte 0x12345 0xA7)
                     (exec setWriteMode (ready ∅))))) = 0xA7.
Proof.
  split; [vm_compute; reflexivity|].
  apply (C1_write_then_read (exec setWriteMode (ready ∅)) 0x12345 0xA7);
    [vm_compute; reflexivity | vm_compute; reflexivity | lia | lia].
Defined.

(** C3: the unlocked byte write consists of exactly four bus write cycles and
    nothing else, in this order: (0x5555, 0xAA), (0x2AAA, 0x55),
    (0x5555, 0xA0), then (addr, data).  The log gains the pin operations of
    these four cycles back to back, and the chip sees these four cycles. *)
Theorem C3_writeByte_four_bus_writes (w : world) (addr data : Z) :
  write_ready w = true -> 0 <= addr < 2 ^ 19 -> 0 <= data <= 255 ->
  log (exec (EEPROM_writeByte addr data) w)
  = log w ++ write_events 0x5555 0xAA ++ write_events 0x2AAA 0x55
          ++ write_events 0x5555 0xA0 ++ write_events addr data
  /\ cycles (flash (exec (EEPROM_writeByte addr data) w))
     = cycles (flash w)
       ++ [(0x5555, 0xAA); (0x2AAA, 0x55); (0x5555, 0xA0); (addr, data)].
Proof.
  intros Hr Ha Hd. split; [apply writeByte_log|].
  rewrite writeByte_exec by assumption. proj.
  rewrite writeByte_chip_cycles, chip_address_small by assumption.
  rewrite land_255_small by lia. reflexivity.
Qed.

Lemma C3_witness :
  write_ready (exec setWriteMode (ready ∅)) = true
  /\ cycles (flash (exec (EEPROM_writeByte 0x7FFFF 0x3C)
                         (exec setWriteMode (ready ∅))))
     = cycles (flash (exec setWriteMode (ready ∅)))
       ++ [(0x5555, 0xAA); (0x2AAA, 0x55); (0x5555, 0xA0); (0x7FFFF, 0x3C)].
Proof.
  split; [vm_compute; reflexivity|].
  apply (C3_writeByte_four_bus_writes
           (exec setWriteMode (ready ∅)) 0x7FFFF 0x3C);
    [vm_compute; reflexivity | lia | lia].
Defined.

(** ** Counting pulses in a frame *)

Lemma clock_pulses_bits (bits : list bool) :
  clock_pulses (flat_map pulse bits) = length bits.
Proof.
  unfold clock_pulses. induction bits as [|b bits IH]; [reflexivity|].
  cbn [flat_map]. rewrite List.filter_app, length_app, IH.
  destruct b; reflexivity.
Qed.

Lemma latch_pulses_bits (bits : list bool) :
  latch_pulses (flat_map pulse bits) = 0%nat.
Proof.
  unfold latch_pulses. induction bits as [|b bits IH]; [reflexivity|].
  cbn [flat_map]. rewrite List.filter_app, length_app, IH.
  destruct b; reflexivity.
Qed.

Lemma serial_frame_pulses (bits : list bool) :
  clock_pulses (serial_frame bits) = length bits
  /\ latch_pulses (serial_frame bits) = 1%nat.
Proof.
  unfold serial_frame. split.
  - unfold clock_pulses. rewrite !List.filter_app, !length_app.
    fold (clock_pulses (flat_map pulse bits)). rewrite clock_pulses_bits.
    cbn. lia.
  - unfold latch_pulses. rewrite !List.filter_app, !length_app.
    fold (latch_pulses (flat_map pulse bits)). rewrite latch_pulses_bits.
    reflexivity.
Qed.

Lemma length_addr_bits (n : nat) (addr : Z) : length (addr_bits n addr) = n.
Proof. unfold addr_bits. rewrite length_map. apply length_seq. Qed.

Lemma shifted_value_twice (oe addr sr : Z) :
  shifted_value oe addr (shifted_value oe addr sr) = shifted_value oe addr sr.
Proof.
  unfold shifted_value. destruct (Z.testbit oe CLOCK_PIN_NUMBER); reflexivity.
Qed.

(** C7: [shiftAddress addr] sends bit 0 of [addr] first, one bit per clock
    pulse, [ADDRESS_LINES] clock pulses in all, then exactly one latch pulse;
    for address 0 every bit sent is 0, for address 2^19 - 1 the first 19 bits
    sent (the 19 address bits) are all 1; sending the same address a second
    time leaves the chain and its latched outputs as the first time. *)
Theorem C7_shiftAddress_frame (addr : Z) (w : world) :
  log (exec (shiftAddress addr) w)
  = log w ++ serial_frame (addr_bits (Z.to_nat ADDRESS_LINES) addr)
  /\ clock_pulses (serial_frame (addr_bits (Z.to_nat ADDRESS_LINES) addr))
     = Z.to_nat ADDRESS_LINES
  /\ latch_pulses (serial_frame (addr_bits (Z.to_nat ADDRESS_LINES) addr))
     = 1%nat
  /\ addr_bits (Z.to_nat ADDRESS_LINES) 0
     = replicate (Z.to_nat ADDRESS_LINES) false
  /\ take 19 (addr_bits (Z.to_nat ADDRESS_LINES) (2 ^ 19 - 1))
     = replicate 19 true
  /\ addr_bus (exec (shiftAddress addr) (exec (shiftAddress addr) w))
     = addr_bus (exec (shiftAddress addr) w)
  /\ shift_reg (exec (shiftAddress addr) (exec (shiftAddress addr) w))
     = shift_reg (exec (shiftAddress addr) w).
Proof.
  split; [apply shiftAddress_log|].
  destruct (serial_frame_pulses (addr_bits (Z.to_nat ADDRESS_LINES) addr))
    as [Hc Hl].
  rewrite length_addr_bits in Hc.
  repeat split; try assumption; try reflexivity.
  - rewrite !shiftAddress_exec. proj. rewrite shifted_value_twice.
    destruct (Z.testbit (gpio_oe w) LATCH_PIN_NUMBER); reflexivity.
  - rewrite !shiftAddress_exec. proj. apply shifted_value_twice.
Qed.

(** With the shift-register pins configured as outputs the latched outputs
    carry the address itself. *)
Lemma shiftAddress_latched (addr : Z) (w : world) :
  outputs (gpio_oe w) bus_pins = true -> 0 <= addr < 2 ^ 19 ->
  addr_bus (exec (shiftAddress addr) w) = addr.
Proof.
  intros Hb Ha. apply bus_pins_elim in Hb.
  destruct Hb as (Ho2 & Ho3 & Ho4 & _).
  rewrite shiftAddress_exec. proj. unfold shifted_value.
  rewrite Ho2, Ho3, Ho4. rewrite Z.land_ones by lia.
  change (2 ^ 19) with 524288 in Ha. change (2 ^ 24) with 16777216.
  apply Z.mod_small. lia.
Qed.

(** ** Only the low 24 bits of an address matter *)

Lemma shift_loop_low_bits (n : nat) : forall (a a' : Z) (w : world),
  (forall i, 0 <= i < Z.of_nat n -> Z.testbit a i = Z.testbit a' i) ->
  shift_loop n a w = shift_loop n a' w.
Proof.
  induction n as [|n IH]; intros a a' w Hbits; [reflexivity|].
  cbn [shift_loop]. rewrite !lsb_test, !put_bool.
  rewrite (Hbits 0) by lia.
  rewrite !bind_run. apply IH.
  intros i Hi. rewrite !Z.shiftr_spec by lia. apply Hbits. lia.
Qed.

Lemma shiftAddress_mod (a : Z) (w : world) :
  shiftAddress a w = shiftAddress (a mod 2 ^ 24) w.
Proof.
  unfold shiftAddress. rewrite !bind_run.
  rewrite (shift_loop_low_bits (Z.to_nat ADDRESS_LINES) a (a mod 2 ^ 24)).
  - reflexivity.
  - intros i Hi. change (Z.of_nat (Z.to_nat ADDRESS_LINES)) with 24 in Hi.
    rewrite <- Z.land_ones by lia. rewrite Z.land_spec.
    rewrite Z.ones_spec_low by lia. symmetry. apply andb_true_r.
Qed.

Corollary shiftAddress_congruent (a b : Z) (w : world) :
  a mod 2 ^ 24 = b mod 2 ^ 24 -> shiftAddress a w = shiftAddress b w.
Proof.
  intros H. rewrite (shiftAddress_mod a), (shiftAddress_mod b), H.
  reflexivity.
Qed.

(** C10: [shiftAddress] depends only on the low 24 bits of its argument: the
    whole run on [a] (the log of pin operations, the pins, the chain and its
    latched outputs) coincides with the run on [a mod 2^24]. *)
Theorem C10_shiftAddress_low24 (a : Z) (w : world) :
  shiftAddress a w = shiftAddress (a mod 2 ^ 24) w
  /\ log (exec (shiftAddress a) w) = log (exec (shiftAddress (a mod 2 ^ 24)) w)
  /\ addr_bus (exec (shiftAddress a) w)
     = addr_bus (exec (shiftAddress (a mod 2 ^ 24)) w).
Proof.
  unfold exec. rewrite <- shiftAddress_mod. repeat split.
Qed.

(** ** Chip erase *)

Lemma setWriteMode_log (w : world) :
  log (exec setWriteMode w) = log w ++ setWriteMode_events.
Proof.
  unfold setWriteMode, setWriteMode_events, sleep_ms.
  rewrite !exec_bind. autorewrite with logs.
  rewrite setWriteMode_loop_exec by reflexivity. proj.
  rewrite <- !app_assoc. reflexivity.
Qed.

Lemma oled_log (m1 m2 m3 m4 m5 : string) (w : world) :
  log (exec (oledDisplayMessages m1 m2 m3 m4 m5) w)
  = log w ++ [Oled m1 m2 m3 m4 m5].
Proof. reflexivity. Qed.

Lemma flash_emit (e : event) (w : world) : flash (exec (emit e) w) = flash w.
Proof. reflexivity. Qed.

Lemma oled_flash (m1 m2 m3 m4 m5 : string) (w : world) :
  flash (exec (oledDisplayMessages m1 m2 m3 m4 m5) w) = flash w.
Proof. reflexivity. Qed.

#[local] Hint Rewrite write_log setWriteMode_log oled_log : logs.

Lemma oled_bus_ready (m1 m2 m3 m4 m5 : string) (w : world) :
  bus_ready (exec (oledDisplayMessages m1 m2 m3 m4 m5) w) = bus_ready w.
Proof. reflexivity. Qed.

Lemma write_flash (address data : Z) (w : world) :
  write_ready w = true ->
  flash (exec (write address data) w)
  = bus_write (flash w) (chip_address (Z.land address (Z.ones 24)))
              (Z.land data 255).
Proof. intros Hr. rewrite write_exec by assumption. reflexivity. Qed.

Lemma chipErase_flash (w : world) :
  bus_ready w = true ->
  flash (exec EEPROM_chipErase w) = chipErase_chip (flash w).
Proof.
  intros Hb. unfold EEPROM_chipErase, printf, sleep_ms.
  rewrite <- (oled_bus_ready "Erasing" "EEPROM" "now..." "" "") in Hb.
  pose proof (setWriteMode_ready _ Hb) as Hr0.
  pose proof (write_keeps_ready 0x5555 0xAA _ Hr0) as Hr1.
  pose proof (write_keeps_ready 0x2AAA 0x55 _ Hr1) as Hr2.
  pose proof (write_keeps_ready 0x5555 0x80 _ Hr2) as Hr3.
  pose proof (write_keeps_ready 0x5555 0xAA _ Hr3) as Hr4.
  pose proof (write_keeps_ready 0x2AAA 0x55 _ Hr4) as Hr5.
  rewrite !exec_bind.
  rewrite !flash_emit, oled_flash, flash_emit.
  rewrite (write_flash 0x5555 0x10) by exact Hr5.
  rewrite (write_flash 0x2AAA 0x55) by exact Hr4.
  rewrite (write_flash 0x5555 0xAA) by exact Hr3.
  rewrite (write_flash 0x5555 0x80) by exact Hr2.
  rewrite (write_flash 0x2AAA 0x55) by exact Hr1.
  rewrite (write_flash 0x5555 0xAA) by exact Hr0.
  rewrite setWriteMode_exec by exact Hb. proj.
  rewrite oled_flash.
  rewrite !chip_address_small, !land_255_small
    by (change (2 ^ 19) with 524288; lia).
  unfold chipErase_chip. reflexivity.
Qed.

Lemma chipErase_log (w : world) :
  log (exec EEPROM_chipErase w) = log w ++ chipErase_events.
Proof.
  unfold EEPROM_chipErase, chipErase_events, printf, sleep_ms.
  rewrite !exec_bind. autorewrite with logs.
  cbn [flat_map erase_sequence fst snd]. rewrite <- !app_assoc.
  reflexivity.
Qed.

(** C4: chip erase issues exactly the six write cycles (0x5555, 0xAA),
    (0x2AAA, 0x55), (0x5555, 0x80), (0x5555, 0xAA), (0x2AAA, 0x55),
    (0x5555, 0x10) in this order with nothing in between, and after the
    sixth only prints, shows a message and sleeps 1000 ms, which is at least
    the device's chip-erase time. *)
Theorem C4_chipErase_sequence (w : world) :
  bus_ready w = true ->
  log (exec EEPROM_chipErase w)
  = log w ++ [Oled "Erasing" "EEPROM" "now..." "" ""] ++ setWriteMode_events
          ++ flat_map (fun p => write_events (fst p) (snd p)) erase_sequence
          ++ [Printf (String.append "Chip erase complete!" LF);
              Oled "EEPROM" "erase" "complete!" "Waiting" "1 second.";
              Sleep_ms 1000]
  /\ cycles (flash (exec EEPROM_chipErase w))
     = cycles (flash w) ++ erase_sequence
  /\ chip_erase_time_ms <= 1000.
Proof.
  intros Hb. split; [apply chipErase_log|]. split; [|discriminate].
  rewrite chipErase_flash by assumption. unfold chipErase_chip.
  rewrite !cycles_bus_write, <- !app_assoc. reflexivity.
Qed.

Lemma C4_witness :
  bus_ready (ready ∅) = true
  /\ cycles (flash (exec EEPROM_chipErase (ready ∅)))
     = cycles (flash (ready ∅)) ++ erase_sequence.
Proof.
  split; [vm_compute; reflexivity|].
  refine (proj1 (proj2 (C4_chipErase_sequence (ready ∅) _))).
  vm_compute; reflexivity.
Defined.

(** From an idle command decoder the sequence erases every cell. *)
Lemma chipErase_erases (w : world) :
  bus_ready w = true -> cmd (flash w) = Cmd_idle ->
  mem (flash (exec EEPROM_chipErase w)) = ∅
  /\ cmd (flash (exec EEPROM_chipErase w)) = Cmd_idle.
Proof.
  intros Hb Hc. rewrite chipErase_flash by assumption.
  destruct (flash w) as [m s al cy]. cbn [cmd] in Hc. subst s.
  split; reflexivity.
Qed.

(** ** Comparing chip bytes with expected bytes *)

Lemma check_byte_run (address expected errors : Z) (w : world) :
  read_ready w = true ->
  check_byte address expected errors w
  = (if differs (flash w) address expected then errors + 1 else errors,
     mkWorld (shiftAddress_out address (gpio_out w)) (gpio_oe w)
       (Z.land address (Z.ones 24)) (Z.land address (Z.ones 24)) (flash w)
       (log w ++ check_events (flash w) address expected)).
Proof.
  intros Hr. unfold check_byte. rewrite bind_run.
  rewrite readByte_run by assumption. cbn [fst snd].
  unfold check_events, differs, read_back, handleByteMismatch, sleep_ms.
  destruct (negb (Z.land (chip_byte (flash w) address) 255 =? expected)).
  - rewrite !bind_run. cbn [fst snd emit ret]. proj.
    rewrite <- !app_assoc. reflexivity.
  - cbn [ret]. rewrite app_nil_r. reflexivity.
Qed.

Lemma verify_chunk_scan (buffer : list byte) :
  forall (address errors : Z) (w : world),
  verify_chunk buffer address errors w
  = scan (map byte_val buffer) address errors w.
Proof.
  induction buffer as [|b rest IH]; intros address errors w; [reflexivity|].
  cbn [verify_chunk map scan]. rewrite !bind_run. apply IH.
Qed.

Lemma verifyErased_loop_scan (n : nat) :
  forall (address errors : Z) (w : world),
  verifyErased_loop n address errors w
  = scan (replicate n 255) address errors w.
Proof.
  induction n as [|n IH]; intros address errors w; [reflexivity|].
  cbn [verifyErased_loop replicate scan]. rewrite !bind_run. apply IH.
Qed.

Lemma addr_after_S (n : nat) (address : Z) :
  addr_after (S n) address = addr_after n (incr32 address).
Proof. unfold addr_after. apply Nat.iter_succ_r. Qed.

Lemma scan_run (expected : list Z) :
  forall (address errors : Z) (w : world),
  read_ready w = true ->
  fst (scan expected address errors w)
  = (addr_after (length expected) address,
     errors + Z.of_nat (length (mismatches (flash w) expected address)))
  /\ read_ready (exec (scan expected address errors) w) = true
  /\ flash (exec (scan expected address errors) w) = flash w
  /\ log (exec (scan expected address errors) w)
     = log w ++ scan_events (flash w) expected address.
Proof.
  induction expected as [|e rest IH]; intros address errors w Hr.
  - cbn. rewrite Z.add_0_r, app_nil_r. auto.
  - unfold exec. cbn [scan]. rewrite bind_run.
    rewrite check_byte_run by assumption. cbn [fst snd].
    set (w1 := mkWorld _ _ _ _ _ _).
    assert (Hr1 : read_ready w1 = true)
      by (apply read_ready_after_shift; assumption).
    destruct (IH (incr32 address)
                (if differs (flash w) address e then errors + 1 else errors)
                w1 Hr1) as (Hv & Hrr & Hf & Hl).
    unfold exec in *.
    cbn [length mismatches scan_events]. rewrite addr_after_S.
    rewrite Hv, Hl. change (flash w1) with (flash w) in *.
    change (log w1) with (log w ++ check_events (flash w) address e).
    repeat split; try assumption.
    + f_equal. rewrite length_app.
      destruct (differs (flash w) address e); cbn [length]; lia.
    + rewrite <- app_assoc. reflexivity.
Qed.

Lemma incr32_small (a : Z) : 0 <= a -> a + 1 < 2 ^ 32 -> incr32 a = a + 1.
Proof. intros H0 H1. unfold incr32. apply Z.mod_small. lia. Qed.

Lemma addr_after_small (n : nat) : forall a : Z,
  0 <= a -> a + Z.of_nat n < 2 ^ 32 -> addr_after n a = a + Z.of_nat n.
Proof.
  induction n as [|n IH]; intros a H0 H1.
  - unfold addr_after. cbn. lia.
  - rewrite addr_after_S, incr32_small by lia. rewrite IH by lia. lia.
Qed.

Lemma seqZ_S (a : Z) (n : nat) :
  seqZ a (Z.of_nat (S n)) = a :: seqZ (a + 1) (Z.of_nat n).
Proof.
  rewrite seqZ_cons by lia. f_equal. f_equal; lia.
Qed.

(** Against a constant expected byte, without wrap-around of the cursor, the
    scan visits the addresses [a, a+1, ..., a+n-1] in this order. *)
Lemma scan_events_const (c : chip) (e : Z) (n : nat) : forall a : Z,
  0 <= a -> a + Z.of_nat n < 2 ^ 32 ->
  scan_events c (replicate n e) a
  = flat_map (fun x => check_events c x e) (seqZ a (Z.of_nat n)).
Proof.
  induction n as [|n IH]; intros a H0 H1; [reflexivity|].
  rewrite seqZ_S. cbn [replicate scan_events flat_map].
  rewrite incr32_small by lia. rewrite IH by lia. reflexivity.
Qed.

Lemma mismatches_const (c : chip) (e : Z) (n : nat) : forall a : Z,
  0 <= a -> a + Z.of_nat n < 2 ^ 32 ->
  length (mismatches c (replicate n e) a)
  = length (List.filter (fun x => differs c x e) (seqZ a (Z.of_nat n))).
Proof.
  induction n as [|n IH]; intros a H0 H1; [reflexivity|].
  rewrite seqZ_S. cbn [replicate mismatches List.filter].
  rewrite length_app, incr32_small by lia. rewrite IH by lia.
  destruct (differs c a e); reflexivity.
Qed.

Lemma oled_exec (m1 m2 m3 m4 m5 : string) (w : world) :
  exec (oledDisplayMessages m1 m2 m3 m4 m5) w
  = with_log w (log w ++ [Oled m1 m2 m3 m4 m5]).
Proof. reflexivity. Qed.

Lemma bus_ready_with_log (w : world) (l : list event) :
  bus_ready (with_log w l) = bus_ready w.
Proof. reflexivity. Qed.

(** C6: erase-verify enters read mode and then reads the addresses
    0, 1, ..., 2^19 - 1, each once and in this order, expecting 0xFF; a
    mismatch is reported and the scan goes on; the final cursor is 2^19 and
    the final error count is the number of addresses whose byte is not
    0xFF. *)
Theorem C6_verifyErased_scan (w : world) :
  bus_ready w = true ->
  fst (EEPROM_VerifyErased w)
  = (MAX_EEPROM_ADDRESS_SPACE, not_erased (flash w))
  /\ log (exec EEPROM_VerifyErased w)
     = log w ++ [Oled "Verifying" "EEPROM is" "erased now..." "" ""]
       ++ setReadMode_events (gpio_oe w)
       ++ flat_map (fun a => check_events (flash w) a 255)
                   (seqZ 0 MAX_EEPROM_ADDRESS_SPACE)
       ++ [Report_done "Done reading EEPROM!" MAX_EEPROM_ADDRESS_SPACE
                       (Some (not_erased (flash w)))].
Proof.
  intros Hb. unfold EEPROM_VerifyErased, not_erased.
  assert (Hn : Z.of_nat (Z.to_nat MAX_EEPROM_ADDRESS_SPACE)
               = MAX_EEPROM_ADDRESS_SPACE) by (apply Z2Nat.id; discriminate).
  assert (Hmax : MAX_EEPROM_ADDRESS_SPACE < 2 ^ 32) by reflexivity.
  generalize dependent (Z.to_nat MAX_EEPROM_ADDRESS_SPACE). intros n Hn.
  set (w0 := exec (oledDisplayMessages "Verifying" "EEPROM is"
                     "erased now..." "" "") w).
  assert (Hb0 : bus_ready w0 = true) by exact Hb.
  pose proof (setReadMode_ready w0 Hb0) as Hr.
  destruct (scan_run (replicate n 255) 0 0 (exec setReadMode w0) Hr)
    as (Hv & _ & _ & Hl).
  rewrite setReadMode_flash in Hv, Hl by exact Hb0.
  change (flash w0) with (flash w) in Hv, Hl.
  rewrite mismatches_const in Hv by lia.
  rewrite scan_events_const in Hl by lia.
  rewrite length_replicate, addr_after_small in Hv by lia.
  rewrite Hn in Hv, Hl. cbn [Z.add] in Hv.
  unfold exec in *.
  rewrite !bind_run. fold w0.
  change (snd (oledDisplayMessages "Verifying" "EEPROM is" "erased now..."
                 "" "" w)) with w0.
  rewrite verifyErased_loop_scan. rewrite Hv. cbn [fst snd emit ret].
  split; [reflexivity|]. proj. rewrite Hl.
  fold (exec setReadMode w0). rewrite setReadMode_exec by exact Hb0. proj.
  change (gpio_oe w0) with (gpio_oe w).
  change (log w0)
    with (log w ++ [Oled "Verifying" "EEPROM is" "erased now..." "" ""]).
  rewrite <- !app_assoc. reflexivity.
Qed.

Lemma C6_witness :
  bus_ready (ready ∅) = true
  /\ fst (EEPROM_VerifyErased (ready ∅))
     = (MAX_EEPROM_ADDRESS_SPACE, not_erased (flash (ready ∅))).
Proof.
  split; [vm_compute; reflexivity|].
  refine (proj1 (C6_verifyErased_scan (ready ∅) _)). vm_compute; reflexivity.
Defined.

(** ** Observations on the log *)

Lemma filter_none {A} (f g : A -> bool) (l : list A) :
  forallb g l = true -> (forall x, g x = true -> f x = false) ->
  List.filter f l = [].
Proof.
  intros Hall Hfg. induction l as [|x l IH]; [reflexivity|].
  cbn [forallb] in Hall. apply andb_true_iff in Hall. destruct Hall as [Hx Hl].
  cbn [List.filter]. rewrite (Hfg x Hx). apply IH, Hl.
Qed.

Lemma forallb_flat_map {A B} (g : B -> bool) (f : A -> list B) (l : list A) :
  (forall x, forallb g (f x) = true) -> forallb g (flat_map f l) = true.
Proof.
  intros H. induction l as [|x l IH]; [reflexivity|].
  cbn [flat_map]. rewrite forallb_app, H, IH. reflexivity.
Qed.

Lemma serial_frame_pin_events (bits : list bool) :
  forallb is_pin_event (serial_frame bits) = true.
Proof.
  unfold serial_frame. rewrite !forallb_app.
  rewrite forallb_flat_map by (intros b; reflexivity). reflexivity.
Qed.

Lemma readByte_events_pin_events (address v : Z) :
  forallb is_pin_event (readByte_events address v) = true.
Proof.
  unfold readByte_events. rewrite !forallb_app, serial_frame_pin_events.
  reflexivity.
Qed.

Lemma setDataPins_events_pin_events (pins : list Z) : forall b : Z,
  forallb is_pin_event (setDataPins_events pins b) = true.
Proof.
  induction pins as [|p rest IH]; intros b; [reflexivity|].
  cbn [setDataPins_events forallb]. apply IH.
Qed.

Lemma write_events_pin_events (address data : Z) :
  forallb is_pin_event (write_events address data) = true.
Proof.
  unfold write_events.
  rewrite !forallb_app, serial_frame_pin_events,
    setDataPins_events_pin_events.
  reflexivity.
Qed.

Lemma pin_event_not_request (e : event) :
  is_pin_event e = true -> is_request e = false.
Proof. destruct e; (reflexivity || discriminate). Qed.

Lemma pin_event_not_report (e : event) :
  is_pin_event e = true -> is_report e = false.
Proof. destruct e; (reflexivity || discriminate). Qed.

Lemma requests_app (l1 l2 : list event) :
  requests (l1 ++ l2) = requests l1 ++ requests l2.
Proof. apply List.filter_app. Qed.

Lemma reports_app (l1 l2 : list event) :
  reports (l1 ++ l2) = reports l1 ++ reports l2.
Proof. apply List.filter_app. Qed.

Lemma check_events_requests (c : chip) (a e : Z) :
  requests (check_events c a e) = [].
Proof.
  unfold check_events. rewrite requests_app.
  unfold requests at 1.
  rewrite (filter_none _ _ _ (readByte_events_pin_events _ _)
             pin_event_not_request).
  destruct (differs c a e); reflexivity.
Qed.

Lemma check_events_reports (c : chip) (a e : Z) :
  reports (check_events c a e)
  = if differs c a e then [Report_mismatch a e (read_back c a)] else [].
Proof.
  unfold check_events. rewrite reports_app.
  unfold reports at 1.
  rewrite (filter_none _ _ _ (readByte_events_pin_events _ _)
             pin_event_not_report).
  destruct (differs c a e); reflexivity.
Qed.

Lemma scan_events_requests (c : chip) (expected : list Z) : forall a : Z,
  requests (scan_events c expected a) = [].
Proof.
  induction expected as [|e rest IH]; intros a; [reflexivity|].
  cbn [scan_events]. rewrite requests_app, check_events_requests, IH.
  reflexivity.
Qed.

Lemma scan_events_reports (c : chip) (expected : list Z) : forall a : Z,
  reports (scan_events c expected a)
  = map report_of (mismatches c expected a).
Proof.
  induction expected as [|e rest IH]; intros a; [reflexivity|].
  cbn [scan_events mismatches].
  rewrite reports_app, check_events_reports, IH, map_app.
  destruct (differs c a e); reflexivity.
Qed.

(** ** Reading the file chunk by chunk *)

Lemma chunk_size_pos : (0 < chunk_size)%nat.
Proof. unfold chunk_size, BUFFER_SIZE. lia. Qed.

Lemma chunk_size_Z : Z.of_nat chunk_size = BUFFER_SIZE.
Proof. unfold chunk_size. apply Z2Nat.id. discriminate. Qed.

Lemma f_read_healthy (fil : FIL) :
  fgood fil = None ->
  f_read fil BUFFER_SIZE
  = (true, take chunk_size (remaining fil),
     mkFIL (fdata fil) (fptr fil + length (take chunk_size (remaining fil)))
           None).
Proof. intros Hg. unfold f_read. rewrite Hg. reflexivity. Qed.

Lemma remaining_advance (data : list byte) (p : nat) :
  remaining (mkFIL data (p + length (take chunk_size (drop p data))) None)
  = drop chunk_size (drop p data).
Proof.
  unfold remaining. cbn [fptr fdata]. rewrite drop_drop.
  rewrite length_take.
  destruct (Nat.le_gt_cases chunk_size (length (drop p data))) as [Hle|Hgt].
  - rewrite Nat.min_l by assumption. reflexivity.
  - rewrite Nat.min_r by lia. rewrite length_drop in *.
    rewrite !drop_ge by lia. reflexivity.
Qed.

Lemma chunk_requests_short (n : nat) :
  (n < chunk_size)%nat ->
  chunk_requests n = [F_read BUFFER_SIZE true (Z.of_nat n)].
Proof.
  intros Hn. unfold chunk_requests.
  rewrite Nat.div_small, Nat.mod_small by assumption. reflexivity.
Qed.

Lemma chunk_requests_full (n : nat) :
  (chunk_size <= n)%nat ->
  chunk_requests n
  = F_read BUFFER_SIZE true BUFFER_SIZE :: chunk_requests (n - chunk_size).
Proof.
  intros Hn. unfold chunk_requests.
  pose proof chunk_size_pos as Hpos.
  replace n with ((n - chunk_size) + 1 * chunk_size)%nat at 1 2 by lia.
  rewrite Nat.div_add, Nat.Div0.mod_add by lia.
  rewrite Nat.add_1_r. reflexivity.
Qed.

Lemma div_chunk_step (n fuel : nat) :
  (chunk_size <= n)%nat -> (n / chunk_size < S fuel)%nat ->
  ((n - chunk_size) / chunk_size < fuel)%nat.
Proof.
  intros Hn Hf. pose proof chunk_size_pos as Hpos.
  replace n with ((n - chunk_size) + 1 * chunk_size)%nat in Hf by lia.
  rewrite Nat.div_add in Hf by lia. lia.
Qed.

Lemma addr_after_add (n m : nat) (a : Z) :
  addr_after (n + m) a = addr_after m (addr_after n a).
Proof.
  unfold addr_after. rewrite Nat.add_comm. apply Nat.iter_add.
Qed.

Lemma mismatches_app (c : chip) (l1 l2 : list Z) : forall a : Z,
  mismatches c (l1 ++ l2) a
  = mismatches c l1 a ++ mismatches c l2 (addr_after (length l1) a).
Proof.
  induction l1 as [|e l1 IH]; intros a; [reflexivity|].
  cbn [app mismatches length]. rewrite addr_after_S, IH, <- app_assoc.
  reflexivity.
Qed.

Lemma verify_file_loop_S (fuel : nat) (fil : FIL) (address errors : Z)
      (w : world) :
  fgood fil = None ->
  verify_file_loop (S fuel) fil address errors w
  = let chunk := take chunk_size (remaining fil) in
    let r := verify_chunk chunk address errors
               (exec (emit (F_read BUFFER_SIZE true
                                   (Z.of_nat (length chunk)))) w) in
    if Z.of_nat (length chunk) <? BUFFER_SIZE then (Some (fst r), snd r)
    else verify_file_loop fuel
           (mkFIL (fdata fil) (fptr fil + length chunk) None)
           (fst (fst r)) (snd (fst r)) (snd r).
Proof.
  intros Hg. cbn [verify_file_loop]. rewrite f_read_healthy by assumption.
  cbv zeta. rewrite !bind_run. cbn [fst].
  destruct (Z.of_nat (length (take chunk_size (remaining fil)))
            <? BUFFER_SIZE).
  - unfold ret, exec. destruct (verify_chunk _ _ _ _); reflexivity.
  - reflexivity.
Qed.

Lemma verify_file_loop_run (fuel : nat) :
  forall (fil : FIL) (address errors : Z) (w : world),
  fgood fil = None -> read_ready w = true ->
  (length (remaining fil) / chunk_size < fuel)%nat ->
  fst (verify_file_loop fuel fil address errors w)
  = Some (addr_after (length (remaining fil)) address,
          errors + Z.of_nat (length (mismatches (flash w)
                                       (map byte_val (remaining fil))
                                       address)))
  /\ flash (exec (verify_file_loop fuel fil address errors) w) = flash w
  /\ reports (log (exec (verify_file_loop fuel fil address errors) w))
     = reports (log w)
       ++ map report_of (mismatches (flash w) (map byte_val (remaining fil))
                                    address)
  /\ requests (log (exec (verify_file_loop fuel fil address errors) w))
     = requests (log w) ++ chunk_requests (length (remaining fil)).
Proof.
  induction fuel as [|fuel IH]; intros fil address errors w Hg Hr Hfuel;
    [lia|].
  unfold exec. rewrite verify_file_loop_S by assumption. cbv zeta.
  set (chunk := take chunk_size (remaining fil)).
  set (w1 := exec (emit (F_read BUFFER_SIZE true (Z.of_nat (length chunk)))) w).
  assert (Hr1 : read_ready w1 = true) by exact Hr.
  rewrite verify_chunk_scan.
  destruct (scan_run (map byte_val chunk) address errors w1 Hr1)
    as (Hv & Hrr & Hf & Hl).
  change (flash w1) with (flash w) in Hv, Hf, Hl.
  change (log w1)
    with (log w ++ [F_read BUFFER_SIZE true (Z.of_nat (length chunk))]) in Hl.
  unfold exec in Hrr, Hf, Hl. rewrite length_map in Hv.
  pose proof chunk_size_Z as HcZ.
  assert (Hlen : length chunk = Nat.min chunk_size (length (remaining fil)))
    by apply length_take.
  destruct (Z.ltb_spec (Z.of_nat (length chunk)) BUFFER_SIZE) as [Hlt|Hge].
  - assert (Hshort : (length (remaining fil) < chunk_size)%nat) by lia.
    assert (Hall : chunk = remaining fil)
      by (apply take_ge; lia).
    cbn [fst snd]. rewrite Hv, Hf, Hl.
    rewrite chunk_requests_short by assumption.
    rewrite !reports_app, !requests_app, scan_events_reports,
      scan_events_requests.
    rewrite Hall.
    cbn [reports requests List.filter is_report is_request].
    rewrite !app_nil_r. auto.
  - assert (Hfull : (chunk_size <= length (remaining fil))%nat) by lia.
    assert (Hc : length chunk = chunk_size) by lia.
    set (fil' := mkFIL (fdata fil) (fptr fil + length chunk) None).
    assert (Hrem' : remaining fil' = drop chunk_size (remaining fil))
      by apply remaining_advance.
    assert (Hsplit : remaining fil = chunk ++ remaining fil')
      by (rewrite Hrem'; symmetry; apply take_drop).
    assert (Hlen' : length (remaining fil')
                    = (length (remaining fil) - chunk_size)%nat)
      by (rewrite Hrem'; apply length_drop).
    rewrite Hv. cbn [fst snd].
    destruct (IH fil' (addr_after (length chunk) address)
                (errors + Z.of_nat (length (mismatches (flash w)
                                              (map byte_val chunk) address)))
                (snd (scan (map byte_val chunk) address errors w1))
                eq_refl Hrr)
      as (Hv2 & Hf2 & Hrep2 & Hreq2).
    { rewrite Hlen'. apply div_chunk_step; assumption. }
    unfold exec in Hf2, Hrep2, Hreq2.
    rewrite Hv2, Hf2, Hrep2, Hreq2, Hf, Hl.
    rewrite (chunk_requests_full (length (remaining fil))) by assumption.
    rewrite <- Hlen'.
    rewrite !reports_app, !requests_app, scan_events_reports,
      scan_events_requests.
    rewrite Hsplit at 1 2 3. rewrite map_app, mismatches_app, length_map.
    rewrite length_app, addr_after_add, map_app, !length_app.
    rewrite Hc, HcZ. cbn [reports requests List.filter is_report is_request].
    rewrite !app_nil_r, <- !app_assoc. cbn [app].
    repeat split; try reflexivity. f_equal. f_equal. lia.
Qed.

(** ** Verifying against a file *)

Lemma mismatches_differing (c : chip) (data : list byte) : forall i : nat,
  Z.of_nat i + Z.of_nat (length data) < 2 ^ 32 ->
  mismatches c (map byte_val data) (Z.of_nat i) = differing c i data.
Proof.
  induction data as [|b rest IH]; intros i Hi; [reflexivity|].
  cbn [length] in Hi. cbn [map mismatches differing].
  rewrite incr32_small by lia.
  replace (Z.of_nat i + 1) with (Z.of_nat (S i)) by lia.
  rewrite IH by lia. reflexivity.
Qed.

Lemma rm_events_pin_events (pins : list Z) : forall oe : Z,
  forallb is_pin_event (rm_events pins oe) = true.
Proof.
  induction pins as [|p rest IH]; intros oe; [reflexivity|].
  cbn [rm_events]. cbn [forallb is_pin_event andb].
  rewrite !forallb_app, IH. destruct (Z.testbit oe p); reflexivity.
Qed.

Lemma setReadMode_events_pin_events (oe : Z) :
  forallb is_pin_event (setReadMode_events oe) = true.
Proof.
  unfold setReadMode_events. rewrite forallb_app, rm_events_pin_events.
  reflexivity.
Qed.

Lemma remaining_open (data : list byte) : remaining (open_file data) = data.
Proof. reflexivity. Qed.

Lemma chunks_fuel (n : nat) : (n / chunk_size < S n)%nat.
Proof.
  pose proof chunk_size_pos.
  assert (n / chunk_size <= n)%nat; [|lia].
  apply Nat.Div0.div_le_upper_bound. nia.
Qed.

Lemma ReadAndVerify_run (data : list byte) (w : world) :
  bus_ready w = true ->
  fst (EEPROM_ReadAndVerify (open_file data) w)
  = Some (addr_after (length data) 0,
          Z.of_nat (length (mismatches (flash w) (map byte_val data) 0)))
  /\ flash (exec (EEPROM_ReadAndVerify (open_file data)) w) = flash w
  /\ reports (log (exec (EEPROM_ReadAndVerify (open_file data)) w))
     = reports (log w)
       ++ map report_of (mismatches (flash w) (map byte_val data) 0)
  /\ requests (log (exec (EEPROM_ReadAndVerify (open_file data)) w))
     = requests (log w) ++ chunk_requests (length data).
Proof.
  intros Hb. unfold EEPROM_ReadAndVerify, exec. rewrite !bind_run.
  fold (exec (oledDisplayMessages "Reading file" "from EEPROM" "now..." "" "")
             w).
  set (w0 := exec (oledDisplayMessages _ _ _ _ _) w).
  assert (Hb0 : bus_ready w0 = true) by exact Hb.
  fold (exec setReadMode w0).
  pose proof (setReadMode_ready w0 Hb0) as Hr.
  pose proof (setReadMode_exec w0 Hb0) as Hw1.
  set (w1 := exec setReadMode w0) in *.
  destruct (verify_file_loop_run (S (length data)) (open_file data) 0 0
              w1 eq_refl Hr)
    as (Hv & Hf & Hrep & Hreq).
  { rewrite remaining_open. apply chunks_fuel. }
  rewrite remaining_open in *. unfold exec in Hf, Hrep, Hreq.
  cbn [fdata open_file]. rewrite Hv. cbn [fst snd].
  rewrite !bind_run. cbn [fst snd emit ret]. proj.
  rewrite reports_app, requests_app, Hf, Hrep, Hreq.
  rewrite Hw1. proj.
  change (flash w0) with (flash w).
  change (log w0)
    with (log w ++ [Oled "Reading file" "from EEPROM" "now..." "" ""]).
  rewrite !reports_app, !requests_app.
  unfold reports at 3, requests at 3.
  rewrite !(filter_none _ _ _ (setReadMode_events_pin_events _)
              pin_event_not_report).
  rewrite !(filter_none _ _ _ (setReadMode_events_pin_events _)
              pin_event_not_request).
  cbn [reports requests List.filter is_report is_request].
  rewrite !app_nil_r, Z.add_0_l. auto.
Qed.

(** C5: the verify loop never stops at a mismatch.  For every file (shorter
    than 2^31 bytes) and every chip contents it runs to the end of the file:
    the final cursor is the file length, the error count is the number of
    positions where chip byte and file byte differ, and the reports are, in
    order, exactly the (address, expected, actual) triples of these
    positions. *)
Theorem C5_verify_counts_every_mismatch (data : list byte) (w : world) :
  bus_ready w = true -> Z.of_nat (length data) < 2 ^ 31 ->
  fst (EEPROM_ReadAndVerify (open_file data) w)
  = Some (Z.of_nat (length data),
          Z.of_nat (length (differing (flash w) 0 data)))
  /\ reports (log (exec (EEPROM_ReadAndVerify (open_file data)) w))
     = reports (log w) ++ map report_of (differing (flash w) 0 data).
Proof.
  intros Hb Hlen.
  assert (Hlen32 : Z.of_nat 0 + Z.of_nat (length data) < 2 ^ 32).
  { change (2 ^ 31) with 2147483648 in Hlen.
    change (2 ^ 32) with 4294967296. lia. }
  destruct (ReadAndVerify_run data w Hb) as (Hv & _ & Hrep & _).
  change 0 with (Z.of_nat 0) in Hv at 2, Hrep.
  rewrite mismatches_differing in Hv, Hrep by exact Hlen32.
  rewrite addr_after_small in Hv by (cbn [Z.of_nat] in Hlen32; lia).
  rewrite Z.add_0_l in Hv. split; assumption.
Qed.

Lemma C5_witness :
  bus_ready (ready scenario_corrupted) = true
  /\ Z.of_nat (length scenario_source) < 2 ^ 31
  /\ fst (EEPROM_ReadAndVerify (open_file scenario_source)
                               (ready scenario_corrupted))
     = Some (Z.of_nat (length scenario_source),
             Z.of_nat (length (differing (flash (ready scenario_corrupted)) 0
                                         scenario_source))).
Proof.
  split; [vm_compute; reflexivity|]. split; [reflexivity|].
  refine (proj1 (C5_verify_counts_every_mismatch scenario_source
                   (ready scenario_corrupted) _ _)).
  - vm_compute; reflexivity.
  - reflexivity.
Defined.

Example scenario_one_mismatch :
  fst (EEPROM_ReadAndVerify (open_file scenario_source)
                            (ready scenario_corrupted)) = Some (5, 1)
  /\ reports (log (exec (EEPROM_ReadAndVerify (open_file scenario_source))
                        (ready scenario_corrupted)))
     = [Report_mismatch 2 0x3C 0x3D].
Proof. vm_compute. split; reflexivity. Qed.

(** ** Programming from a file *)

Lemma byte_val_range (b : byte) : 0 <= byte_val b < 256.
Proof.
  unfold byte_val. pose proof (Byte.to_N_bounded b) as H.
  apply N2Z.inj_le in H. change (Z.of_N 255) with 255 in H.
  pose proof (N2Z.is_nonneg (Byte.to_N b)). lia.
Qed.

Lemma write_chunk_run (buffer : list byte) :
  forall (address : Z) (w : world),
  write_ready w = true ->
  fst (write_chunk buffer address w) = addr_after (length buffer) address
  /\ write_ready (exec (write_chunk buffer address) w) = true
  /\ flash (exec (write_chunk buffer address) w)
     = program_chip (flash w) buffer address
  /\ addr_bus (exec (write_chunk buffer address) w)
     = program_bus (addr_bus w) buffer address
  /\ log (exec (write_chunk buffer address) w)
     = log w ++ program_events buffer address.
Proof.
  induction buffer as [|b rest IH]; intros address w Hr.
  - cbn. rewrite app_nil_r. auto.
  - unfold exec. cbn [write_chunk]. rewrite bind_exec.
    pose proof (writeByte_keeps_ready address (byte_val b) w Hr) as Hr1.
    pose proof (writeByte_exec address (byte_val b) w Hr) as Hw1.
    set (w1 := exec (EEPROM_writeByte address (byte_val b)) w) in *.
    destruct (IH (incr32 address) w1 Hr1) as (Hv & Hrr & Hf & Hab & Hl).
    unfold exec in Hrr, Hf, Hab, Hl.
    cbn [length program_chip program_bus program_events].
    rewrite addr_after_S, Hv, Hf, Hab, Hl.
    split; [reflexivity|]. split; [exact Hrr|].
    rewrite Hw1. proj.
    rewrite (land_255_small (byte_val b))
      by (pose proof (byte_val_range b); lia).
    rewrite <- app_assoc. auto.
Qed.

Lemma program_chip_app (l1 l2 : list byte) : forall (c : chip) (a : Z),
  program_chip c (l1 ++ l2) a
  = program_chip (program_chip c l1 a) l2 (addr_after (length l1) a).
Proof.
  induction l1 as [|b l1 IH]; intros c a; [reflexivity|].
  cbn [app program_chip length]. rewrite addr_after_S. apply IH.
Qed.

Lemma program_bus_app (l1 l2 : list byte) : forall (ab a : Z),
  program_bus ab (l1 ++ l2) a
  = program_bus (program_bus ab l1 a) l2 (addr_after (length l1) a).
Proof.
  induction l1 as [|b l1 IH]; intros ab a; [reflexivity|].
  cbn [app program_bus length]. rewrite addr_after_S. apply IH.
Qed.

Lemma program_events_pin_events (buffer : list byte) : forall a : Z,
  forallb is_pin_event (program_events buffer a) = true.
Proof.
  induction buffer as [|b rest IH]; intros a; [reflexivity|].
  cbn [program_events]. unfold writeByte_events.
  rewrite !forallb_app, !write_events_pin_events, IH. reflexivity.
Qed.

Lemma write_file_loop_S (fuel : nat) (fil : FIL) (address : Z) (w : world) :
  fgood fil = None ->
  write_file_loop (S fuel) fil address w
  = let chunk := take chunk_size (remaining fil) in
    let r := write_chunk chunk address
               (exec (emit (F_read BUFFER_SIZE true
                                   (Z.of_nat (length chunk)))) w) in
    if Z.of_nat (length chunk) <? BUFFER_SIZE then (Some (fst r), snd r)
    else write_file_loop fuel
           (mkFIL (fdata fil) (fptr fil + length chunk) None)
           (fst r) (snd r).
Proof.
  intros Hg. cbn [write_file_loop]. rewrite f_read_healthy by assumption.
  cbv zeta. rewrite !bind_run. cbn [fst].
  destruct (Z.of_nat (length (take chunk_size (remaining fil)))
            <? BUFFER_SIZE).
  - unfold ret, exec. destruct (write_chunk _ _ _); reflexivity.
  - reflexivity.
Qed.

Lemma write_file_loop_run (fuel : nat) :
  forall (fil : FIL) (address : Z) (w : world),
  fgood fil = None -> write_ready w = true ->
  (length (remaining fil) / chunk_size < fuel)%nat ->
  fst (write_file_loop fuel fil address w)
  = Some (addr_after (length (remaining fil)) address)
  /\ write_ready (exec (write_file_loop fuel fil address) w) = true
  /\ flash (exec (write_file_loop fuel fil address) w)
     = program_chip (flash w) (remaining fil) address
  /\ addr_bus (exec (write_file_loop fuel fil address) w)
     = program_bus (addr_bus w) (remaining fil) address
  /\ requests (log (exec (write_file_loop fuel fil address) w))
     = requests (log w) ++ chunk_requests (length (remaining fil)).
Proof.
  induction fuel as [|fuel IH]; intros fil address w Hg Hr Hfuel; [lia|].
  unfold exec. rewrite write_file_loop_S by assumption. cbv zeta.
  set (chunk := take chunk_size (remaining fil)).
  set (w1 := exec (emit (F_read BUFFER_SIZE true (Z.of_nat (length chunk)))) w).
  assert (Hr1 : write_ready w1 = true) by exact Hr.
  destruct (write_chunk_run chunk address w1 Hr1)
    as (Hv & Hrr & Hf & Hab & Hl).
  change (flash w1) with (flash w) in Hf.
  change (addr_bus w1) with (addr_bus w) in Hab.
  change (log w1)
    with (log w ++ [F_read BUFFER_SIZE true (Z.of_nat (length chunk))]) in Hl.
  unfold exec in Hrr, Hf, Hab, Hl.
  pose proof chunk_size_Z as HcZ.
  assert (Hlen : length chunk = Nat.min chunk_size (length (remaining fil)))
    by apply length_take.
  destruct (Z.ltb_spec (Z.of_nat (length chunk)) BUFFER_SIZE) as [Hlt|Hge].
  - assert (Hshort : (length (remaining fil) < chunk_size)%nat) by lia.
    assert (Hall : chunk = remaining fil) by (apply take_ge; lia).
    cbn [fst snd]. rewrite Hv, Hrr, Hf, Hab, Hl.
    rewrite chunk_requests_short by assumption.
    rewrite !requests_app. unfold requests at 3.
    rewrite (filter_none _ _ _ (program_events_pin_events _ _)
               pin_event_not_request).
    rewrite Hall. cbn [requests List.filter is_request].
    rewrite !app_nil_r. auto.
  - assert (Hfull : (chunk_size <= length (remaining fil))%nat) by lia.
    assert (Hc : length chunk = chunk_size) by lia.
    set (fil' := mkFIL (fdata fil) (fptr fil + length chunk) None).
    assert (Hrem' : remaining fil' = drop chunk_size (remaining fil))
      by apply remaining_advance.
    assert (Hsplit : remaining fil = chunk ++ remaining fil')
      by (rewrite Hrem'; symmetry; apply take_drop).
    assert (Hlen' : length (remaining fil')
                    = (length (remaining fil) - chunk_size)%nat)
      by (rewrite Hrem'; apply length_drop).
    rewrite Hv.
    destruct (IH fil' (addr_after (length chunk) address)
                (snd (write_chunk chunk address w1)) eq_refl Hrr)
      as (Hv2 & Hrr2 & Hf2 & Hab2 & Hreq2).
    { rewrite Hlen'. apply div_chunk_step; assumption. }
    unfold exec in Hrr2, Hf2, Hab2, Hreq2.
    rewrite Hv2, Hrr2, Hf2, Hab2, Hreq2, Hf, Hab, Hl.
    rewrite (chunk_requests_full (length (remaining fil))) by assumption.
    rewrite <- Hlen'.
    rewrite !requests_app. unfold requests at 3.
    rewrite (filter_none _ _ _ (program_events_pin_events _ _)
               pin_event_not_request).
    rewrite Hsplit at 1 2 3.
    rewrite length_app, addr_after_add, program_chip_app, program_bus_app.
    rewrite Hc, HcZ. cbn [requests List.filter is_request].
    rewrite !app_nil_r, <- !app_assoc. cbn [app]. auto.
Qed.

Lemma setWriteMode_events_pin_events :
  forallb is_pin_event setWriteMode_events = true.
Proof. reflexivity. Qed.

Lemma WriteCurrentFile_run (data : list byte) (w : world) :
  bus_ready w = true ->
  fst (EEPROM_WriteCurrentFile (open_file data) w)
  = Some (addr_after (length data) 0)
  /\ bus_ready (exec (EEPROM_WriteCurrentFile (open_file data)) w) = true
  /\ flash (exec (EEPROM_WriteCurrentFile (open_file data)) w)
     = program_chip (flash w) data 0
  /\ addr_bus (exec (EEPROM_WriteCurrentFile (open_file data)) w)
     = program_bus (addr_bus w) data 0
  /\ requests (log (exec (EEPROM_WriteCurrentFile (open_file data)) w))
     = requests (log w) ++ chunk_requests (length data).
Proof.
  intros Hb. unfold EEPROM_WriteCurrentFile, exec. rewrite !bind_exec.
  set (w0 := exec (oledDisplayMessages _ _ _ _ _) w).
  assert (Hb0 : bus_ready w0 = true) by exact Hb.
  pose proof (setWriteMode_ready w0 Hb0) as Hr.
  pose proof (setWriteMode_exec w0 Hb0) as Hw1.
  set (w1 := exec setWriteMode w0) in *.
  destruct (write_file_loop_run (S (length data)) (open_file data) 0
              w1 eq_refl Hr)
    as (Hv & Hrr & Hf & Hab & Hreq).
  { rewrite remaining_open. apply chunks_fuel. }
  rewrite remaining_open in *.
  cbn [fdata open_file]. rewrite Hv. cbn [fst snd].
  rewrite !bind_exec. unfold sleep_ms. cbn [fst snd ret].
  rewrite !exec_emit. proj.
  rewrite !requests_app, Hf, Hab, Hreq.
  apply write_ready_bus_ready in Hrr.
  split; [reflexivity|]. split; [exact Hrr|].
  rewrite Hw1. proj.
  change (flash w0) with (flash w). change (addr_bus w0) with (addr_bus w).
  change (log w0)
    with (log w ++ [Oled "Writing File" "to EEPROM" "now..." "" ""]).
  rewrite !requests_app. unfold requests at 3.
  rewrite (filter_none _ _ _ setWriteMode_events_pin_events
             pin_event_not_request).
  cbn [requests List.filter is_request].
  rewrite !app_nil_r. auto.
Qed.

(** ** Program, then verify *)

Lemma program_chip_idle (buffer : list byte) : forall (c : chip) (a : Z),
  cmd c = Cmd_idle ->
  cmd (program_chip c buffer a) = Cmd_idle
  /\ mem (program_chip c buffer a) = program_mem (mem c) buffer a.
Proof.
  induction buffer as [|b rest IH]; intros c a Hc; [auto|].
  cbn [program_chip program_mem].
  destruct (writeByte_chip_idle c (chip_address (Z.land a (Z.ones 24)))
              (byte_val b) Hc) as [Hm Hi].
  destruct (IH _ (incr32 a) Hi) as [Hi' Hm'].
  rewrite Hi', Hm', Hm. auto.
Qed.

Lemma program_mem_other (buffer : list byte) : forall (m : gmap Z Z) (a x : Z),
  0 <= a -> a + Z.of_nat (length buffer) <= 2 ^ 19 ->
  x < a \/ a + Z.of_nat (length buffer) <= x ->
  mem_read (program_mem m buffer a) x = mem_read m x.
Proof.
  change (2 ^ 19) with 524288.
  induction buffer as [|b rest IH]; intros m a x H0 Hlen Hx; [reflexivity|].
  cbn [length] in Hlen, Hx. cbn [program_mem].
  rewrite incr32_small by (change (2 ^ 32) with 4294967296; lia).
  rewrite IH by lia.
  rewrite chip_address_small by (change (2 ^ 19) with 524288; lia).
  apply mem_read_insert_ne. lia.
Qed.

Lemma program_mem_lookup (buffer : list byte) :
  forall (m : gmap Z Z) (a : Z) (k : nat) (b : byte),
  0 <= a -> a + Z.of_nat (length buffer) <= 2 ^ 19 ->
  buffer !! k = Some b ->
  mem_read (program_mem m buffer a) (a + Z.of_nat k) = byte_val b.
Proof.
  change (2 ^ 19) with 524288.
  induction buffer as [|b0 rest IH]; intros m a k b H0 Hlen Hk;
    [discriminate|].
  cbn [length] in Hlen. cbn [program_mem].
  rewrite incr32_small by (change (2 ^ 32) with 4294967296; lia).
  destruct k as [|k].
  - cbn in Hk. injection Hk as ->. rewrite Z.add_0_r.
    rewrite program_mem_other by (change (2 ^ 19) with 524288; lia).
    rewrite chip_address_small by (change (2 ^ 19) with 524288; lia).
    apply mem_read_insert.
  - cbn in Hk.
    replace (a + Z.of_nat (S k)) with (a + 1 + Z.of_nat k) by lia.
    apply IH; (assumption || lia).
Qed.

Lemma differing_nil (c : chip) (data : list byte) : forall i : nat,
  (forall (k : nat) (b : byte), data !! k = Some b ->
     read_back c (Z.of_nat (i + k)) = byte_val b) ->
  differing c i data = [].
Proof.
  induction data as [|b rest IH]; intros i H; [reflexivity|].
  cbn [differing]. unfold differs.
  rewrite <- (Nat.add_0_r i) at 1. rewrite (H 0%nat b eq_refl).
  rewrite Z.eqb_refl. cbn [negb app]. apply IH.
  intros k b' Hk. replace (S i + k)%nat with (i + S k)%nat by lia.
  apply H. exact Hk.
Qed.

(** C2: programming a file of at most 2^19 bytes and then verifying against
    the same bytes, read again from the start, ends with the cursor at the
    file length and no error. *)
Theorem C2_program_then_verify (data : list byte) (w : world) :
  bus_ready w = true -> cmd (flash w) = Cmd_idle ->
  Z.of_nat (length data) <= 2 ^ 19 ->
  fst (EEPROM_WriteCurrentFile (open_file data) w)
  = Some (Z.of_nat (length data))
  /\ fst (EEPROM_ReadAndVerify (open_file data)
            (exec (EEPROM_WriteCurrentFile (open_file data)) w))
     = Some (Z.of_nat (length data), 0).
Proof.
  intros Hb Hidle Hlen.
  assert (Hlen32 : Z.of_nat (length data) < 2 ^ 32).
  { change (2 ^ 19) with 524288 in Hlen. change (2 ^ 32) with 4294967296.
    lia. }
  destruct (WriteCurrentFile_run data w Hb) as (Hv & Hb' & Hf & _).
  rewrite addr_after_small in Hv by lia. rewrite Z.add_0_l in Hv.
  split; [exact Hv|].
  destruct (ReadAndVerify_run data _ Hb') as (Hv' & _).
  rewrite Hv'. rewrite addr_after_small by lia. rewrite Z.add_0_l.
  change 0 with (Z.of_nat 0) at 1.
  rewrite mismatches_differing by (cbn [Z.of_nat]; lia).
  rewrite differing_nil; [reflexivity|].
  intros k b Hk. rewrite Hf.
  destruct (program_chip_idle data (flash w) 0 Hidle) as [_ Hm].
  unfold read_back, chip_byte. rewrite Hm.
  pose proof (lookup_lt_Some _ _ _ Hk) as Hlt.
  rewrite chip_address_small
    by (change (2 ^ 19) with 524288 in *; lia).
  cbn [Nat.add].
  pose proof (program_mem_lookup data (mem (flash w)) 0 k b) as Hlk.
  rewrite !Z.add_0_l in Hlk. rewrite Hlk by (assumption || lia).
  apply land_255_small. pose proof (byte_val_range b). lia.
Qed.

Lemma C2_witness :
  bus_ready (ready ∅) = true /\ cmd (flash (ready ∅)) = Cmd_idle
  /\ Z.of_nat (length scenario_source) <= 2 ^ 19
  /\ fst (EEPROM_ReadAndVerify (open_file scenario_source)
            (exec (EEPROM_WriteCurrentFile (open_file scenario_source))
                  (ready ∅)))
     = Some (Z.of_nat (length scenario_source), 0).
Proof.
  split; [vm_compute; reflexivity|]. split; [vm_compute; reflexivity|].
  split; [vm_compute; discriminate|].
  refine (proj2 (C2_program_then_verify scenario_source (ready ∅) _ _ _));
    vm_compute; (reflexivity || discriminate).
Defined.

Example scenario_program_verify :
  fst (EEPROM_WriteCurrentFile (open_file scenario_source) (ready ∅))
  = Some 5
  /\ fst (EEPROM_ReadAndVerify (open_file scenario_source)
            (exec (EEPROM_WriteCurrentFile (open_file scenario_source))
                  (ready ∅)))
     = Some (5, 0).
Proof. vm_compute. split; reflexivity. Qed.

(** ** A file of whole chunks *)

Lemma chunk_requests_whole (k : nat) :
  chunk_requests (k * chunk_size)
  = replicate k (F_read BUFFER_SIZE true BUFFER_SIZE)
    ++ [F_read BUFFER_SIZE true 0].
Proof.
  unfold chunk_requests. pose proof chunk_size_pos.
  rewrite Nat.div_mul, Nat.Div0.mod_mul by lia. reflexivity.
Qed.

(** C8, as the code has it: on a file of exactly [k] whole chunks of 1024
    bytes the program loop and the verify loop each make [k] requests that
    come back full and then one more request, which comes back empty and
    ends the loop; the final cursor is the file length. *)
Theorem C8_whole_chunks_one_empty_request (data : list byte) (k : nat)
        (w : world) :
  bus_ready w = true ->
  length data = (k * chunk_size)%nat -> Z.of_nat (length data) < 2 ^ 31 ->
  fst (EEPROM_WriteCurrentFile (open_file data) w)
  = Some (Z.of_nat (length data))
  /\ requests (log (exec (EEPROM_WriteCurrentFile (open_file data)) w))
     = requests (log w)
       ++ replicate k (F_read BUFFER_SIZE true BUFFER_SIZE)
       ++ [F_read BUFFER_SIZE true 0]
  /\ fst <$> fst (EEPROM_ReadAndVerify (open_file data) w)
     = Some (Z.of_nat (length data))
  /\ requests (log (exec (EEPROM_ReadAndVerify (open_file data)) w))
     = requests (log w)
       ++ replicate k (F_read BUFFER_SIZE true BUFFER_SIZE)
       ++ [F_read BUFFER_SIZE true 0].
Proof.
  intros Hb Hk Hlen.
  assert (Hlen32 : 0 + Z.of_nat (length data) < 2 ^ 32).
  { change (2 ^ 31) with 2147483648 in Hlen.
    change (2 ^ 32) with 4294967296. lia. }
  destruct (WriteCurrentFile_run data w Hb) as (Hv & _ & _ & _ & Hreq).
  destruct (ReadAndVerify_run data w Hb) as (Hv' & _ & _ & Hreq').
  rewrite addr_after_small in Hv, Hv' by lia. rewrite Z.add_0_l in Hv, Hv'.
  rewrite Hk, chunk_requests_whole in Hreq, Hreq'.
  rewrite Hv'. auto.
Qed.

Lemma C8_witness :
  bus_ready (ready ∅) = true
  /\ length (replicate 1024 x00) = (1 * chunk_size)%nat
  /\ Z.of_nat (length (replicate 1024 x00)) < 2 ^ 31
  /\ fst (EEPROM_WriteCurrentFile (open_file (replicate 1024 x00)) (ready ∅))
     = Some (Z.of_nat (length (replicate 1024 x00))).
Proof.
  split; [vm_compute; reflexivity|]. split; [vm_compute; reflexivity|].
  split; [vm_compute; reflexivity|].
  refine (proj1 (C8_whole_chunks_one_empty_request
                   (replicate 1024 x00) 1 (ready ∅) _ _ _));
    vm_compute; reflexivity.
Defined.

(** On a file of exactly 1024 bytes the verify loop asks for a second chunk
    after the full one, and gets none: there is an extra, empty pass. *)
Lemma C8_counterexample :
  requests (log (exec (EEPROM_ReadAndVerify (open_file (replicate 1024 x00)))
                      (ready ∅)))
  = [F_read BUFFER_SIZE true 1024; F_read BUFFER_SIZE true 0].
Proof.
  destruct (ReadAndVerify_run (replicate 1024 x00) (ready ∅) eq_refl)
    as (_ & _ & _ & Hreq).
  rewrite Hreq. vm_compute. reflexivity.
Qed.

(** ** The cursor beyond the last address *)

Lemma chip_address_mod (a : Z) :
  chip_address (Z.land a (Z.ones 24)) = a mod 2 ^ 19.
Proof.
  unfold chip_address. rewrite !Z.land_ones by lia.
  apply Z.mod_mod_divide. exists (2 ^ 5). reflexivity.
Qed.

Lemma program_chip_cycles (data : list byte) : forall (c : chip) (i : nat),
  Z.of_nat i + Z.of_nat (length data) < 2 ^ 32 ->
  cycles (program_chip c data (Z.of_nat i)) = cycles c ++ written i data.
Proof.
  induction data as [|b rest IH]; intros c i Hi.
  - cbn. symmetry. apply app_nil_r.
  - cbn [length] in Hi. cbn [program_chip written].
    rewrite incr32_small by lia.
    replace (Z.of_nat i + 1) with (Z.of_nat (S i)) by lia.
    rewrite IH by lia.
    rewrite writeByte_chip_cycles, chip_address_mod, <- !app_assoc.
    reflexivity.
Qed.

Lemma program_bus_last (l : list byte) (b : byte) : forall (ab a : Z),
  program_bus ab (l ++ [b]) a
  = Z.land (addr_after (length l) a) (Z.ones 24).
Proof.
  induction l as [|b0 l IH]; intros ab a; [reflexivity|].
  cbn [app program_bus length]. rewrite addr_after_S. apply IH.
Qed.

(** C9, as the code has it: the program loop has no guard on the cursor.  For
    every file shorter than 2^32 bytes it writes every byte and ends with the
    cursor at the file length, whatever the length; byte [i] reaches the chip
    at address [i mod 2^19], and after the last byte the shift registers hold
    the low 24 bits of its address. *)
Theorem C9_program_without_cursor_guard (data : list byte) (w : world) :
  bus_ready w = true -> Z.of_nat (length data) < 2 ^ 32 ->
  fst (EEPROM_WriteCurrentFile (open_file data) w)
  = Some (Z.of_nat (length data))
  /\ cycles (flash (exec (EEPROM_WriteCurrentFile (open_file data)) w))
     = cycles (flash w) ++ written 0 data
  /\ (forall l b, data = l ++ [b] ->
      addr_bus (exec (EEPROM_WriteCurrentFile (open_file data)) w)
      = Z.of_nat (length l) mod 2 ^ 24).
Proof.
  intros Hb Hlen.
  destruct (WriteCurrentFile_run data w Hb) as (Hv & _ & Hf & Hab & _).
  rewrite addr_after_small in Hv by lia. rewrite Z.add_0_l in Hv.
  split; [exact Hv|]. split.
  - rewrite Hf. change 0 with (Z.of_nat 0) at 1.
    apply program_chip_cycles. cbn [Z.of_nat]. lia.
  - intros l b Hd. rewrite Hab, Hd, program_bus_last.
    rewrite Hd, length_app in Hlen. cbn [length] in Hlen.
    rewrite addr_after_small by lia. rewrite Z.add_0_l.
    apply Z.land_ones. lia.
Qed.

Lemma C9_witness :
  bus_ready (ready ∅) = true
  /\ Z.of_nat (length scenario_source) < 2 ^ 32
  /\ cycles (flash (exec (EEPROM_WriteCurrentFile (open_file scenario_source))
                         (ready ∅)))
     = cycles (flash (ready ∅)) ++ written 0 scenario_source.
Proof.
  split; [vm_compute; reflexivity|]. split; [reflexivity|].
  refine (proj1 (proj2 (C9_program_without_cursor_guard scenario_source
                          (ready ∅) _ _)));
    vm_compute; reflexivity.
Defined.

(** A file of 2^19 + 1 bytes is written to the end: the cursor ends at
    2^19 + 1, beyond the last address, and the last address shifted out has
    bit 19 set, one more than the chip's 19 address lines A0..A18. *)
Lemma C9_counterexample :
  fst (EEPROM_WriteCurrentFile
         (open_file (replicate (S (Z.to_nat MAX_EEPROM_ADDRESS_SPACE)) x00))
         (ready ∅))
  = Some (MAX_EEPROM_ADDRESS_SPACE + 1)
  /\ Z.testbit
       (addr_bus
          (exec (EEPROM_WriteCurrentFile
                   (open_file
                      (replicate (S (Z.to_nat MAX_EEPROM_ADDRESS_SPACE)) x00)))
                (ready ∅)))
       19 = true.
Proof.
  assert (Hn : Z.of_nat (Z.to_nat MAX_EEPROM_ADDRESS_SPACE)
               = MAX_EEPROM_ADDRESS_SPACE) by (apply Z2Nat.id; discriminate).
  generalize dependent (Z.to_nat MAX_EEPROM_ADDRESS_SPACE). intros n Hn.
  assert (Hmax : MAX_EEPROM_ADDRESS_SPACE = 524288) by reflexivity.
  assert (Hb : bus_ready (ready ∅) = true) by (vm_compute; reflexivity).
  destruct (WriteCurrentFile_run (replicate (S n) x00) (ready ∅) Hb)
    as (Hv & _ & _ & Hab & _).
  rewrite length_replicate in Hv.
  rewrite addr_after_small in Hv
    by (change (2 ^ 32) with 4294967296; lia).
  split.
  - rewrite Hv. f_equal. lia.
  - rewrite Hab, replicate_S_end, program_bus_last, length_replicate.
    rewrite addr_after_small by (change (2 ^ 32) with 4294967296; lia).
    rewrite Z.add_0_l, Hn. reflexivity.
Qed.

(** ** Operations that stay off the bus *)

Lemma off_bus_ret {A} (x : A) : off_bus (ret x).
Proof. intros w. repeat split. Qed.

Lemma off_bus_emit (e : event) : off_bus (emit e).
Proof. intros w. repeat split. Qed.

Lemma off_bus_bind {A B} (m : M A) (k : A -> M B) :
  off_bus m -> (forall x, off_bus (k x)) -> off_bus (bind m k).
Proof.
  intros Hm Hk w. rewrite exec_bind.
  destruct (Hm w) as (Hf & Hs & Ha & Ho & Hq).
  destruct (Hk (fst (m w)) (exec m w)) as (Hf' & Hs' & Ha' & Ho' & Hq').
  rewrite Hf', Hs', Ha', Ho', Hf, Hs, Ha, Ho. repeat split.
  intros q Hne. rewrite Hq', Hq by assumption. reflexivity.
Qed.

Lemma off_bus_led (v : bool) : off_bus (gpio_put ONBOARD_LED_PIN v).
Proof.
  intros w. rewrite put_plain_pin by discriminate. proj. repeat split.
  intros q Hne. rewrite testbit_set_bit by discriminate.
  replace (q =? ONBOARD_LED_PIN) with false by (symmetry; pin_neq).
  reflexivity.
Qed.

Lemma off_bus_if {A} (b : bool) (m1 m2 : M A) :
  off_bus m1 -> off_bus m2 -> off_bus (if b then m1 else m2).
Proof. destruct b; auto. Qed.

Ltac off_bus_tac :=
  repeat match goal with
    | |- off_bus (bind _ _) => apply off_bus_bind; [|intros ?]
    | |- off_bus (if _ then _ else _) => apply off_bus_if
    | |- off_bus (gpio_put ONBOARD_LED_PIN _) => apply off_bus_led
    | |- off_bus (emit _) => apply off_bus_emit
    | |- off_bus (ret _) => apply off_bus_ret
    end.

Lemma off_bus_handleErr : off_bus handleErr.
Proof.
  unfold handleErr, printf, sleep_ms. off_bus_tac.
Qed.

Lemma off_bus_bus_ready {A} (m : M A) (w : world) :
  off_bus m -> bus_ready (exec m w) = bus_ready w.
Proof.
  intros Hm. destruct (Hm w) as (_ & _ & _ & Ho & Hq).
  unfold bus_ready. rewrite Ho, Hq by discriminate. reflexivity.
Qed.

Lemma log_bind {A B} (m : M A) (k : A -> M B) (w : world) :
  log (exec (bind m k) w) = log (exec (k (fst (m w))) (exec m w)).
Proof. rewrite exec_bind. reflexivity. Qed.

Lemma handleErr_log (w : world) :
  log (exec handleErr w) = log w ++ handleErr_events.
Proof.
  unfold handleErr, handleErr_events, printf, sleep_ms.
  rewrite !exec_bind. autorewrite with logs.
  rewrite <- !app_assoc. reflexivity.
Qed.

#[local] Hint Rewrite handleErr_log : logs.

Lemma gpio_out_emit (e : event) (w : world) :
  gpio_out (exec (emit e) w) = gpio_out w.
Proof. reflexivity. Qed.

Lemma gpio_out_put (p : Z) (v : bool) (w : world) :
  gpio_out (exec (gpio_put p v) w) = set_bit (gpio_out w) p v.
Proof. reflexivity. Qed.

Lemma led_blinks_app (l1 l2 : list event) :
  led_blinks (l1 ++ l2) = (led_blinks l1 + led_blinks l2)%nat.
Proof. unfold led_blinks. rewrite List.filter_app. apply length_app. Qed.

(** X1: [handleErr] switches the on-board LED on three times, half a second
    each, and leaves it off; it touches neither the chip, nor the shift
    registers, nor any other pin. *)
Theorem X1_handleErr_blinks_off_bus (w : world) :
  log (exec handleErr w) = log w ++ handleErr_events
  /\ led_blinks handleErr_events = 3%nat
  /\ Z.testbit (gpio_out (exec handleErr w)) ONBOARD_LED_PIN = false
  /\ flash (exec handleErr w) = flash w
  /\ shift_reg (exec handleErr w) = shift_reg w
  /\ addr_bus (exec handleErr w) = addr_bus w
  /\ gpio_oe (exec handleErr w) = gpio_oe w
  /\ (forall q, q <> ONBOARD_LED_PIN ->
        Z.testbit (gpio_out (exec handleErr w)) q = Z.testbit (gpio_out w) q).
Proof.
  split; [apply handleErr_log|]. split; [reflexivity|]. split.
  - unfold handleErr, printf, sleep_ms. rewrite !exec_bind.
    rewrite gpio_out_emit, gpio_out_put.
    rewrite testbit_set_bit by discriminate. rewrite Z.eqb_refl. reflexivity.
  - exact (off_bus_handleErr w).
Qed.

(** ** The SD card wrappers *)

Lemma off_bus_SD_init (card : sd_card) : off_bus (SD_init card).
Proof.
  unfold SD_init, printf, sleep_ms, oledDisplayMessages.
  off_bus_tac; apply off_bus_handleErr.
Qed.

Lemma off_bus_SD_mount (card : sd_card) : off_bus (SD_mount card).
Proof.
  unfold SD_mount, printf, sleep_ms, oledDisplayMessages.
  off_bus_tac; apply off_bus_handleErr.
Qed.

Lemma off_bus_SD_closeFile (card : sd_card) : off_bus (SD_closeFile card).
Proof.
  unfold SD_closeFile, printf, sleep_ms, oledDisplayMessages.
  off_bus_tac; apply off_bus_handleErr.
Qed.

Lemma off_bus_SD_openFile (card : sd_card) (fileName : string) :
  off_bus (SD_openFile card fileName).
Proof.
  unfold SD_openFile, printf, sleep_ms, oledDisplayMessages.
  destruct (f_open card fileName) as [fr fp].
  off_bus_tac; apply off_bus_handleErr.
Qed.

Lemma off_bus_SD_unmount : off_bus SD_unmount.
Proof. apply off_bus_emit. Qed.

Lemma fst_emit_bind {B} (e : event) (k : M B) (w : world) :
  fst (bind (emit e) (fun _ => k) w) = fst (k (exec (emit e) w)).
Proof. reflexivity. Qed.

(** X2: [SD_init], [SD_mount] and [SD_closeFile] return true exactly when
    the library call succeeded; on failure, and only then, they run the error
    signal (three blinks of the LED); in either case they stay off the bus. *)
Theorem X2_SD_status_wrappers (card : sd_card) (w : world) :
  (fst (SD_init card w) = card_init card
   /\ led_blinks (log (exec (SD_init card) w))
      = (led_blinks (log w) + if card_init card then 0 else 3)%nat
   /\ off_bus (SD_init card))
  /\ (fst (SD_mount card w) = is_FR_OK (card_mount card)
      /\ led_blinks (log (exec (SD_mount card) w))
         = (led_blinks (log w) + if is_FR_OK (card_mount card) then 0 else 3)%nat
      /\ off_bus (SD_mount card))
  /\ (fst (SD_closeFile card w) = is_FR_OK (card_close card)
      /\ led_blinks (log (exec (SD_closeFile card) w))
         = (led_blinks (log w) + if is_FR_OK (card_close card) then 0 else 3)%nat
      /\ off_bus (SD_closeFile card)).
Proof.
  split; [|split].
  - split; [|split; [|apply off_bus_SD_init]].
    + unfold SD_init, printf, sleep_ms, oledDisplayMessages.
      rewrite !fst_bind. destruct (card_init card); cbn [negb].
      * rewrite !fst_bind. reflexivity.
      * rewrite !fst_bind. reflexivity.
    + unfold SD_init, printf, sleep_ms, oledDisplayMessages.
      rewrite !exec_bind. destruct (card_init card); cbn [negb];
        rewrite !exec_bind, exec_ret; autorewrite with logs;
        rewrite !led_blinks_app; cbn; lia.
  - split; [|split; [|apply off_bus_SD_mount]].
    + unfold SD_mount, printf, sleep_ms, oledDisplayMessages.
      rewrite !fst_bind. destruct (is_FR_OK (card_mount card)); cbn [negb];
        rewrite !fst_bind; reflexivity.
    + unfold SD_mount, printf, sleep_ms, oledDisplayMessages.
      rewrite !exec_bind. destruct (is_FR_OK (card_mount card)); cbn [negb];
        rewrite !exec_bind, exec_ret; autorewrite with logs;
        rewrite !led_blinks_app; cbn; lia.
  - split; [|split; [|apply off_bus_SD_closeFile]].
    + unfold SD_closeFile, printf, sleep_ms, oledDisplayMessages.
      rewrite !fst_bind. destruct (is_FR_OK (card_close card)); cbn [negb];
        rewrite !fst_bind; reflexivity.
    + unfold SD_closeFile, printf, sleep_ms, oledDisplayMessages.
      rewrite !exec_bind. destruct (is_FR_OK (card_close card)); cbn [negb];
        rewrite !exec_bind, exec_ret; autorewrite with logs;
        rewrite !led_blinks_app; cbn; lia.
Qed.

Lemma SD_openFile_fst (card : sd_card) (fileName : string) (w : world) :
  fst (SD_openFile card fileName w)
  = (is_FR_OK (fst (card_open card fileName)),
     if is_FR_OK (fst (card_open card fileName))
     then open_file (snd (card_open card fileName)) else invalid_file).
Proof.
  unfold SD_openFile, f_open, printf, sleep_ms, oledDisplayMessages.
  destruct (card_open card fileName) as [fr data]. cbn [fst snd].
  rewrite !fst_bind. destruct (is_FR_OK fr); cbn [negb];
    rewrite !fst_bind; reflexivity.
Qed.

(** X3: [SD_openFile] returns true together with the file at its start when
    the library opens it; otherwise it returns false with a file object on
    which the first read already fails, and runs the error signal.  It stays
    off the bus. *)
Theorem X3_SD_openFile_result (card : sd_card) (fileName : string)
        (w : world) :
  fst (SD_openFile card fileName w)
  = (is_FR_OK (fst (card_open card fileName)),
     if is_FR_OK (fst (card_open card fileName))
     then open_file (snd (card_open card fileName)) else invalid_file)
  /\ f_read invalid_file BUFFER_SIZE = (false, [], invalid_file)
  /\ led_blinks (log (exec (SD_openFile card fileName) w))
     = (led_blinks (log w)
        + if is_FR_OK (fst (card_open card fileName)) then 0 else 3)%nat
  /\ off_bus (SD_openFile card fileName).
Proof.
  split; [|split; [reflexivity|split; [|apply off_bus_SD_openFile]]].
  - apply SD_openFile_fst.
  - unfold SD_openFile, f_open, printf, sleep_ms, oledDisplayMessages.
    destruct (card_open card fileName) as [fr data]. cbn [fst snd].
    rewrite !exec_bind. destruct (is_FR_OK fr); cbn [negb];
      rewrite !exec_bind, exec_ret; autorewrite with logs;
      rewrite !led_blinks_app; cbn; lia.
Qed.

(** ** A medium that faults during the run *)

Lemma f_read_fault_now (fil : FIL) :
  fgood fil = Some O -> f_read fil BUFFER_SIZE = (false, [], fil).
Proof. intros Hg. unfold f_read. rewrite Hg. reflexivity. Qed.

Lemma f_read_fault_later (fil : FIL) (k : nat) :
  fgood fil = Some (S k) ->
  f_read fil BUFFER_SIZE
  = (true, take chunk_size (remaining fil),
     mkFIL (fdata fil) (fptr fil + length (take chunk_size (remaining fil)))
           (Some k)).
Proof. intros Hg. unfold f_read. rewrite Hg. reflexivity. Qed.

Lemma remaining_advance_any (data : list byte) (p : nat) (g : option nat) :
  remaining (mkFIL data (p + length (take chunk_size (drop p data))) g)
  = drop chunk_size (drop p data).
Proof. exact (remaining_advance data p). Qed.

Lemma write_file_loop_fault_now (fuel : nat) (fil : FIL) (address : Z)
      (w : world) :
  fgood fil = Some O ->
  write_file_loop (S fuel) fil address w
  = (Some address, exec (emit (F_read BUFFER_SIZE false 0)) w).
Proof.
  intros Hg. cbn [write_file_loop]. rewrite f_read_fault_now by assumption.
  reflexivity.
Qed.

Lemma write_file_loop_fault_later (fuel k : nat) (fil : FIL) (address : Z)
      (w : world) :
  fgood fil = Some (S k) ->
  write_file_loop (S fuel) fil address w
  = let chunk := take chunk_size (remaining fil) in
    let r := write_chunk chunk address
               (exec (emit (F_read BUFFER_SIZE true
                                   (Z.of_nat (length chunk)))) w) in
    if Z.of_nat (length chunk) <? BUFFER_SIZE then (Some (fst r), snd r)
    else write_file_loop fuel
           (mkFIL (fdata fil) (fptr fil + length chunk) (Some k))
           (fst r) (snd r).
Proof.
  intros Hg. cbn [write_file_loop].
  rewrite (f_read_fault_later fil k) by assumption.
  cbv zeta. rewrite !bind_run. cbn [fst].
  destruct (Z.of_nat (length (take chunk_size (remaining fil)))
            <? BUFFER_SIZE).
  - unfold ret, exec. destruct (write_chunk _ _ _); reflexivity.
  - reflexivity.
Qed.

(** The requests of a loop that gets [k] full chunks and then a fault. *)
Lemma write_file_loop_fault (k : nat) :
  forall (fuel : nat) (fil : FIL) (address : Z) (w : world),
  fgood fil = Some k -> write_ready w = true -> (k < fuel)%nat ->
  (k * chunk_size <= length (remaining fil))%nat ->
  fst (write_file_loop fuel fil address w)
  = Some (addr_after (k * chunk_size) address)
  /\ write_ready (exec (write_file_loop fuel fil address) w) = true
  /\ flash (exec (write_file_loop fuel fil address) w)
     = program_chip (flash w) (take (k * chunk_size) (remaining fil)) address
  /\ requests (log (exec (write_file_loop fuel fil address) w))
     = requests (log w)
       ++ replicate k (F_read BUFFER_SIZE true BUFFER_SIZE)
       ++ [F_read BUFFER_SIZE false 0].
Proof.
  induction k as [|k IH]; intros fuel fil address w Hg Hr Hfuel Hlen;
    (destruct fuel as [|fuel]; [lia|]).
  - unfold exec. rewrite write_file_loop_fault_now by assumption.
    cbn [fst snd Nat.mul replicate app]. rewrite take_0.
    rewrite exec_emit. proj. rewrite requests_app. auto.
  - unfold exec. rewrite (write_file_loop_fault_later fuel k) by assumption.
    cbv zeta.
    set (chunk := take chunk_size (remaining fil)).
    set (w1 := exec (emit (F_read BUFFER_SIZE true
                                  (Z.of_nat (length chunk)))) w).
    assert (Hr1 : write_ready w1 = true) by exact Hr.
    destruct (write_chunk_run chunk address w1 Hr1)
      as (Hv & Hrr & Hf & _ & Hl).
    change (flash w1) with (flash w) in Hf.
    change (log w1)
      with (log w ++ [F_read BUFFER_SIZE true (Z.of_nat (length chunk))])
      in Hl.
    unfold exec in Hrr, Hf, Hl.
    pose proof chunk_size_Z as HcZ. pose proof chunk_size_pos as Hpos.
    cbn [Nat.mul] in Hlen.
    assert (Hc : length chunk = chunk_size)
      by (unfold chunk; rewrite length_take; lia).
    destruct (Z.ltb_spec (Z.of_nat (length chunk)) BUFFER_SIZE) as [Hlt|Hge];
      [lia|].
    set (fil' := mkFIL (fdata fil) (fptr fil + length chunk) (Some k)).
    assert (Hrem' : remaining fil' = drop chunk_size (remaining fil))
      by apply remaining_advance_any.
    rewrite Hv.
    destruct (IH fuel fil' (addr_after (length chunk) address)
                (snd (write_chunk chunk address w1)) eq_refl Hrr)
      as (Hv2 & Hrr2 & Hf2 & Hreq2).
    { lia. }
    { rewrite Hrem', length_drop. lia. }
    unfold exec in Hrr2, Hf2, Hreq2.
    rewrite Hv2, Hrr2, Hf2, Hreq2, Hf, Hl, Hrem'.
    rewrite !requests_app. unfold requests at 3.
    rewrite (filter_none _ _ _ (program_events_pin_events _ _)
               pin_event_not_request).
    cbn [Nat.mul]. rewrite <- (take_take_drop (remaining fil) chunk_size).
    fold chunk. rewrite program_chip_app, addr_after_add, Hc, HcZ.
    cbn [replicate requests List.filter is_request].
    rewrite !app_nil_r, <- !app_assoc. cbn [app]. auto.
Qed.

Lemma verify_file_loop_fault_now (fuel : nat) (fil : FIL)
      (address errors : Z) (w : world) :
  fgood fil = Some O ->
  verify_file_loop (S fuel) fil address errors w
  = (Some (address, errors), exec (emit (F_read BUFFER_SIZE false 0)) w).
Proof.
  intros Hg. cbn [verify_file_loop]. rewrite f_read_fault_now by assumption.
  reflexivity.
Qed.

Lemma verify_file_loop_fault_later (fuel k : nat) (fil : FIL)
      (address errors : Z) (w : world) :
  fgood fil = Some (S k) ->
  verify_file_loop (S fuel) fil address errors w
  = let chunk := take chunk_size (remaining fil) in
    let r := verify_chunk chunk address errors
               (exec (emit (F_read BUFFER_SIZE true
                                   (Z.of_nat (length chunk)))) w) in
    if Z.of_nat (length chunk) <? BUFFER_SIZE then (Some (fst r), snd r)
    else verify_file_loop fuel
           (mkFIL (fdata fil) (fptr fil + length chunk) (Some k))
           (fst (fst r)) (snd (fst r)) (snd r).
Proof.
  intros Hg. cbn [verify_file_loop].
  rewrite (f_read_fault_later fil k) by assumption.
  cbv zeta. rewrite !bind_run. cbn [fst].
  destruct (Z.of_nat (length (take chunk_size (remaining fil)))
            <? BUFFER_SIZE).
  - unfold ret, exec. destruct (verify_chunk _ _ _ _); reflexivity.
  - reflexivity.
Qed.

Lemma verify_file_loop_fault (k : nat) :
  forall (fuel : nat) (fil : FIL) (address errors : Z) (w : world),
  fgood fil = Some k -> read_ready w = true -> (k < fuel)%nat ->
  (k * chunk_size <= length (remaining fil))%nat ->
  fst (verify_file_loop fuel fil address errors w)
  = Some (addr_after (k * chunk_size) address,
          errors
          + Z.of_nat (length (mismatches (flash w)
                       (map byte_val (take (k * chunk_size) (remaining fil)))
                       address)))
  /\ read_ready (exec (verify_file_loop fuel fil address errors) w) = true
  /\ flash (exec (verify_file_loop fuel fil address errors) w) = flash w
  /\ requests (log (exec (verify_file_loop fuel fil address errors) w))
     = requests (log w)
       ++ replicate k (F_read BUFFER_SIZE true BUFFER_SIZE)
       ++ [F_read BUFFER_SIZE false 0].
Proof.
  induction k as [|k IH]; intros fuel fil address errors w Hg Hr Hfuel Hlen;
    (destruct fuel as [|fuel]; [lia|]).
  - unfold exec. rewrite verify_file_loop_fault_now by assumption.
    cbn [fst snd Nat.mul replicate app]. rewrite take_0.
    rewrite exec_emit. proj. rewrite requests_app.
    cbn [map mismatches length Z.of_nat]. rewrite Z.add_0_r. auto.
  - unfold exec. rewrite (verify_file_loop_fault_later fuel k) by assumption.
    cbv zeta.
    set (chunk := take chunk_size (remaining fil)).
    set (w1 := exec (emit (F_read BUFFER_SIZE true
                                  (Z.of_nat (length chunk)))) w).
    assert (Hr1 : read_ready w1 = true) by exact Hr.
    rewrite verify_chunk_scan.
    destruct (scan_run (map byte_val chunk) address errors w1 Hr1)
      as (Hv & Hrr & Hf & Hl).
    change (flash w1) with (flash w) in Hv, Hf, Hl.
    change (log w1)
      with (log w ++ [F_read BUFFER_SIZE true (Z.of_nat (length chunk))])
      in Hl.
    unfold exec in Hrr, Hf, Hl. rewrite length_map in Hv.
    pose proof chunk_size_Z as HcZ. pose proof chunk_size_pos as Hpos.
    cbn [Nat.mul] in Hlen.
    assert (Hc : length chunk = chunk_size)
      by (unfold chunk; rewrite length_take; lia).
    destruct (Z.ltb_spec (Z.of_nat (length chunk)) BUFFER_SIZE) as [Hlt|Hge];
      [lia|].
    set (fil' := mkFIL (fdata fil) (fptr fil + length chunk) (Some k)).
    assert (Hrem' : remaining fil' = drop chunk_size (remaining fil))
      by apply remaining_advance_any.
    rewrite Hv. cbn [fst snd].
    destruct (IH fuel fil' (addr_after (length chunk) address)
                (errors + Z.of_nat (length (mismatches (flash w)
                                              (map byte_val chunk) address)))
                (snd (scan (map byte_val chunk) address errors w1))
                eq_refl Hrr)
      as (Hv2 & Hrr2 & Hf2 & Hreq2).
    { lia. }
    { rewrite Hrem', length_drop. lia. }
    unfold exec in Hrr2, Hf2, Hreq2.
    rewrite Hv2, Hrr2, Hf2, Hreq2, Hf, Hl, Hrem'.
    rewrite !requests_app, scan_events_requests.
    cbn [Nat.mul]. rewrite <- (take_take_drop (remaining fil) chunk_size).
    fold chunk. rewrite map_app, mismatches_app, length_map, length_app.
    rewrite addr_after_add, Hc, HcZ.
    cbn [replicate requests List.filter is_request].
    rewrite !app_nil_r, <- !app_assoc. cbn [app].
    repeat split; try reflexivity. f_equal. f_equal. lia.
Qed.

Lemma chunks_le_length (k n : nat) :
  (k * chunk_size <= n)%nat -> (k < S n)%nat.
Proof. pose proof chunk_size_pos. nia. Qed.

Lemma WriteCurrentFile_fault_run (data : list byte) (k : nat) (w : world) :
  bus_ready w = true -> (k * chunk_size <= length data)%nat ->
  fst (EEPROM_WriteCurrentFile (faulty_file data k) w)
  = Some (addr_after (k * chunk_size) 0)
  /\ bus_ready (exec (EEPROM_WriteCurrentFile (faulty_file data k)) w) = true
  /\ flash (exec (EEPROM_WriteCurrentFile (faulty_file data k)) w)
     = program_chip (flash w) (take (k * chunk_size) data) 0
  /\ requests (log (exec (EEPROM_WriteCurrentFile (faulty_file data k)) w))
     = requests (log w)
       ++ replicate k (F_read BUFFER_SIZE true BUFFER_SIZE)
       ++ [F_read BUFFER_SIZE false 0].
Proof.
  intros Hb Hk. unfold EEPROM_WriteCurrentFile, exec. rewrite !bind_exec.
  set (w0 := exec (oledDisplayMessages _ _ _ _ _) w).
  assert (Hb0 : bus_ready w0 = true) by exact Hb.
  pose proof (setWriteMode_ready w0 Hb0) as Hr.
  pose proof (setWriteMode_exec w0 Hb0) as Hw1.
  set (w1 := exec setWriteMode w0) in *.
  destruct (write_file_loop_fault k (S (length data)) (faulty_file data k) 0
              w1 eq_refl Hr)
    as (Hv & Hrr & Hf & Hreq).
  { apply chunks_le_length. exact Hk. }
  { exact Hk. }
  change (remaining (faulty_file data k)) with data in *.
  cbn [fdata faulty_file]. rewrite Hv. cbn [fst snd].
  rewrite !bind_exec. unfold sleep_ms. cbn [fst snd ret].
  rewrite !exec_emit. proj.
  rewrite !requests_app, Hf, Hreq.
  apply write_ready_bus_ready in Hrr.
  split; [reflexivity|]. split; [exact Hrr|].
  rewrite Hw1. proj.
  change (flash w0) with (flash w).
  change (log w0)
    with (log w ++ [Oled "Writing File" "to EEPROM" "now..." "" ""]).
  rewrite !requests_app. unfold requests at 3.
  rewrite (filter_none _ _ _ setWriteMode_events_pin_events
             pin_event_not_request).
  cbn [requests List.filter is_request].
  rewrite !app_nil_r. auto.
Qed.

Lemma ReadAndVerify_fault_run (data : list byte) (k : nat) (w : world) :
  bus_ready w = true -> (k * chunk_size <= length data)%nat ->
  fst (EEPROM_ReadAndVerify (faulty_file data k) w)
  = Some (addr_after (k * chunk_size) 0,
          Z.of_nat (length (mismatches (flash w)
                              (map byte_val (take (k * chunk_size) data)) 0)))
  /\ bus_ready (exec (EEPROM_ReadAndVerify (faulty_file data k)) w) = true
  /\ flash (exec (EEPROM_ReadAndVerify (faulty_file data k)) w) = flash w
  /\ requests (log (exec (EEPROM_ReadAndVerify (faulty_file data k)) w))
     = requests (log w)
       ++ replicate k (F_read BUFFER_SIZE true BUFFER_SIZE)
       ++ [F_read BUFFER_SIZE false 0].
Proof.
  intros Hb Hk. unfold EEPROM_ReadAndVerify, exec. rewrite !bind_exec.
  set (w0 := exec (oledDisplayMessages _ _ _ _ _) w).
  assert (Hb0 : bus_ready w0 = true) by exact Hb.
  pose proof (setReadMode_ready w0 Hb0) as Hr.
  pose proof (setReadMode_exec w0 Hb0) as Hw1.
  set (w1 := exec setReadMode w0) in *.
  destruct (verify_file_loop_fault k (S (length data)) (faulty_file data k)
              0 0 w1 eq_refl Hr)
    as (Hv & Hrr & Hf & Hreq).
  { apply chunks_le_length. exact Hk. }
  { exact Hk. }
  change (remaining (faulty_file data k)) with data in *.
  cbn [fdata faulty_file]. rewrite Hv. cbn [fst snd].
  rewrite !bind_exec. cbn [fst snd ret].
  rewrite !exec_emit. proj.
  rewrite !requests_app, Hf, Hreq.
  apply read_ready_bus_ready in Hrr.
  rewrite Z.add_0_l. split; [|split; [exact Hrr|]].
  { rewrite Hw1. reflexivity. }
  rewrite Hw1. proj.
  change (flash w0) with (flash w).
  change (log w0)
    with (log w ++ [Oled "Reading file" "from EEPROM" "now..." "" ""]).
  rewrite !requests_app. unfold requests at 3.
  rewrite (filter_none _ _ _ (setReadMode_events_pin_events _)
             pin_event_not_request).
  cbn [requests List.filter is_request].
  rewrite !app_nil_r. auto.
Qed.

(** X4: when the medium faults on read [k+1], the program loop has written
    exactly the first [k] chunks of the file, byte [i] at address [i], and
    ends like a complete run, with the cursor at [k * 1024]; the fault is not
    signalled. *)
Theorem X4_program_stops_at_fault (data : list byte) (k : nat) (w : world) :
  bus_ready w = true -> (k * chunk_size <= length data)%nat ->
  Z.of_nat (k * chunk_size) < 2 ^ 32 ->
  fst (EEPROM_WriteCurrentFile (faulty_file data k) w)
  = Some (Z.of_nat (k * chunk_size))
  /\ cycles (flash (exec (EEPROM_WriteCurrentFile (faulty_file data k)) w))
     = cycles (flash w) ++ written 0 (take (k * chunk_size) data)
  /\ requests (log (exec (EEPROM_WriteCurrentFile (faulty_file data k)) w))
     = requests (log w)
       ++ replicate k (F_read BUFFER_SIZE true BUFFER_SIZE)
       ++ [F_read BUFFER_SIZE false 0].
Proof.
  intros Hb Hk Hlen.
  destruct (WriteCurrentFile_fault_run data k w Hb Hk) as (Hv & _ & Hf & Hq).
  rewrite addr_after_small in Hv by lia. rewrite Z.add_0_l in Hv.
  split; [exact Hv|]. split; [|exact Hq].
  rewrite Hf. change 0 with (Z.of_nat 0) at 1.
  apply program_chip_cycles. rewrite length_take. cbn [Z.of_nat]. lia.
Qed.

Lemma X4_witness :
  bus_ready (ready ∅) = true
  /\ (1 * chunk_size <= length (replicate 1500 xff))%nat
  /\ Z.of_nat (1 * chunk_size) < 2 ^ 32
  /\ fst (EEPROM_WriteCurrentFile (faulty_file (replicate 1500 xff) 1)
                                  (ready ∅))
     = Some (Z.of_nat (1 * chunk_size)).
Proof.
  split; [vm_compute; reflexivity|]. split; [vm_compute; lia|].
  split; [vm_compute; reflexivity|].
  refine (proj1 (X4_program_stops_at_fault (replicate 1500 xff) 1 (ready ∅)
                   _ _ _)).
  - vm_compute; reflexivity.
  - vm_compute; lia.
  - vm_compute; reflexivity.
Defined.

(** X5: when the medium faults on read [k+1], the verify loop has compared
    exactly the first [k] chunks; it returns their mismatch count with the
    cursor at [k * 1024] and leaves the chip as it was.  In particular a file
    whose first read faults verifies with cursor 0 and 0 errors. *)
Theorem X5_verify_stops_at_fault (data : list byte) (k : nat) (w : world) :
  bus_ready w = true -> (k * chunk_size <= length data)%nat ->
  Z.of_nat (k * chunk_size) < 2 ^ 31 ->
  fst (EEPROM_ReadAndVerify (faulty_file data k) w)
  = Some (Z.of_nat (k * chunk_size),
          Z.of_nat (length (differing (flash w) 0
                                      (take (k * chunk_size) data))))
  /\ fst (EEPROM_ReadAndVerify (faulty_file data 0) w) = Some (0, 0)
  /\ flash (exec (EEPROM_ReadAndVerify (faulty_file data k)) w) = flash w.
Proof.
  intros Hb Hk Hlen.
  assert (Hlen32 : Z.of_nat (k * chunk_size) < 2 ^ 32).
  { change (2 ^ 31) with 2147483648 in Hlen.
    change (2 ^ 32) with 4294967296. lia. }
  destruct (ReadAndVerify_fault_run data k w Hb Hk) as (Hv & _ & Hf & _).
  destruct (ReadAndVerify_fault_run data 0 w Hb (Nat.le_0_l _))
    as (Hv0 & _).
  rewrite addr_after_small in Hv by lia. rewrite Z.add_0_l in Hv.
  change 0 with (Z.of_nat 0) in Hv at 1.
  rewrite mismatches_differing in Hv
    by (rewrite length_take; cbn [Z.of_nat]; lia).
  split; [exact Hv|]. split; [exact Hv0|exact Hf].
Qed.

Lemma X5_witness :
  bus_ready (ready ∅) = true
  /\ (1 * chunk_size <= length (replicate 1500 xff))%nat
  /\ Z.of_nat (1 * chunk_size) < 2 ^ 31
  /\ flash (exec (EEPROM_ReadAndVerify (faulty_file (replicate 1500 xff) 1))
                 (ready ∅)) = flash (ready ∅).
Proof.
  split; [vm_compute; reflexivity|]. split; [vm_compute; lia|].
  split; [vm_compute; reflexivity|].
  refine (proj2 (proj2 (X5_verify_stops_at_fault (replicate 1500 xff) 1
                          (ready ∅) _ _ _))).
  - vm_compute; reflexivity.
  - vm_compute; lia.
  - vm_compute; reflexivity.
Defined.

(** ** The bus operations on arbitrary arguments *)

(** X6: with the shift-register pins configured as outputs, [shiftAddress]
    leaves the low 24 bits of its argument in the chain and on its latched
    outputs, so the chip's 19 address lines carry [addr mod 2^19]; it changes
    no pin but data, latch and clock, no pin direction, and nothing in the
    chip. *)
Theorem X6_shiftAddress_latches_low_bits (addr : Z) (w : world) :
  outputs (gpio_oe w) bus_pins = true ->
  addr_bus (exec (shiftAddress addr) w) = addr mod 2 ^ 24
  /\ shift_reg (exec (shiftAddress addr) w) = addr mod 2 ^ 24
  /\ chip_address (addr_bus (exec (shiftAddress addr) w)) = addr mod 2 ^ 19
  /\ flash (exec (shiftAddress addr) w) = flash w
  /\ gpio_oe (exec (shiftAddress addr) w) = gpio_oe w
  /\ (forall q, q <> DATA_PIN_NUMBER -> q <> LATCH_PIN_NUMBER ->
                q <> CLOCK_PIN_NUMBER ->
        Z.testbit (gpio_out (exec (shiftAddress addr) w)) q
        = Z.testbit (gpio_out w) q).
Proof.
  intros Hb. apply bus_pins_elim in Hb. destruct Hb as (Ho2 & Ho3 & Ho4 & _).
  rewrite shiftAddress_exec. proj. unfold shifted_value.
  rewrite Ho2, Ho3, Ho4. rewrite chip_address_mod.
  rewrite Z.land_ones by lia. repeat split.
  intros q H2 H3 H4. apply shiftAddress_out_other; assumption.
Qed.

Lemma X6_witness :
  outputs (gpio_oe (ready ∅)) bus_pins = true
  /\ addr_bus (exec (shiftAddress 0x1234567) (ready ∅)) = 0x1234567 mod 2 ^ 24.
Proof.
  split; [vm_compute; reflexivity|].
  refine (proj1 (X6_shiftAddress_latches_low_bits 0x1234567 (ready ∅) _)).
  vm_compute; reflexivity.
Defined.

Lemma write_out_ctrl (address data out : Z) :
  Z.testbit (write_out address data out) CHIP_ENABLE_PIN = true
  /\ Z.testbit (write_out address data out) OUTPUT_ENABLE_PIN = true
  /\ Z.testbit (write_out address data out) WRITE_ENABLE_PIN = true.
Proof.
  unfold write_out. rewrite !testbit_set_bit by discriminate.
  change (OUTPUT_ENABLE_PIN =? CHIP_ENABLE_PIN) with false.
  change (OUTPUT_ENABLE_PIN =? WRITE_ENABLE_PIN) with false.
  rewrite !Z.eqb_refl. cbv iota.
  rewrite ctrl_after_data by (reflexivity || discriminate).
  rewrite !testbit_set_bit by discriminate.
  change (OUTPUT_ENABLE_PIN =? CHIP_ENABLE_PIN) with false.
  change (OUTPUT_ENABLE_PIN =? WRITE_ENABLE_PIN) with false.
  rewrite Z.eqb_refl. auto.
Qed.

(** X7: in write mode one call of [write] makes the chip see exactly one
    write cycle, at the address taken modulo 2^19 with the data taken modulo
    256, whatever integers are passed; afterwards /CE, /WE and /OE are high
    again and the bus is still in write mode. *)
Theorem X7_write_one_truncated_cycle (address data : Z) (w : world) :
  write_ready w = true ->
  cycles (flash (exec (write address data) w))
  = cycles (flash w) ++ [(address mod 2 ^ 19, data mod 256)]
  /\ Z.testbit (gpio_out (exec (write address data) w)) CHIP_ENABLE_PIN = true
  /\ Z.testbit (gpio_out (exec (write address data) w)) OUTPUT_ENABLE_PIN
     = true
  /\ Z.testbit (gpio_out (exec (write address data) w)) WRITE_ENABLE_PIN
     = true
  /\ write_ready (exec (write address data) w) = true.
Proof.
  intros Hr. split; [|split; [|split; [|split]]].
  - rewrite write_exec by assumption. proj.
    rewrite cycles_bus_write, chip_address_mod.
    change 255 with (Z.ones 8). rewrite Z.land_ones by lia. reflexivity.
  - rewrite write_exec by assumption. apply write_out_ctrl.
  - rewrite write_exec by assumption. apply write_out_ctrl.
  - rewrite write_exec by assumption. apply write_out_ctrl.
  - apply write_keeps_ready. assumption.
Qed.

Lemma X7_witness :
  write_ready (exec setWriteMode (ready ∅)) = true
  /\ cycles (flash (exec (write 0x80001 0x1FF) (exec setWriteMode (ready ∅))))
     = cycles (flash (exec setWriteMode (ready ∅)))
       ++ [(0x80001 mod 2 ^ 19, 0x1FF mod 256)].
Proof.
  split; [vm_compute; reflexivity|].
  refine (proj1 (X7_write_one_truncated_cycle 0x80001 0x1FF
                   (exec setWriteMode (ready ∅)) _)).
  vm_compute; reflexivity.
Defined.

Lemma land_255_range (v : Z) : 0 <= Z.land v 255 <= 255.
Proof.
  change 255 with (Z.ones 8) at 1 2. rewrite Z.land_ones by lia.
  pose proof (Z.mod_pos_bound v (2 ^ 8)) as H.
  change (2 ^ 8) with 256 in *. lia.
Qed.

(** X8: in read mode [EEPROM_readByte] returns the low eight bits of the
    cell at the address taken modulo 2^19; the result lies in 0..255; the
    read changes nothing in the chip and leaves the bus in read mode, so a
    second read of the same address returns the same byte. *)
Theorem X8_readByte_value (address : Z) (w : world) :
  read_ready w = true ->
  fst (EEPROM_readByte address w)
  = Z.land (mem_read (mem (flash w)) (address mod 2 ^ 19)) 255
  /\ 0 <= fst (EEPROM_readByte address w) <= 255
  /\ flash (exec (EEPROM_readByte address) w) = flash w
  /\ read_ready (exec (EEPROM_readByte address) w) = true
  /\ fst (EEPROM_readByte address (exec (EEPROM_readByte address) w))
     = fst (EEPROM_readByte address w).
Proof.
  intros Hr.
  pose proof (readByte_keeps_ready address w Hr) as Hr'.
  rewrite (readByte_value address (exec (EEPROM_readByte address) w))
    by exact Hr'.
  rewrite readByte_flash by exact Hr.
  rewrite readByte_value by exact Hr.
  unfold chip_byte. rewrite chip_address_mod.
  repeat split; try assumption; apply land_255_range.
Qed.

Lemma X8_witness :
  read_ready (exec setReadMode (ready scenario_corrupted)) = true
  /\ fst (EEPROM_readByte 0x80002
                          (exec setReadMode (ready scenario_corrupted)))
     = Z.land (mem_read (mem (flash (exec setReadMode
                                            (ready scenario_corrupted))))
                        (0x80002 mod 2 ^ 19)) 255.
Proof.
  split; [vm_compute; reflexivity|].
  refine (proj1 (X8_readByte_value 0x80002
                   (exec setReadMode (ready scenario_corrupted)) _)).
  vm_compute; reflexivity.
Defined.

(** ** The mode switches *)

Lemma wm_out_spec (out q : Z) :
  Z.testbit (wm_out data_pins out) q
  = if is_data_pin q then false else Z.testbit out q.
Proof.
  unfold data_pins, is_data_pin. cbn [wm_out].
  rewrite !testbit_set_bit by discriminate.
  unfold D0_PIN, D1_PIN, D2_PIN, D3_PIN, D4_PIN, D5_PIN, D6_PIN, D7_PIN.
  cmp_prune; reflexivity.
Qed.

Lemma data_bus_zero (out oe : Z) :
  (forall k, 0 <= k < 8 -> pad out oe (D0_PIN + k) = false) ->
  data_bus out oe = 0.
Proof.
  intros H. apply Z.bits_inj'. intros k Hk.
  rewrite data_bus_spec, Z.bits_0.
  destruct (Z.ltb_spec k 8); [|cmp_prune; reflexivity].
  rewrite H by lia. apply andb_false_r.
Qed.

Lemma setWriteMode_out_data (out k : Z) :
  0 <= k < 8 -> Z.testbit (setWriteMode_out out) (D0_PIN + k) = false.
Proof.
  intros Hk. unfold setWriteMode_out.
  rewrite !testbit_set_bit by discriminate. rewrite wm_out_spec.
  unfold is_data_pin, D0_PIN, D7_PIN, WRITE_ENABLE_PIN, CHIP_ENABLE_PIN,
    OUTPUT_ENABLE_PIN.
  cmp_prune; reflexivity.
Qed.

(** X9: from a configured bus with /WE high, [setWriteMode] ends in write
    mode: the eight data pins are outputs and drive 0x00, /OE, /CE and /WE
    are high; the chip sees no write cycle and the address on the bus
    stays. *)
Theorem X9_setWriteMode_enters_write_mode (w : world) :
  bus_ready w = true ->
  write_ready (exec setWriteMode w) = true
  /\ data_bus (gpio_out (exec setWriteMode w)) (gpio_oe (exec setWriteMode w))
     = 0
  /\ Z.testbit (gpio_out (exec setWriteMode w)) OUTPUT_ENABLE_PIN = true
  /\ Z.testbit (gpio_out (exec setWriteMode w)) CHIP_ENABLE_PIN = true
  /\ flash (exec setWriteMode w) = flash w
  /\ addr_bus (exec setWriteMode w) = addr_bus w.
Proof.
  intros Hb. split; [apply setWriteMode_ready; assumption|].
  rewrite setWriteMode_exec by assumption. proj.
  split; [|split; [|split; [|split; reflexivity]]].
  - apply data_bus_zero. intros k Hk. unfold pad.
    rewrite setWriteMode_out_data by assumption. apply andb_false_r.
  - unfold setWriteMode_out. rewrite !testbit_set_bit by discriminate.
    reflexivity.
  - unfold setWriteMode_out. rewrite !testbit_set_bit by discriminate.
    reflexivity.
Qed.

Lemma X9_witness :
  bus_ready (exec setReadMode (ready ∅)) = true
  /\ write_ready (exec setWriteMode (exec setReadMode (ready ∅))) = true.
Proof.
  split; [vm_compute; reflexivity|].
  refine (proj1 (X9_setWriteMode_enters_write_mode
                   (exec setReadMode (ready ∅)) _)).
  vm_compute; reflexivity.
Defined.

Lemma rm_out_inputs (pins : list Z) : forall out oe : Z,
  inputs oe pins = true -> forallb is_data_pin pins = true ->
  rm_out pins out oe = out.
Proof.
  induction pins as [|p rest IH]; intros out oe Hi Hp; [reflexivity|].
  unfold inputs in Hi. cbn [forallb] in Hi, Hp.
  apply andb_true_iff in Hi. destruct Hi as [Hi Hrest].
  apply andb_true_iff in Hp. destruct Hp as [Hp Hprest].
  apply negb_true_iff in Hi. cbn [rm_out]. rewrite Hi.
  apply IH; [|assumption].
  unfold inputs. rewrite forallb_forall in Hrest |- *.
  intros x Hx. rewrite testbit_set_bit
    by (apply data_pin_plain in Hp; tauto).
  destruct (x =? p); [reflexivity | apply Hrest; assumption].
Qed.

Lemma set_bit_same (r p : Z) (v : bool) :
  0 <= p -> Z.testbit r p = v -> set_bit r p v = r.
Proof.
  intros Hp Hv. apply Z.bits_inj'. intros k Hk.
  rewrite testbit_set_bit by assumption.
  destruct (Z.eqb_spec k p); subst; reflexivity.
Qed.

Lemma mode_oe_twice (oe : Z) (v : bool) :
  mode_oe data_pins (mode_oe data_pins oe v) v = mode_oe data_pins oe v.
Proof.
  apply Z.bits_inj'. intros k Hk. rewrite !mode_oe_spec.
  destruct (is_data_pin k); reflexivity.
Qed.

(** X10: from a configured bus with /WE high, [setReadMode] ends in read
    mode (data pins inputs, /WE high, /OE and /CE low) without a write cycle
    reaching the chip and without moving the address; run a second time it
    changes no pin and no direction. *)
Theorem X10_setReadMode_enters_read_mode (w : world) :
  bus_ready w = true ->
  read_ready (exec setReadMode w) = true
  /\ flash (exec setReadMode w) = flash w
  /\ addr_bus (exec setReadMode w) = addr_bus w
  /\ gpio_out (exec setReadMode (exec setReadMode w))
     = gpio_out (exec setReadMode w)
  /\ gpio_oe (exec setReadMode (exec setReadMode w))
     = gpio_oe (exec setReadMode w).
Proof.
  intros Hb.
  pose proof (setReadMode_ready w Hb) as Hr.
  pose proof (read_ready_bus_ready _ Hr) as Hb'.
  split; [exact Hr|].
  rewrite (setReadMode_exec (exec setReadMode w)) by exact Hb'. proj.
  apply read_ready_elim in Hr. destruct Hr as (_ & Hi & H28 & H27 & H26).
  rewrite setReadMode_exec in * by exact Hb. proj.
  cbn [gpio_out gpio_oe] in Hi, H28, H27, H26.
  split; [reflexivity|]. split; [reflexivity|]. split.
  - unfold setReadMode_out at 1.
    rewrite rm_out_inputs by (assumption || reflexivity).
    rewrite !set_bit_same; try discriminate; try reflexivity.
    + exact H28.
    + rewrite set_bit_same by (discriminate || exact H28). exact H27.
    + rewrite !set_bit_same; try discriminate; try assumption.
      rewrite set_bit_same by (discriminate || exact H28). exact H27.
  - apply mode_oe_twice.
Qed.

Lemma X10_witness :
  bus_ready (exec setWriteMode (ready ∅)) = true
  /\ read_ready (exec setReadMode (exec setWriteMode (ready ∅))) = true.
Proof.
  split; [vm_compute; reflexivity|].
  refine (proj1 (X10_setReadMode_enters_read_mode
                   (exec setWriteMode (ready ∅)) _)).
  vm_compute; reflexivity.
Defined.

(** ** Erase, then check *)

Lemma bus_ready_emit (e : event) (w : world) :
  bus_ready (exec (emit e) w) = bus_ready w.
Proof. reflexivity. Qed.

Lemma chipErase_bus_ready (w : world) :
  bus_ready w = true -> bus_ready (exec EEPROM_chipErase w) = true.
Proof.
  intros Hb. unfold EEPROM_chipErase, printf, sleep_ms.
  rewrite <- (oled_bus_ready "Erasing" "EEPROM" "now..." "" "") in Hb.
  pose proof (setWriteMode_ready _ Hb) as Hr0.
  pose proof (write_keeps_ready 0x5555 0xAA _ Hr0) as Hr1.
  pose proof (write_keeps_ready 0x2AAA 0x55 _ Hr1) as Hr2.
  pose proof (write_keeps_ready 0x5555 0x80 _ Hr2) as Hr3.
  pose proof (write_keeps_ready 0x5555 0xAA _ Hr3) as Hr4.
  pose proof (write_keeps_ready 0x2AAA 0x55 _ Hr4) as Hr5.
  pose proof (write_keeps_ready 0x5555 0x10 _ Hr5) as Hr6.
  rewrite !exec_bind.
  rewrite bus_ready_emit, oled_bus_ready, bus_ready_emit.
  apply write_ready_bus_ready. exact Hr6.
Qed.

Lemma VerifyErased_keeps (w : world) :
  bus_ready w = true ->
  flash (exec EEPROM_VerifyErased w) = flash w
  /\ bus_ready (exec EEPROM_VerifyErased w) = true.
Proof.
  intros Hb. unfold EEPROM_VerifyErased, exec. rewrite !bind_exec.
  set (w0 := exec (oledDisplayMessages _ _ _ _ _) w).
  assert (Hb0 : bus_ready w0 = true) by exact Hb.
  pose proof (setReadMode_ready w0 Hb0) as Hr.
  pose proof (setReadMode_flash w0 Hb0) as Hf0.
  set (w1 := exec setReadMode w0) in *.
  generalize (Z.to_nat MAX_EEPROM_ADDRESS_SPACE). intros n.
  destruct (scan_run (replicate n 255) 0 0 w1 Hr) as (_ & Hrr & Hf & _).
  assert (He : exec (verifyErased_loop n 0 0) w1
               = exec (scan (replicate n 255) 0 0) w1)
    by (unfold exec; rewrite verifyErased_loop_scan; reflexivity).
  cbn [snd ret]. rewrite flash_emit, bus_ready_emit, He, Hf, Hf0.
  split; [reflexivity|]. apply read_ready_bus_ready. exact Hrr.
Qed.

Lemma VerifyErased_result (w : world) :
  bus_ready w = true ->
  fst (EEPROM_VerifyErased w)
  = (MAX_EEPROM_ADDRESS_SPACE, not_erased (flash w)).
Proof.
  intros Hb. unfold EEPROM_VerifyErased, not_erased.
  assert (Hn : Z.of_nat (Z.to_nat MAX_EEPROM_ADDRESS_SPACE)
               = MAX_EEPROM_ADDRESS_SPACE) by (apply Z2Nat.id; discriminate).
  assert (Hmax : MAX_EEPROM_ADDRESS_SPACE < 2 ^ 32) by reflexivity.
  generalize dependent (Z.to_nat MAX_EEPROM_ADDRESS_SPACE). intros n Hn.
  rewrite !bind_exec.
  set (w0 := exec (oledDisplayMessages _ _ _ _ _) w).
  assert (Hb0 : bus_ready w0 = true) by exact Hb.
  pose proof (setReadMode_ready w0 Hb0) as Hr.
  pose proof (setReadMode_flash w0 Hb0) as Hf0.
  set (w1 := exec setReadMode w0) in *.
  destruct (scan_run (replicate n 255) 0 0 w1 Hr) as (Hv & _).
  rewrite Hf0 in Hv. change (flash w0) with (flash w) in Hv.
  rewrite mismatches_const in Hv by lia.
  rewrite length_replicate, addr_after_small in Hv by lia.
  rewrite Hn in Hv. cbn [Z.add] in Hv.
  rewrite verifyErased_loop_scan, Hv. reflexivity.
Qed.

Lemma filter_all_false {A} (f : A -> bool) (l : list A) :
  (forall x, f x = false) -> List.filter f l = [].
Proof.
  intros H. induction l as [|x l IH]; [reflexivity|].
  cbn [List.filter]. rewrite H. exact IH.
Qed.

Lemma not_erased_empty (c : chip) : mem c = ∅ -> not_erased c = 0.
Proof.
  intros Hm. unfold not_erased. rewrite filter_all_false; [reflexivity|].
  intros a. unfold differs, read_back, chip_byte, mem_read.
  rewrite Hm, lookup_empty. reflexivity.
Qed.

(** X11: after [EEPROM_chipErase], started with the chip's command decoder
    idle, [EEPROM_VerifyErased] scans all 2^19 addresses and counts 0
    errors, whatever the chip held before. *)
Theorem X11_erase_then_verifyErased (w : world) :
  bus_ready w = true -> cmd (flash w) = Cmd_idle ->
  fst (EEPROM_VerifyErased (exec EEPROM_chipErase w))
  = (MAX_EEPROM_ADDRESS_SPACE, 0)
  /\ mem (flash (exec EEPROM_chipErase w)) = ∅.
Proof.
  intros Hb Hc.
  destruct (chipErase_erases w Hb Hc) as [Hm _].
  pose proof (chipErase_bus_ready w Hb) as Hb'.
  rewrite (VerifyErased_result _ Hb'), not_erased_empty by exact Hm. auto.
Qed.

Lemma X11_witness :
  bus_ready (ready scenario_corrupted) = true
  /\ cmd (flash (ready scenario_corrupted)) = Cmd_idle
  /\ fst (EEPROM_VerifyErased (exec EEPROM_chipErase
                                    (ready scenario_corrupted)))
     = (MAX_EEPROM_ADDRESS_SPACE, 0).
Proof.
  split; [vm_compute; reflexivity|]. split; [vm_compute; reflexivity|].
  refine (proj1 (X11_erase_then_verifyErased (ready scenario_corrupted) _ _));
    vm_compute; reflexivity.
Defined.

(** ** What programming and verifying do to the chip *)

(** X12: programming a file of at most 2^19 bytes, with the chip's command
    decoder idle, stores byte [i] of the file in cell [i] and leaves every
    cell from the file length on as it was; the decoder is idle again. *)
Theorem X12_program_stores_file (data : list byte) (w : world) :
  bus_ready w = true -> cmd (flash w) = Cmd_idle ->
  Z.of_nat (length data) <= 2 ^ 19 ->
  (forall (i : nat) (b : byte), data !! i = Some b ->
     mem_read (mem (flash (exec (EEPROM_WriteCurrentFile (open_file data)) w)))
              (Z.of_nat i) = byte_val b)
  /\ (forall a : Z, Z.of_nat (length data) <= a ->
        mem_read (mem (flash (exec (EEPROM_WriteCurrentFile (open_file data))
                                   w))) a
        = mem_read (mem (flash w)) a)
  /\ cmd (flash (exec (EEPROM_WriteCurrentFile (open_file data)) w))
     = Cmd_idle.
Proof.
  intros Hb Hidle Hlen.
  destruct (WriteCurrentFile_run data w Hb) as (_ & _ & Hf & _).
  destruct (program_chip_idle data (flash w) 0 Hidle) as [Hi Hm].
  rewrite Hf, Hi, Hm. split; [|split; [|reflexivity]].
  - intros i b Hib.
    pose proof (program_mem_lookup data (mem (flash w)) 0 i b) as Hlk.
    rewrite !Z.add_0_l in Hlk. apply Hlk; (assumption || lia).
  - intros a Ha. apply program_mem_other; lia.
Qed.

Lemma X12_witness :
  bus_ready (ready scenario_corrupted) = true
  /\ cmd (flash (ready scenario_corrupted)) = Cmd_idle
  /\ Z.of_nat (length scenario_source) <= 2 ^ 19
  /\ cmd (flash (exec (EEPROM_WriteCurrentFile (open_file scenario_source))
                      (ready scenario_corrupted))) = Cmd_idle.
Proof.
  split; [vm_compute; reflexivity|]. split; [vm_compute; reflexivity|].
  split; [vm_compute; discriminate|].
  refine (proj2 (proj2 (X12_program_stores_file scenario_source
                          (ready scenario_corrupted) _ _ _)));
    vm_compute; (reflexivity || discriminate).
Defined.



(** ** setup *)

Lemma gpio_oe_emit (e : event) (w : world) :
  gpio_oe (exec (emit e) w) = gpio_oe w.
Proof. reflexivity. Qed.

Lemma gpio_oe_put (p : Z) (v : bool) (w : world) :
  gpio_oe (exec (gpio_put p v) w) = gpio_oe w.
Proof. reflexivity. Qed.

Lemma gpio_out_init (p : Z) (w : world) :
  gpio_out (exec (gpio_init p) w) = set_bit (gpio_out w) p false.
Proof. reflexivity. Qed.

Lemma gpio_oe_init (p : Z) (w : world) :
  gpio_oe (exec (gpio_init p) w) = set_bit (gpio_oe w) p false.
Proof. reflexivity. Qed.

Lemma gpio_out_set_dir (p : Z) (v : bool) (w : world) :
  gpio_out (exec (gpio_set_dir p v) w) = gpio_out w.
Proof. reflexivity. Qed.

Lemma gpio_oe_set_dir (p : Z) (v : bool) (w : world) :
  gpio_oe (exec (gpio_set_dir p v) w) = set_bit (gpio_oe w) p v.
Proof. reflexivity. Qed.

Create Rewrite HintDb regs.
#[local] Hint Rewrite gpio_out_emit gpio_oe_emit gpio_out_put gpio_oe_put
  gpio_out_init gpio_oe_init gpio_out_set_dir gpio_oe_set_dir : regs.

Ltac pin_consts :=
  cbv [DATA_PIN_NUMBER LATCH_PIN_NUMBER CLOCK_PIN_NUMBER WRITE_ENABLE_PIN
       OUTPUT_ENABLE_PIN CHIP_ENABLE_PIN ONBOARD_LED_PIN
       D0_PIN D1_PIN D2_PIN D3_PIN D4_PIN D5_PIN D6_PIN D7_PIN
       Z.eqb Pos.eqb].

(** X14: whatever the state of the pins before, [setup] leaves the six bus
    pins and the LED pin as outputs, the eight data pins as inputs, /WE and
    /OE high and /CE low. *)
Theorem X14_setup_configures_pins (w : world) :
  bus_ready (exec setup w) = true
  /\ inputs (gpio_oe (exec setup w)) data_pins = true
  /\ Z.testbit (gpio_oe (exec setup w)) ONBOARD_LED_PIN = true
  /\ Z.testbit (gpio_out (exec setup w)) OUTPUT_ENABLE_PIN = true
  /\ Z.testbit (gpio_out (exec setup w)) CHIP_ENABLE_PIN = false.
Proof.
  unfold bus_ready, outputs, inputs, bus_pins, data_pins. cbn [forallb].
  unfold setup. rewrite !exec_bind. autorewrite with regs.
  rewrite !testbit_set_bit by discriminate. pin_consts.
  repeat split.
Qed.

Lemma flash_put_quiet (p : Z) (v : bool) (w : world) :
  strobe (gpio_out w) (gpio_oe w) = false ->
  strobe (set_bit (gpio_out w) p v) (gpio_oe w) = false ->
  flash (exec (gpio_put p v) w) = flash w.
Proof.
  intros H1 H2. unfold exec, gpio_put, hw_update. cbn [snd flash].
  rewrite H1, H2. reflexivity.
Qed.

Lemma flash_init_quiet (p : Z) (w : world) :
  strobe (gpio_out w) (gpio_oe w) = false ->
  strobe (set_bit (gpio_out w) p false) (set_bit (gpio_oe w) p false)
  = false ->
  flash (exec (gpio_init p) w) = flash w.
Proof.
  intros H1 H2. unfold exec, gpio_init, hw_update. cbn [snd flash].
  rewrite H1, H2. reflexivity.
Qed.

Lemma flash_set_dir_quiet (p : Z) (v : bool) (w : world) :
  strobe (gpio_out w) (gpio_oe w) = false ->
  strobe (gpio_out w) (set_bit (gpio_oe w) p v) = false ->
  flash (exec (gpio_set_dir p v) w) = flash w.
Proof.
  intros H1 H2. unfold exec, gpio_set_dir, hw_update. cbn [snd flash].
  rewrite H1, H2. reflexivity.
Qed.

Ltac quiet_side H :=
  autorewrite with regs; unfold strobe, pad;
  rewrite ?testbit_set_bit by discriminate; pin_consts;
  rewrite ?H; bool_close.

Lemma setup_flash (w : world) :
  pad (gpio_out w) (gpio_oe w) OUTPUT_ENABLE_PIN = false ->
  flash (exec setup w) = flash w.
Proof.
  intros H. unfold pad in H. revert H. pin_consts. intros H.
  unfold setup. rewrite !exec_bind.
  repeat match goal with
    | |- flash (exec (emit _) _) = _ => rewrite flash_emit
    | |- flash (exec (gpio_init _) _) = _ =>
        rewrite flash_init_quiet; [| quiet_side H | quiet_side H]
    | |- flash (exec (gpio_set_dir _ _) _) = _ =>
        rewrite flash_set_dir_quiet; [| quiet_side H | quiet_side H]
    | |- flash (exec (gpio_put _ _) _) = _ =>
        rewrite flash_put_quiet; [| quiet_side H | quiet_side H]
    end.
  reflexivity.
Qed.

Lemma setup_bus_ready (w : world) : bus_ready (exec setup w) = true.
Proof.
  unfold bus_ready, outputs, bus_pins. cbn [forallb].
  unfold setup. rewrite !exec_bind. autorewrite with regs.
  rewrite !testbit_set_bit by discriminate. pin_consts.
  reflexivity.
Qed.

(** X15: if /OE is not driven high when [setup] starts (as after a reset,
    when every pin is an input), no write cycle reaches the chip during
    [setup]: cells, command decoder and cycle count are as before. *)
Theorem X15_setup_no_write_cycle (w : world) :
  pad (gpio_out w) (gpio_oe w) OUTPUT_ENABLE_PIN = false ->
  flash (exec setup w) = flash w.
Proof. exact (setup_flash w). Qed.

Lemma X15_witness :
  pad (gpio_out (power_on scenario_corrupted))
      (gpio_oe (power_on scenario_corrupted)) OUTPUT_ENABLE_PIN = false
  /\ flash (exec setup (power_on scenario_corrupted))
     = flash (power_on scenario_corrupted).
Proof.
  split; [reflexivity|].
  apply (X15_setup_no_write_cycle (power_on scenario_corrupted)).
  reflexivity.
Defined.

(** ** The whole routine *)

Lemma bus_with_emit (e : event) (w : world) (c : chip) :
  bus_with w c -> bus_with (exec (emit e) w) c.
Proof. intros H. exact H. Qed.

Lemma bus_with_oled (m1 m2 m3 m4 m5 : string) (w : world) (c : chip) :
  bus_with w c -> bus_with (exec (oledDisplayMessages m1 m2 m3 m4 m5) w) c.
Proof. intros H. exact H. Qed.

Lemma bus_with_off_bus {A} (m : M A) (w : world) (c : chip) :
  off_bus m -> bus_with w c -> bus_with (exec m w) c.
Proof.
  intros Hm [Hb Hf]. split.
  - rewrite off_bus_bus_ready by assumption. exact Hb.
  - destruct (Hm w) as (Hf' & _). rewrite Hf'. exact Hf.
Qed.

Lemma bus_with_chipErase (w : world) (c : chip) :
  bus_with w c -> bus_with (exec EEPROM_chipErase w) (chipErase_chip c).
Proof.
  intros [Hb Hf]. split.
  - apply chipErase_bus_ready. exact Hb.
  - rewrite chipErase_flash by exact Hb. rewrite Hf. reflexivity.
Qed.

Lemma bus_with_VerifyErased (w : world) (c : chip) :
  bus_with w c -> bus_with (exec EEPROM_VerifyErased w) c.
Proof.
  intros [Hb Hf]. destruct (VerifyErased_keeps w Hb) as [Hf' Hb'].
  split; [exact Hb'|]. rewrite Hf'. exact Hf.
Qed.

Lemma bus_with_Write (data : list byte) (w : world) (c : chip) :
  bus_with w c ->
  bus_with (exec (EEPROM_WriteCurrentFile (open_file data)) w)
           (program_chip c data 0).
Proof.
  intros [Hb Hf]. destruct (WriteCurrentFile_run data w Hb)
    as (_ & Hb' & Hf' & _).
  split; [exact Hb'|]. rewrite Hf', Hf. reflexivity.
Qed.

Lemma bus_with_Write_invalid (w : world) (c : chip) :
  bus_with w c ->
  bus_with (exec (EEPROM_WriteCurrentFile invalid_file) w) c.
Proof.
  intros [Hb Hf]. change invalid_file with (faulty_file [] 0).
  destruct (WriteCurrentFile_fault_run [] 0 w Hb (Nat.le_0_l _))
    as (_ & Hb' & Hf' & _).
  split; [exact Hb'|]. rewrite Hf'. exact Hf.
Qed.

Lemma Verify_flash (data : list byte) (w : world) (c : chip) :
  bus_with w c ->
  flash (exec (EEPROM_ReadAndVerify (open_file data)) w) = c.
Proof.
  intros [Hb Hf]. destruct (ReadAndVerify_run data w Hb) as (_ & Hf' & _).
  rewrite Hf'. exact Hf.
Qed.

Lemma Verify_invalid_flash (w : world) (c : chip) :
  bus_with w c ->
  flash (exec (EEPROM_ReadAndVerify invalid_file) w) = c.
Proof.
  intros [Hb Hf]. change invalid_file with (faulty_file [] 0).
  destruct (ReadAndVerify_fault_run [] 0 w Hb (Nat.le_0_l _))
    as (_ & _ & Hf' & _).
  rewrite Hf'. exact Hf.
Qed.

Lemma off_bus_flash {A} (m : M A) (w : world) :
  off_bus m -> flash (exec m w) = flash w.
Proof. intros Hm. destruct (Hm w) as (Hf & _). exact Hf. Qed.

Lemma snd_bind_exec {A B} (m : M A) (k : A -> M B) (w : world) :
  snd (bind m k w) = exec (k (fst (m w))) (exec m w).
Proof. rewrite bind_run. reflexivity. Qed.

(** The chip at the end of the routine, for the file object [fil] that the
    two calls of [SD_openFile] return. *)
Lemma sd_routine_flash (card : sd_card) (fileName : string) (w : world)
      (fil : FIL) (c' : chip -> chip) :
  (forall w0, snd (fst (SD_openFile card fileName w0)) = fil) ->
  bus_ready w = true ->
  (forall w0 c, bus_with w0 c ->
     bus_with (exec (EEPROM_WriteCurrentFile fil) w0) (c' c)) ->
  (forall w0 c, bus_with w0 c ->
     flash (exec (EEPROM_ReadAndVerify fil) w0) = c) ->
  flash (exec (sd_routine card fileName) w)
  = c' (chipErase_chip (flash w)).
Proof.
  intros Hfil Hb Hwrite Hverify.
  assert (H : bus_with w (flash w)) by (split; [exact Hb | reflexivity]).
  unfold sd_routine, printf, sleep_ms. rewrite !exec_bind.
  rewrite !Hfil.
  rewrite !flash_emit, (off_bus_flash SD_unmount) by apply off_bus_SD_unmount.
  rewrite !flash_emit,
    (off_bus_flash (SD_closeFile card)) by apply off_bus_SD_closeFile.
  rewrite !flash_emit.
  apply Hverify.
  apply (bus_with_emit (Printf (String.append
           "Beginning SD Card EEPROM routine!" LF))) in H.
  apply (bus_with_off_bus (SD_init card)) in H; [|apply off_bus_SD_init].
  apply (bus_with_off_bus (SD_mount card)) in H; [|apply off_bus_SD_mount].
  apply (bus_with_off_bus (SD_openFile card fileName)) in H;
    [|apply off_bus_SD_openFile].
  apply (bus_with_oled "Performing" "Chip Erase" "" "" "") in H.
  apply bus_with_chipErase in H.
  apply (bus_with_oled "Chip Erase" "Done!" "" "" "") in H.
  apply (bus_with_emit (Sleep_ms 1000)) in H.
  apply (bus_with_oled "Verifying" "EEPROM" "is" "fully" "erased...") in H.
  apply (bus_with_emit (Sleep_ms 200)) in H.
  apply bus_with_VerifyErased in H.
  apply (bus_with_oled "EEPROM" "is" "fully" "erased!" "") in H.
  apply (bus_with_emit (Sleep_ms 1000)) in H.
  apply (bus_with_oled "Writing data" "from SD card" "to EEPROM..." "" "")
    in H.
  apply Hwrite in H.
  apply (bus_with_oled "Done" " writing EEPROM!" "" "" "") in H.
  apply (bus_with_emit (Sleep_ms 1000)) in H.
  apply (bus_with_oled "Verifying" "EEPROM now..." "" "" "") in H.
  apply (bus_with_emit (Sleep_ms 1000)) in H.
  apply (bus_with_off_bus (SD_closeFile card)) in H;
    [|apply off_bus_SD_closeFile].
  apply (bus_with_off_bus (SD_openFile card fileName)) in H;
    [|apply off_bus_SD_openFile].
  exact H.
Qed.

Lemma chipErase_chip_idle (c : chip) :
  cmd c = Cmd_idle ->
  mem (chipErase_chip c) = ∅ /\ cmd (chipErase_chip c) = Cmd_idle.
Proof.
  intros Hc. destruct c as [m s al cy]. cbn [cmd] in Hc. subst s.
  split; reflexivity.
Qed.

Lemma mem_read_empty (a : Z) : mem_read ∅ a = 255.
Proof. unfold mem_read. rewrite lookup_empty. reflexivity. Qed.

Lemma program_blank (data : list byte) (c : chip) :
  cmd c = Cmd_idle -> Z.of_nat (length data) <= 2 ^ 19 ->
  (forall (i : nat) (b : byte), data !! i = Some b ->
     mem_read (mem (program_chip (chipErase_chip c) data 0)) (Z.of_nat i)
     = byte_val b)
  /\ (forall a : Z, Z.of_nat (length data) <= a ->
        mem_read (mem (program_chip (chipErase_chip c) data 0)) a = 255)
  /\ cmd (program_chip (chipErase_chip c) data 0) = Cmd_idle.
Proof.
  intros Hidle Hlen.
  destruct (chipErase_chip_idle c Hidle) as [Hm Hi].
  destruct (program_chip_idle data (chipErase_chip c) 0 Hi) as [Hi' Hm'].
  rewrite Hi', Hm', Hm. split; [|split; [|reflexivity]].
  - intros i b Hib.
    pose proof (program_mem_lookup data ∅ 0 i b) as Hlk.
    rewrite !Z.add_0_l in Hlk. apply Hlk; (assumption || lia).
  - intros a Ha. rewrite program_mem_other by lia. apply mem_read_empty.
Qed.

(** X16: when the card opens the file, of at most 2^19 bytes, [sd_routine]
    started on a configured bus with the chip's command decoder idle leaves
    the chip holding exactly the file: cell [i] holds byte [i], every cell
    from the file length on reads 0xFF, whatever the chip held before and
    whatever the driver start, the mount and the closes returned. *)
Theorem X16_sd_routine_programs_file (card : sd_card) (fileName : string)
        (data : list byte) (w : world) :
  card_open card fileName = (FR_OK, data) ->
  bus_ready w = true -> cmd (flash w) = Cmd_idle ->
  Z.of_nat (length data) <= 2 ^ 19 ->
  (forall (i : nat) (b : byte), data !! i = Some b ->
     mem_read (mem (flash (exec (sd_routine card fileName) w))) (Z.of_nat i)
     = byte_val b)
  /\ (forall a : Z, Z.of_nat (length data) <= a ->
        mem_read (mem (flash (exec (sd_routine card fileName) w))) a = 255)
  /\ cmd (flash (exec (sd_routine card fileName) w)) = Cmd_idle.
Proof.
  intros Hopen Hb Hidle Hlen.
  rewrite (sd_routine_flash card fileName w (open_file data)
             (fun c => program_chip c data 0)).
  - apply program_blank; assumption.
  - intros w0. rewrite SD_openFile_fst, Hopen. reflexivity.
  - exact Hb.
  - intros w0 c. apply bus_with_Write.
  - intros w0 c. apply Verify_flash.
Qed.

Lemma X16_witness :
  card_open scenario_card "marioduck.nes" = (FR_OK, scenario_source)
  /\ bus_ready (ready scenario_corrupted) = true
  /\ cmd (flash (ready scenario_corrupted)) = Cmd_idle
  /\ Z.of_nat (length scenario_source) <= 2 ^ 19
  /\ cmd (flash (exec (sd_routine scenario_card "marioduck.nes")
                      (ready scenario_corrupted))) = Cmd_idle.
Proof.
  split; [reflexivity|]. split; [vm_compute; reflexivity|].
  split; [vm_compute; reflexivity|]. split; [vm_compute; discriminate|].
  refine (proj2 (proj2 (X16_sd_routine_programs_file scenario_card
                          "marioduck.nes" scenario_source
                          (ready scenario_corrupted) _ _ _ _)));
    vm_compute; (reflexivity || discriminate).
Defined.

(** X17: [sd_routine] does not look at what the card wrappers return.  When
    the file cannot be opened it still erases the chip: started on a
    configured bus with the command decoder idle it ends with every cell
    erased, whatever the chip held before, and nothing written. *)
Theorem X17_sd_routine_erases_without_file (card : sd_card)
        (fileName : string) (w : world) :
  is_FR_OK (fst (card_open card fileName)) = false ->
  bus_ready w = true -> cmd (flash w) = Cmd_idle ->
  mem (flash (exec (sd_routine card fileName) w)) = ∅
  /\ cycles (flash (exec (sd_routine card fileName) w))
     = cycles (flash w) ++ erase_sequence.
Proof.
  intros Hopen Hb Hidle.
  rewrite (sd_routine_flash card fileName w invalid_file (fun c => c)).
  - destruct (chipErase_chip_idle (flash w) Hidle) as [Hm _].
    split; [exact Hm|]. unfold chipErase_chip.
    rewrite !cycles_bus_write, <- !app_assoc. reflexivity.
  - intros w0. rewrite SD_openFile_fst, Hopen. reflexivity.
  - exact Hb.
  - intros w0 c. apply bus_with_Write_invalid.
  - intros w0 c. apply Verify_invalid_flash.
Qed.

Lemma X17_witness :
  is_FR_OK (fst (card_open empty_card "marioduck.nes")) = false
  /\ bus_ready (ready scenario_corrupted) = true
  /\ cmd (flash (ready scenario_corrupted)) = Cmd_idle
  /\ mem (flash (exec (sd_routine empty_card "marioduck.nes")
                      (ready scenario_corrupted))) = ∅.
Proof.
  split; [reflexivity|]. split; [vm_compute; reflexivity|].
  split; [vm_compute; reflexivity|].
  refine (proj1 (X17_sd_routine_erases_without_file empty_card
                   "marioduck.nes" (ready scenario_corrupted) _ _ _));
    vm_compute; reflexivity.
Defined.

(** ** The command loop *)

Lemma exec_verify_chunk (buffer : list byte) (address errors : Z)
      (w : world) :
  exec (verify_chunk buffer address errors) w
  = exec (scan (map byte_val buffer) address errors) w.
Proof. unfold exec. rewrite verify_chunk_scan. reflexivity. Qed.

Lemma verify_file_loop_keeps (fuel : nat) :
  forall (fil : FIL) (address errors : Z) (w : world),
  read_ready w = true ->
  read_ready (exec (verify_file_loop fuel fil address errors) w) = true
  /\ flash (exec (verify_file_loop fuel fil address errors) w) = flash w.
Proof.
  induction fuel as [|fuel IH]; intros fil address errors w Hr.
  - split; [exact Hr | reflexivity].
  - cbn [verify_file_loop].
    destruct (f_read fil BUFFER_SIZE) as [[ok buffer] fil'].
    rewrite exec_bind.
    set (w1 := exec (emit _) w).
    assert (Hr1 : read_ready w1 = true) by exact Hr.
    assert (Hf1 : flash w1 = flash w) by reflexivity.
    destruct ok.
    + rewrite exec_bind, exec_verify_chunk.
      destruct (scan_run (map byte_val buffer) address errors w1 Hr1)
        as (_ & Hrr & Hf & _).
      destruct (Z.of_nat (length buffer) <? BUFFER_SIZE).
      * rewrite exec_ret. split; [exact Hrr|]. rewrite Hf. exact Hf1.
      * destruct (IH fil' (fst (fst (verify_chunk buffer address errors w1)))
                    (snd (fst (verify_chunk buffer address errors w1)))
                    _ Hrr) as [Hr2 Hf2].
        split; [exact Hr2|]. rewrite Hf2, Hf. exact Hf1.
    + rewrite exec_ret. split; [exact Hr1 | exact Hf1].
Qed.

Lemma bus_with_Verify (fil : FIL) (w : world) (c : chip) :
  bus_with w c -> bus_with (exec (EEPROM_ReadAndVerify fil) w) c.
Proof.
  intros [Hb Hf]. unfold EEPROM_ReadAndVerify. rewrite !exec_bind.
  set (w0 := exec (oledDisplayMessages _ _ _ _ _) w).
  assert (Hb0 : bus_ready w0 = true) by exact Hb.
  assert (Hf0 : flash w0 = c) by exact Hf.
  pose proof (setReadMode_ready w0 Hb0) as Hr.
  pose proof (setReadMode_flash w0 Hb0) as Hf1.
  destruct (verify_file_loop_keeps (S (length (fdata fil))) fil 0 0 _ Hr)
    as [Hr2 Hf2].
  apply read_ready_bus_ready in Hr2.
  destruct (fst (verify_file_loop _ _ _ _ _)) as [[a e]|].
  - rewrite exec_bind, exec_ret. split.
    + rewrite bus_ready_emit. exact Hr2.
    + rewrite flash_emit, Hf2, Hf1. exact Hf0.
  - rewrite exec_ret. split; [exact Hr2|]. rewrite Hf2, Hf1. exact Hf0.
Qed.

Lemma bus_with_key_r (card : sd_card) (k : ascii) (w : world) (c : chip) :
  bus_with w c ->
  bus_with (exec (if Ascii.eqb k "r" then
                    o <- SD_openFile card ROM_FILE ;;
                    EEPROM_ReadAndVerify (snd o) ;;
                    SD_closeFile card ;;
                    sleep_ms 3000
                  else ret tt) w) c.
Proof.
  intros H. destruct (Ascii.eqb k "r"); [|rewrite exec_ret; exact H].
  rewrite !exec_bind. apply bus_with_emit.
  apply bus_with_off_bus; [apply off_bus_SD_closeFile|].
  apply bus_with_Verify.
  apply bus_with_off_bus; [apply off_bus_SD_openFile|]. exact H.
Qed.

Lemma bus_with_key_w (card : sd_card) (k : ascii) (w : world) (c : chip) :
  bus_with w c ->
  bus_with (exec (if Ascii.eqb k "w" then
                    o <- SD_openFile card ROM_FILE ;;
                    EEPROM_WriteCurrentFile (snd o) ;;
                    SD_closeFile card ;;
                    sleep_ms 3000
                  else ret tt) w)
           (if Ascii.eqb k "w" then
              if is_FR_OK (fst (card_open card ROM_FILE))
              then program_chip c (snd (card_open card ROM_FILE)) 0
              else c
            else c).
Proof.
  intros H. destruct (Ascii.eqb k "w"); [|rewrite exec_ret; exact H].
  rewrite !exec_bind. apply bus_with_emit.
  apply bus_with_off_bus; [apply off_bus_SD_closeFile|].
  rewrite SD_openFile_fst. cbn [snd].
  apply (bus_with_off_bus (SD_openFile card ROM_FILE)) in H;
    [|apply off_bus_SD_openFile].
  destruct (is_FR_OK (fst (card_open card ROM_FILE))).
  - apply bus_with_Write. exact H.
  - apply bus_with_Write_invalid. exact H.
Qed.

Lemma bus_with_key_e (k : ascii) (w : world) (c : chip) :
  bus_with w c ->
  bus_with (exec (if Ascii.eqb k "e" then
                    EEPROM_chipErase ;;
                    sleep_ms 3000
                  else ret tt) w)
           (if Ascii.eqb k "e" then chipErase_chip c else c).
Proof.
  intros H. destruct (Ascii.eqb k "e"); [|rewrite exec_ret; exact H].
  rewrite !exec_bind. apply bus_with_emit. apply bus_with_chipErase.
  exact H.
Qed.

Lemma bus_with_key_v (k : ascii) (w : world) (c : chip) :
  bus_with w c ->
  bus_with (exec (if Ascii.eqb k "v" then
                    EEPROM_VerifyErased ;;
                    sleep_ms 3000
                  else ret tt) w) c.
Proof.
  intros H. destruct (Ascii.eqb k "v"); [|rewrite exec_ret; exact H].
  rewrite !exec_bind. apply bus_with_emit. apply bus_with_VerifyErased.
  exact H.
Qed.

Lemma key_chip_cases (card : sd_card) (c : chip) (k : ascii) :
  (if Ascii.eqb k "e"
   then chipErase_chip
          (if Ascii.eqb k "w" then
             if is_FR_OK (fst (card_open card ROM_FILE))
             then program_chip c (snd (card_open card ROM_FILE)) 0
             else c
           else c)
   else if Ascii.eqb k "w" then
          if is_FR_OK (fst (card_open card ROM_FILE))
          then program_chip c (snd (card_open card ROM_FILE)) 0
          else c
        else c)
  = key_chip card c k.
Proof.
  unfold key_chip. destruct (Ascii.eqb_spec k "w") as [->|Hw];
    reflexivity.
Qed.

Lemma main_loop_flash (card : sd_card) (keys : list ascii) :
  forall (w : world) (c : chip),
  bus_with w c ->
  flash (exec (main_loop card keys) w) = session_chip card keys c.
Proof.
  induction keys as [|k rest IH]; intros w c H.
  - cbn [main_loop session_chip]. rewrite !exec_bind, exec_ret.
    destruct H as [_ Hf]. exact Hf.
  - cbn [main_loop session_chip]. rewrite !exec_bind.
    apply (bus_with_oled "Use serial port" "r - read ROM" "w - write ROM"
             "e - erase ROM" "v - verify erased") in H.
    apply (bus_with_emit (Sdk_call "getchar")) in H.
    apply (bus_with_key_r card k) in H.
    apply (bus_with_key_w card k) in H.
    apply (bus_with_key_e k) in H.
    apply (bus_with_key_v k) in H.
    rewrite key_chip_cases in H.
    destruct (Ascii.eqb_spec k "q") as [->|Hq].
    + rewrite exec_bind, exec_ret.
      rewrite (off_bus_flash SD_unmount) by apply off_bus_SD_unmount.
      destruct H as [_ Hf]. rewrite Hf. reflexivity.
    + rewrite exec_bind. apply IH. apply bus_with_emit. exact H.
Qed.

Lemma main_flash (card : sd_card) (keys : list ascii) (w : world) :
  pad (gpio_out w) (gpio_oe w) OUTPUT_ENABLE_PIN = false ->
  flash (exec (main card keys) w) = session_chip card keys (flash w).
Proof.
  intros Hoe. unfold main. rewrite !exec_bind. apply main_loop_flash.
  apply bus_with_emit.
  apply bus_with_off_bus; [apply off_bus_SD_mount|].
  apply bus_with_emit.
  apply bus_with_off_bus; [apply off_bus_SD_init|].
  apply bus_with_emit.
  split; [apply setup_bus_ready | apply setup_flash; exact Hoe].
Qed.

Lemma bind_ext {A B} (m : M A) (k k' : A -> M B) (w : world) :
  (forall x w', k x w' = k' x w') -> bind m k w = bind m k' w.
Proof. intros H. unfold bind. destruct (m w) as [x w']. apply H. Qed.

Lemma fst_ret {A} (x : A) (w : world) : fst (ret x w) = x.
Proof. reflexivity. Qed.

Lemma main_loop_until_quit (card : sd_card) (keys : list ascii) :
  forall w : world,
  main_loop card keys w = main_loop card (until_quit keys) w.
Proof.
  induction keys as [|k rest IH]; intros w; [reflexivity|].
  cbn [until_quit]. destruct (Ascii.eqb k "q") eqn:Hq.
  - cbn [main_loop]. rewrite !Hq.
    repeat (apply bind_ext; intros ? ?). reflexivity.
  - cbn [main_loop]. rewrite !Hq.
    repeat (apply bind_ext; intros ? ?). apply IH.
Qed.

Lemma main_loop_fst (card : sd_card) (keys : list ascii) :
  forall w : world,
  fst (main_loop card keys w)
  = if existsb is_quit keys then Some 0 else None.
Proof.
  induction keys as [|k rest IH]; intros w.
  - cbn [main_loop existsb]. rewrite !fst_bind. apply fst_ret.
  - cbn [main_loop existsb]. rewrite !fst_bind. unfold is_quit at 1.
    destruct (Ascii.eqb k "q"); cbn [orb].
    + rewrite fst_bind. apply fst_ret.
    + rewrite fst_bind. apply IH.
Qed.

(** X18: [main] returns, with exit code 0, exactly when a [q] arrives on
    the serial port; with any other input it stays in the command loop.
    Nothing behind the first [q] is read: the run on the whole input is the
    run on the input up to that [q]. *)
Theorem X18_main_returns_at_quit (card : sd_card) (keys : list ascii)
        (w : world) :
  fst (main card keys w) = (if existsb is_quit keys then Some 0 else None)
  /\ main card keys w = main card (until_quit keys) w.
Proof.
  split.
  - unfold main. rewrite !fst_bind. apply main_loop_fst.
  - unfold main. repeat (apply bind_ext; intros ? ?).
    apply main_loop_until_quit.
Qed.

(** X19: started after a reset (/OE not driven high), [main] leaves the
    chip as the commands read up to the first [q] make it, one after the
    other: [w] programs the file "marioduck.nes" from address 0 when the
    card opens it and does nothing to the chip when it does not, [e] runs
    the erase command, and every other character, [r] and [v] included,
    leaves the chip as it is. *)
Theorem X19_main_session_chip (card : sd_card) (keys : list ascii)
        (w : world) :
  pad (gpio_out w) (gpio_oe w) OUTPUT_ENABLE_PIN = false ->
  flash (exec (main card keys) w) = session_chip card keys (flash w).
Proof. exact (main_flash card keys w). Qed.

Lemma X19_witness :
  pad (gpio_out (power_on scenario_corrupted))
      (gpio_oe (power_on scenario_corrupted)) OUTPUT_ENABLE_PIN = false
  /\ flash (exec (main scenario_card ["e"; "w"; "q"]%char)
                 (power_on scenario_corrupted))
     = session_chip scenario_card ["e"; "w"; "q"]%char
                    (flash (power_on scenario_corrupted)).
Proof.
  split; [reflexivity|].
  apply (X19_main_session_chip scenario_card ["e"; "w"; "q"]%char
           (power_on scenario_corrupted)).
  reflexivity.
Defined.

Lemma key_chip_read_only (card : sd_card) (c : chip) (k : ascii) :
  alters_chip k = false -> key_chip card c k = c.
Proof.
  unfold alters_chip, key_chip. intros H. apply orb_false_iff in H.
  destruct H as [Hw He]. rewrite Hw, He. reflexivity.
Qed.

Lemma session_chip_read_only (card : sd_card) (keys : list ascii) :
  forall c : chip,
  read_only keys = true -> session_chip card keys c = c.
Proof.
  induction keys as [|k rest IH]; intros c H; [reflexivity|].
  unfold read_only in H. cbn [forallb] in H. apply andb_true_iff in H.
  destruct H as [Hk Hrest]. apply negb_true_iff in Hk.
  cbn [session_chip]. rewrite key_chip_read_only by exact Hk.
  destruct (Ascii.eqb k "q"); [reflexivity | apply IH; exact Hrest].
Qed.

(** X20: a session without the commands [w] and [e] never changes the chip:
    whatever else arrives on the serial port, be it [r], [v], [q] or
    characters that are no command, and whatever the card answers, cells,
    command decoder and write cycles seen are at the end as at the reset. *)
Theorem X20_read_only_session (card : sd_card) (keys : list ascii)
        (w : world) :
  pad (gpio_out w) (gpio_oe w) OUTPUT_ENABLE_PIN = false ->
  read_only keys = true ->
  flash (exec (main card keys) w) = flash w.
Proof.
  intros Hoe Hro. rewrite main_flash by exact Hoe.
  apply session_chip_read_only. exact Hro.
Qed.

Lemma X20_witness :
  pad (gpio_out (power_on scenario_corrupted))
      (gpio_oe (power_on scenario_corrupted)) OUTPUT_ENABLE_PIN = false
  /\ read_only ["r"; "v"; "x"; "r"; "q"]%char = true
  /\ flash (exec (main scenario_card ["r"; "v"; "x"; "r"; "q"]%char)
                 (power_on scenario_corrupted))
     = flash (power_on scenario_corrupted).
Proof.
  split; [reflexivity|]. split; [reflexivity|].
  apply (X20_read_only_session scenario_card
           ["r"; "v"; "x"; "r"; "q"]%char (power_on scenario_corrupted));
    reflexivity.
Defined.

Lemma key_chip_idle (card : sd_card) (c : chip) (k : ascii) :
  cmd c = Cmd_idle -> cmd (key_chip card c k) = Cmd_idle.
Proof.
  intros Hc. unfold key_chip.
  destruct (Ascii.eqb k "w").
  - destruct (is_FR_OK _); [|exact Hc].
    apply program_chip_idle. exact Hc.
  - destruct (Ascii.eqb k "e"); [|exact Hc].
    apply chipErase_chip_idle. exact Hc.
Qed.

Lemma session_chip_idle (card : sd_card) (keys : list ascii) :
  forall c : chip,
  cmd c = Cmd_idle -> cmd (session_chip card keys c) = Cmd_idle.
Proof.
  induction keys as [|k rest IH]; intros c Hc; [exact Hc|].
  cbn [session_chip]. destruct (Ascii.eqb k "q"); [exact Hc|].
  apply IH. apply key_chip_idle. exact Hc.
Qed.

Lemma session_chip_app (card : sd_card) (pre keys : list ascii) :
  forall c : chip,
  existsb is_quit pre = false ->
  session_chip card (pre ++ keys) c
  = session_chip card keys (session_chip card pre c).
Proof.
  induction pre as [|k rest IH]; intros c H; [reflexivity|].
  cbn [existsb] in H. apply orb_false_iff in H. destruct H as [Hk Hrest].
  unfold is_quit in Hk. cbn [app session_chip]. rewrite Hk.
  apply IH. exact Hrest.
Qed.

Lemma session_chip_cons (card : sd_card) (k : ascii) (rest : list ascii)
      (c : chip) :
  Ascii.eqb k "q" = false ->
  session_chip card (k :: rest) c
  = session_chip card rest (key_chip card c k).
Proof. intros H. cbn [session_chip]. rewrite H. reflexivity. Qed.

Lemma key_chip_e (card : sd_card) (c : chip) :
  key_chip card c "e" = chipErase_chip c.
Proof. reflexivity. Qed.

Lemma key_chip_w (card : sd_card) (c : chip) (data : list byte) :
  card_open card ROM_FILE = (FR_OK, data) ->
  key_chip card c "w" = program_chip c data 0.
Proof. intros H. unfold key_chip. rewrite H. reflexivity. Qed.

(** X21: erase, then write.  In a session started after a reset with the
    command decoder idle, in which an [e] is followed by a [w] with neither
    [q], [w] nor [e] in between and neither [w] nor [e] afterwards, the chip
    ends holding exactly the file (of at most 2^19 bytes) that the card
    opens: cell [i] holds byte [i] and every cell from the file length on
    reads 0xFF, whatever the chip held and whatever came before the [e]. *)
Theorem X21_erase_then_write (card : sd_card) (pre mid post : list ascii)
        (data : list byte) (w : world) :
  pad (gpio_out w) (gpio_oe w) OUTPUT_ENABLE_PIN = false ->
  cmd (flash w) = Cmd_idle ->
  card_open card ROM_FILE = (FR_OK, data) ->
  Z.of_nat (length data) <= 2 ^ 19 ->
  existsb is_quit (pre ++ mid) = false ->
  read_only (mid ++ post) = true ->
  (forall (i : nat) (b : byte), data !! i = Some b ->
     mem_read (mem (flash (exec (main card (pre ++ "e" :: mid
                                             ++ "w" :: post)%char) w)))
              (Z.of_nat i) = byte_val b)
  /\ (forall a : Z, Z.of_nat (length data) <= a ->
        mem_read (mem (flash (exec (main card (pre ++ "e" :: mid
                                                ++ "w" :: post)%char) w))) a
        = 255).
Proof.
  intros Hoe Hidle Hopen Hlen Hq Hro.
  rewrite existsb_app in Hq. apply orb_false_iff in Hq.
  destruct Hq as [Hqpre Hqmid].
  unfold read_only in Hro. rewrite forallb_app in Hro.
  apply andb_true_iff in Hro. destruct Hro as [Hromid Hropost].
  rewrite main_flash by exact Hoe.
  rewrite session_chip_app by exact Hqpre.
  rewrite session_chip_cons, key_chip_e by reflexivity.
  rewrite session_chip_app by exact Hqmid.
  rewrite (session_chip_read_only card mid) by exact Hromid.
  rewrite session_chip_cons, (key_chip_w card _ data Hopen) by reflexivity.
  rewrite (session_chip_read_only card post) by exact Hropost.
  pose proof (session_chip_idle card pre (flash w) Hidle) as Hc1.
  destruct (program_blank data _ Hc1 Hlen) as (H1 & H2 & _).
  split; [exact H1 | exact H2].
Qed.

Lemma X21_witness :
  pad (gpio_out (power_on scenario_corrupted))
      (gpio_oe (power_on scenario_corrupted)) OUTPUT_ENABLE_PIN = false
  /\ cmd (flash (power_on scenario_corrupted)) = Cmd_idle
  /\ card_open scenario_card ROM_FILE = (FR_OK, scenario_source)
  /\ Z.of_nat (length scenario_source) <= 2 ^ 19
  /\ existsb is_quit (["w"] ++ ["v"])%char = false
  /\ read_only (["v"] ++ ["r"; "q"])%char = true
  /\ (forall a : Z, Z.of_nat (length scenario_source) <= a ->
        mem_read (mem (flash (exec (main scenario_card
                                      (["w"] ++ "e" :: ["v"]
                                         ++ "w" :: ["r"; "q"])%char)
                                   (power_on scenario_corrupted)))) a
        = 255).
Proof.
  split; [reflexivity|]. split; [reflexivity|]. split; [reflexivity|].
  split; [vm_compute; discriminate|]. split; [reflexivity|].
  split; [reflexivity|].
  refine (proj2 (X21_erase_then_write scenario_card ["w"]%char ["v"]%char
                   ["r"; "q"]%char scenario_source
                   (power_on scenario_corrupted) _ _ _ _ _ _));
    first [reflexivity | vm_compute; discriminate].
Defined.

(** ** What the routine reports *)

Lemma reports_emit (e : event) (w : world) :
  is_report e = false -> reports (log (exec (emit e) w)) = reports (log w).
Proof.
  intros H. rewrite log_emit, reports_app. unfold reports at 2.
  cbn [List.filter]. rewrite H. apply app_nil_r.
Qed.

Lemma reports_silent {A} (m : M A) (w : world) :
  silent m -> reports (log (exec m w)) = reports (log w).
Proof. intros H. apply H. Qed.

Lemma silent_ret {A} (x : A) : silent (ret x).
Proof. intros w. reflexivity. Qed.

Lemma silent_emit (e : event) : is_report e = false -> silent (emit e).
Proof. intros H w. apply reports_emit. exact H. Qed.

Lemma silent_bind {A B} (m : M A) (k : A -> M B) :
  silent m -> (forall x, silent (k x)) -> silent (bind m k).
Proof. intros Hm Hk w. rewrite exec_bind, Hk, Hm. reflexivity. Qed.

Lemma silent_put (p : Z) (v : bool) : silent (gpio_put p v).
Proof.
  intros w. rewrite log_gpio_put, reports_app. apply app_nil_r.
Qed.

Lemma silent_if {A} (b : bool) (m1 m2 : M A) :
  silent m1 -> silent m2 -> silent (if b then m1 else m2).
Proof. destruct b; auto. Qed.

Ltac silent_tac :=
  repeat match goal with
    | |- silent (bind _ _) => apply silent_bind; [|intros ?]
    | |- silent (if _ then _ else _) => apply silent_if
    | |- silent (gpio_put _ _) => apply silent_put
    | |- silent (emit _) => apply silent_emit; reflexivity
    | |- silent (ret _) => apply silent_ret
    end.

Lemma silent_handleErr : silent handleErr.
Proof. unfold handleErr, printf, sleep_ms. silent_tac. Qed.

Lemma silent_SD_init (card : sd_card) : silent (SD_init card).
Proof.
  unfold SD_init, printf, sleep_ms, oledDisplayMessages.
  silent_tac; apply silent_handleErr.
Qed.

Lemma silent_SD_mount (card : sd_card) : silent (SD_mount card).
Proof.
  unfold SD_mount, printf, sleep_ms, oledDisplayMessages.
  silent_tac; apply silent_handleErr.
Qed.

Lemma silent_SD_closeFile (card : sd_card) : silent (SD_closeFile card).
Proof.
  unfold SD_closeFile, printf, sleep_ms, oledDisplayMessages.
  silent_tac; apply silent_handleErr.
Qed.

Lemma silent_SD_openFile (card : sd_card) (fileName : string) :
  silent (SD_openFile card fileName).
Proof.
  unfold SD_openFile, printf, sleep_ms, oledDisplayMessages.
  destruct (f_open card fileName) as [fr fp].
  silent_tac; apply silent_handleErr.
Qed.

Lemma silent_SD_unmount : silent SD_unmount.
Proof. apply silent_emit. reflexivity. Qed.

Lemma reports_pin_events (l : list event) :
  forallb is_pin_event l = true -> reports l = [].
Proof.
  intros H. unfold reports.
  apply (filter_none is_report is_pin_event); [exact H|].
  apply pin_event_not_report.
Qed.

Lemma reports_write_events (address data : Z) :
  reports (write_events address data) = [].
Proof. apply reports_pin_events. apply write_events_pin_events. Qed.

Lemma reports_program_events (buffer : list byte) (address : Z) :
  reports (program_events buffer address) = [].
Proof. apply reports_pin_events. apply program_events_pin_events. Qed.

Lemma reports_setReadMode_events (oe : Z) :
  reports (setReadMode_events oe) = [].
Proof. apply reports_pin_events. apply setReadMode_events_pin_events. Qed.

Lemma reports_chipErase_events : reports chipErase_events = [].
Proof.
  unfold chipErase_events, erase_sequence. cbn [flat_map fst snd].
  rewrite !reports_app.
  rewrite (reports_pin_events _ setWriteMode_events_pin_events).
  rewrite !reports_write_events.
  reflexivity.
Qed.

Lemma setReadMode_reports (w : world) :
  bus_ready w = true ->
  reports (log (exec setReadMode w)) = reports (log w).
Proof.
  intros Hb. rewrite setReadMode_exec by exact Hb. cbn [log].
  rewrite reports_app, reports_setReadMode_events.
  apply app_nil_r.
Qed.

Lemma setWriteMode_reports (w : world) :
  reports (log (exec setWriteMode w)) = reports (log w).
Proof.
  rewrite setWriteMode_log, reports_app,
    (reports_pin_events _ setWriteMode_events_pin_events).
  apply app_nil_r.
Qed.

Lemma scan_reports (expected : list Z) (address errors : Z) (w : world) :
  read_ready w = true ->
  reports (log (exec (scan expected address errors) w))
  = reports (log w) ++ map report_of (mismatches (flash w) expected address).
Proof.
  intros Hr.
  destruct (scan_run expected address errors w Hr) as (_ & _ & _ & Hl).
  rewrite Hl, reports_app, scan_events_reports. reflexivity.
Qed.

Lemma mismatches_erased (c : chip) (n : nat) : forall a : Z,
  mem c = ∅ -> mismatches c (replicate n 255) a = [].
Proof.
  induction n as [|n IH]; intros a Hm; [reflexivity|].
  cbn [replicate mismatches]. rewrite IH by exact Hm.
  unfold differs, read_back, chip_byte. rewrite Hm, mem_read_empty.
  reflexivity.
Qed.

Lemma VerifyErased_reports (w : world) :
  bus_ready w = true -> mem (flash w) = ∅ ->
  reports (log (exec EEPROM_VerifyErased w)) = reports (log w).
Proof.
  intros Hb Hm. unfold EEPROM_VerifyErased. rewrite !exec_bind, exec_ret.
  set (w0 := exec (oledDisplayMessages _ _ _ _ _) w).
  assert (Hb0 : bus_ready w0 = true) by exact Hb.
  assert (Hl0 : reports (log w0) = reports (log w))
    by (apply reports_emit; reflexivity).
  pose proof (setReadMode_ready w0 Hb0) as Hr.
  pose proof (setReadMode_flash w0 Hb0) as Hf1.
  pose proof (setReadMode_reports w0 Hb0) as Hl1.
  generalize (Z.to_nat MAX_EEPROM_ADDRESS_SPACE). intros n.
  assert (He : exec (verifyErased_loop n 0 0) (exec setReadMode w0)
               = exec (scan (replicate n 255) 0 0) (exec setReadMode w0))
    by (unfold exec; rewrite verifyErased_loop_scan; reflexivity).
  rewrite reports_emit by reflexivity.
  rewrite He, scan_reports by exact Hr.
  rewrite mismatches_erased by (rewrite Hf1; exact Hm).
  cbn [map]. rewrite app_nil_r, Hl1. exact Hl0.
Qed.

Lemma write_file_loop_silent (fuel : nat) :
  forall (fil : FIL) (address : Z) (w : world),
  write_ready w = true ->
  reports (log (exec (write_file_loop fuel fil address) w))
  = reports (log w).
Proof.
  induction fuel as [|fuel IH]; intros fil address w Hr; [reflexivity|].
  cbn [write_file_loop].
  destruct (f_read fil BUFFER_SIZE) as [[ok buffer] fil'].
  rewrite exec_bind.
  set (w1 := exec (emit _) w).
  assert (Hr1 : write_ready w1 = true) by exact Hr.
  assert (Hl1 : reports (log w1) = reports (log w))
    by (apply reports_emit; reflexivity).
  destruct ok.
  - rewrite exec_bind.
    destruct (write_chunk_run buffer address w1 Hr1)
      as (_ & Hrr & _ & _ & Hl).
    assert (Hl2 : reports (log (exec (write_chunk buffer address) w1))
                  = reports (log w)).
    { rewrite Hl, reports_app, reports_program_events, app_nil_r.
      exact Hl1. }
    destruct (Z.of_nat (length buffer) <? BUFFER_SIZE).
    + rewrite exec_ret. exact Hl2.
    + rewrite IH by exact Hrr. exact Hl2.
  - rewrite exec_ret. exact Hl1.
Qed.

Lemma Write_reports (fil : FIL) (w : world) :
  bus_ready w = true ->
  reports (log (exec (EEPROM_WriteCurrentFile fil) w)) = reports (log w).
Proof.
  intros Hb. unfold EEPROM_WriteCurrentFile. rewrite !exec_bind.
  set (w0 := exec (oledDisplayMessages _ _ _ _ _) w).
  assert (Hb0 : bus_ready w0 = true) by exact Hb.
  assert (Hl0 : reports (log w0) = reports (log w))
    by (apply reports_emit; reflexivity).
  pose proof (setWriteMode_ready w0 Hb0) as Hr.
  pose proof (write_file_loop_silent (S (length (fdata fil))) fil 0 _ Hr)
    as Hl.
  rewrite setWriteMode_reports, Hl0 in Hl.
  destruct (fst (write_file_loop _ _ _ _)) as [a|].
  - unfold sleep_ms. rewrite !exec_bind, exec_ret.
    rewrite !reports_emit by reflexivity. exact Hl.
  - rewrite exec_ret. exact Hl.
Qed.

Lemma mismatches_programmed (data : list byte) (c : chip) :
  cmd c = Cmd_idle -> Z.of_nat (length data) <= 2 ^ 19 ->
  mismatches (program_chip c data 0) (map byte_val data) 0 = [].
Proof.
  intros Hidle Hlen. change (2 ^ 19) with 524288 in Hlen.
  pose proof (mismatches_differing (program_chip c data 0) data 0%nat)
    as Hd.
  change (Z.of_nat 0) with 0 in Hd. rewrite Hd
    by (change (2 ^ 32) with 4294967296; lia).
  apply differing_nil. intros k b Hk.
  destruct (program_chip_idle data c 0 Hidle) as [_ Hm].
  unfold read_back, chip_byte. rewrite Hm.
  pose proof (lookup_lt_Some _ _ _ Hk) as Hlt.
  rewrite chip_address_small by (change (2 ^ 19) with 524288; lia).
  cbn [Nat.add].
  pose proof (program_mem_lookup data (mem c) 0 k b) as Hlk.
  rewrite !Z.add_0_l in Hlk.
  rewrite Hlk by (change (2 ^ 19) with 524288; (assumption || lia)).
  apply land_255_small. pose proof (byte_val_range b). lia.
Qed.

Lemma Verify_reports (data : list byte) (w : world) :
  bus_ready w = true ->
  mismatches (flash w) (map byte_val data) 0 = [] ->
  reports (log (exec (EEPROM_ReadAndVerify (open_file data)) w))
  = reports (log w).
Proof.
  intros Hb Hm.
  destruct (ReadAndVerify_run data w Hb) as (_ & _ & Hrep & _).
  rewrite Hrep, Hm. apply app_nil_r.
Qed.

Lemma exec_verify_fault_now (fuel : nat) (fil : FIL) (address errors : Z)
      (w : world) :
  fgood fil = Some O ->
  exec (verify_file_loop (S fuel) fil address errors) w
  = exec (emit (F_read BUFFER_SIZE false 0)) w.
Proof.
  intros Hg. unfold exec at 1.
  rewrite verify_file_loop_fault_now by exact Hg. reflexivity.
Qed.

Lemma Verify_invalid_reports (w : world) :
  bus_ready w = true ->
  reports (log (exec (EEPROM_ReadAndVerify invalid_file) w))
  = reports (log w).
Proof.
  intros Hb. unfold EEPROM_ReadAndVerify. rewrite !exec_bind.
  rewrite verify_file_loop_fault_now by reflexivity. cbn [fst].
  rewrite exec_bind, exec_ret.
  rewrite reports_emit by reflexivity.
  rewrite exec_verify_fault_now by reflexivity.
  rewrite reports_emit by reflexivity.
  rewrite setReadMode_reports by exact Hb.
  apply reports_emit. reflexivity.
Qed.

Lemma bus_quiet_emit (e : event) (w : world) (c : chip) (r : list event) :
  is_report e = false ->
  bus_quiet w c r -> bus_quiet (exec (emit e) w) c r.
Proof.
  intros He [Hb Hr]. split; [exact Hb|].
  rewrite reports_emit by exact He. exact Hr.
Qed.

Lemma bus_quiet_oled (m1 m2 m3 m4 m5 : string) (w : world) (c : chip)
      (r : list event) :
  bus_quiet w c r ->
  bus_quiet (exec (oledDisplayMessages m1 m2 m3 m4 m5) w) c r.
Proof. apply bus_quiet_emit. reflexivity. Qed.

Lemma bus_quiet_off_bus {A} (m : M A) (w : world) (c : chip)
      (r : list event) :
  off_bus m -> silent m -> bus_quiet w c r -> bus_quiet (exec m w) c r.
Proof.
  intros Ho Hs [Hb Hr]. split.
  - apply bus_with_off_bus; assumption.
  - rewrite Hs. exact Hr.
Qed.

Lemma bus_quiet_chipErase (w : world) (c : chip) (r : list event) :
  bus_quiet w c r ->
  bus_quiet (exec EEPROM_chipErase w) (chipErase_chip c) r.
Proof.
  intros [Hb Hr]. split.
  - apply bus_with_chipErase. exact Hb.
  - rewrite chipErase_log, reports_app, reports_chipErase_events, app_nil_r.
    exact Hr.
Qed.

Lemma bus_quiet_VerifyErased (w : world) (c : chip) (r : list event) :
  mem c = ∅ ->
  bus_quiet w c r -> bus_quiet (exec EEPROM_VerifyErased w) c r.
Proof.
  intros Hm [Hb Hr]. split.
  - apply bus_with_VerifyErased. exact Hb.
  - destruct Hb as [Hb Hf].
    rewrite VerifyErased_reports by (try rewrite Hf; assumption).
    exact Hr.
Qed.

(** What the routine has reported at its end, for the file object [fil]
    that the two calls of [SD_openFile] return. *)
Lemma sd_routine_reports (card : sd_card) (fileName : string) (w : world)
      (fil : FIL) (c' : chip -> chip) :
  (forall w0, snd (fst (SD_openFile card fileName w0)) = fil) ->
  bus_ready w = true ->
  mem (chipErase_chip (flash w)) = ∅ ->
  (forall w0 c, bus_with w0 c ->
     bus_with (exec (EEPROM_WriteCurrentFile fil) w0) (c' c)) ->
  (forall w0, bus_with w0 (c' (chipErase_chip (flash w))) ->
     reports (log (exec (EEPROM_ReadAndVerify fil) w0)) = reports (log w0)) ->
  reports (log (exec (sd_routine card fileName) w)) = reports (log w).
Proof.
  intros Hfil Hb Hblank Hwrite Hverify.
  assert (H : bus_quiet w (flash w) (reports (log w)))
    by (split; [split; [exact Hb | reflexivity] | reflexivity]).
  unfold sd_routine, printf, sleep_ms. rewrite !exec_bind.
  rewrite !Hfil.
  rewrite !reports_emit by reflexivity.
  rewrite (reports_silent SD_unmount) by apply silent_SD_unmount.
  rewrite !reports_emit by reflexivity.
  rewrite (reports_silent (SD_closeFile card)) by apply silent_SD_closeFile.
  rewrite !reports_emit by reflexivity.
  apply (bus_quiet_emit (Printf (String.append
           "Beginning SD Card EEPROM routine!" LF))) in H; [|reflexivity].
  apply (bus_quiet_off_bus (SD_init card)) in H;
    [|apply off_bus_SD_init|apply silent_SD_init].
  apply (bus_quiet_off_bus (SD_mount card)) in H;
    [|apply off_bus_SD_mount|apply silent_SD_mount].
  apply (bus_quiet_off_bus (SD_openFile card fileName)) in H;
    [|apply off_bus_SD_openFile|apply silent_SD_openFile].
  apply (bus_quiet_oled "Performing" "Chip Erase" "" "" "") in H.
  apply bus_quiet_chipErase in H.
  apply (bus_quiet_oled "Chip Erase" "Done!" "" "" "") in H.
  apply (bus_quiet_emit (Sleep_ms 1000)) in H; [|reflexivity].
  apply (bus_quiet_oled "Verifying" "EEPROM" "is" "fully" "erased...") in H.
  apply (bus_quiet_emit (Sleep_ms 200)) in H; [|reflexivity].
  apply bus_quiet_VerifyErased in H; [|exact Hblank].
  apply (bus_quiet_oled "EEPROM" "is" "fully" "erased!" "") in H.
  apply (bus_quiet_emit (Sleep_ms 1000)) in H; [|reflexivity].
  apply (bus_quiet_oled "Writing data" "from SD card" "to EEPROM..." "" "")
    in H.
  destruct H as [H Hr].
  pose proof (Write_reports fil _ (proj1 H)) as Hr'.
  apply Hwrite in H. rewrite Hr in Hr'.
  assert (H' := conj H Hr' : bus_quiet _ _ _).
  clear H Hr Hr'.
  apply (bus_quiet_oled "Done" " writing EEPROM!" "" "" "") in H'.
  apply (bus_quiet_emit (Sleep_ms 1000)) in H'; [|reflexivity].
  apply (bus_quiet_oled "Verifying" "EEPROM now..." "" "" "") in H'.
  apply (bus_quiet_emit (Sleep_ms 1000)) in H'; [|reflexivity].
  apply (bus_quiet_off_bus (SD_closeFile card)) in H';
    [|apply off_bus_SD_closeFile|apply silent_SD_closeFile].
  apply (bus_quiet_off_bus (SD_openFile card fileName)) in H';
    [|apply off_bus_SD_openFile|apply silent_SD_openFile].
  destruct H' as [H Hr].
  rewrite Hverify by exact H. exact Hr.
Qed.

(** X22: [sd_routine] reports no mismatch.  Started on a configured bus with
    the command decoder idle, neither its erase check nor its verification
    reports a mismatch: not when the card opens the file and the file has at
    most 2^19 bytes, and not when the file cannot be opened either, where
    nothing was programmed and nothing is compared. *)
Theorem X22_sd_routine_reports_no_mismatch (card : sd_card)
        (fileName : string) (w : world) :
  bus_ready w = true -> cmd (flash w) = Cmd_idle ->
  (is_FR_OK (fst (card_open card fileName)) = true ->
   Z.of_nat (length (snd (card_open card fileName))) <= 2 ^ 19) ->
  reports (log (exec (sd_routine card fileName) w)) = reports (log w).
Proof.
  intros Hb Hidle Hlen.
  destruct (chipErase_chip_idle (flash w) Hidle) as [Hm Hi].
  destruct (is_FR_OK (fst (card_open card fileName))) eqn:Hopen.
  - apply (sd_routine_reports card fileName w
             (open_file (snd (card_open card fileName)))
             (fun c => program_chip c (snd (card_open card fileName)) 0)).
    + intros w0. rewrite SD_openFile_fst, Hopen. reflexivity.
    + exact Hb.
    + exact Hm.
    + intros w0 c. apply bus_with_Write.
    + intros w0 [Hb0 Hf0]. apply Verify_reports; [exact Hb0|].
      rewrite Hf0. apply mismatches_programmed; [exact Hi|].
      apply Hlen. reflexivity.
  - apply (sd_routine_reports card fileName w invalid_file (fun c => c)).
    + intros w0. rewrite SD_openFile_fst, Hopen. reflexivity.
    + exact Hb.
    + exact Hm.
    + intros w0 c. apply bus_with_Write_invalid.
    + intros w0 [Hb0 _]. apply Verify_invalid_reports. exact Hb0.
Qed.

Lemma X22_witness :
  bus_ready (ready scenario_corrupted) = true
  /\ cmd (flash (ready scenario_corrupted)) = Cmd_idle
  /\ (is_FR_OK (fst (card_open scenario_card "marioduck.nes")) = true ->
      Z.of_nat (length (snd (card_open scenario_card "marioduck.nes")))
      <= 2 ^ 19)
  /\ reports (log (exec (sd_routine scenario_card "marioduck.nes")
                        (ready scenario_corrupted)))
     = reports (log (ready scenario_corrupted)).
Proof.
  split; [vm_compute; reflexivity|]. split; [vm_compute; reflexivity|].
  split; [intros _; vm_compute; discriminate|].
  apply (X22_sd_routine_reports_no_mismatch scenario_card "marioduck.nes"
           (ready scenario_corrupted)).
  - vm_compute; reflexivity.
  - vm_compute; reflexivity.
  - intros _. vm_compute. discriminate.
Defined.
